(** * Mushroom: the DQN family of agents

    A shallow embedding of [mushroom/algorithms/value/dqn.py]: the classes
    [DQN], [DoubleDQN], [AveragedDQN] and [WeightedDQN].

    Conventions of the embedding.
    - Python integers are [Z]; [%] and the Python 2 integer [/] are
      [Z.modulo] and [Z.div] (both floor towards minus infinity, as Python
      does), raising [ZeroDivisionError] on a zero divisor.
    - NumPy float arrays are lists over the exact rationals [Qc]: the
      development is about which values are combined and how, not about
      binary64 rounding, infinities or NaN. Statements that rounding
      would invalidate, such as an order between two sums or means, are
      not made.
    - An instance of the class is a record [dqn]; every method is a
      computation in a state-and-exception monad over that record, so that
      attribute writes made before a [raise] stay visible, as in Python.
    - The collaborators that live outside the file (replay memory,
      regressors, policy, NumPy's random source) are the fields of the
      class [Collaborators]; the frame buffer is modelled from its
      description. Every call a method makes to a collaborator is
      recorded, in program order, in the [calls] log of the state; the
      log starts empty when [__init__] returns, so it holds the calls
      made since construction. *)

From Stdlib Require Import ZArith List Bool Lia QArith Qcanon Permutation FinFun.
Import ListNotations.
Local Open Scope Z_scope.

(** ** Exceptions and results

    [InvalidState] stands for whatever the replay memory and the frame
    buffer raise when they are read too early. *)

Inductive exn : Type :=
| AssertionError
| ValueError
| ZeroDivisionError
| IndexError
| TypeError
| InvalidState.

Inductive res (A : Type) : Type :=
| Ok (a : A)
| Raise (e : exn).
Arguments Ok {A} a.
Arguments Raise {A} e.

(** ** Numbers *)

Definition of_Z (z : Z) : Qc := Q2Qc (inject_Z z).

Definition Qcleb (x y : Qc) : bool := Qle_bool x y.
Definition Qcltb (x y : Qc) : bool := negb (Qcleb y x).
Definition Qcmax (x y : Qc) : Qc := if Qcltb x y then y else x.
Definition Qcmin (x y : Qc) : Qc := if Qcltb y x then y else x.

Definition Qcsum (l : list Qc) : Qc := fold_right Qcplus 0%Qc l.

(** [n_updates % f] and [n_updates / f] on Python 2 ints. *)
Definition py_mod (a b : Z) : res Z :=
  if b =? 0 then Raise ZeroDivisionError else Ok (a mod b).
Definition py_div (a b : Z) : res Z :=
  if b =? 0 then Raise ZeroDivisionError else Ok (a / b).

(** [xrange(n)]. *)
Definition xrange (n : Z) : list Z := map Z.of_nat (seq 0 (Z.to_nat n)).

(** [l[i]] on a Python sequence: negative indices count from the end. *)
Definition py_pos {A : Type} (l : list A) (i : Z) : option nat :=
  let n := Z.of_nat (length l) in
  if (0 <=? i) && (i <? n) then Some (Z.to_nat i)
  else if (- n <=? i) && (i <? 0) then Some (Z.to_nat (n + i))
  else None.

Fixpoint list_set {A : Type} (l : list A) (i : nat) (x : A) : list A :=
  match l, i with
  | [], _ => []
  | _ :: r, O => x :: r
  | y :: r, S j => y :: list_set r j x
  end.

(** ** The NumPy operations the file uses *)

Definition matrix := list (list Qc).

(** [np.clip(x, lo, hi)], elementwise: [minimum(maximum(x, lo), hi)]. *)
Definition clip1 (lo hi x : Qc) : Qc := Qcmin (Qcmax x lo) hi.
Definition np_clip (xs : list Qc) (lo hi : Qc) : list Qc := map (clip1 lo hi) xs.

Definition np_any (bs : list bool) : bool := existsb (fun b => b) bs.

(** [1 - absorbing], elementwise on a boolean array. *)
Definition one_minus (b : bool) : Qc := if b then 0%Qc else 1%Qc.

(** Broadcasting a one-dimensional operand of an in-place operation to the
    [n] entries of its left-hand side: equal lengths, or a single entry
    repeated; anything else is NumPy's "could not be broadcast". *)
Definition broadcast_to {A : Type} (n : nat) (l : list A) : res (list A) :=
  if Nat.eqb (length l) n then Ok l
  else match l with
       | [c] => Ok (repeat c n)
       | _ => Raise ValueError
       end.

(** Broadcasting of the two operands of a binary operation. *)
Definition broadcast2 {A B C : Type} (f : A -> B -> C)
    (xs : list A) (ys : list B) : res (list C) :=
  if Nat.eqb (length xs) (length ys) then Ok (map (fun p => f (fst p) (snd p)) (combine xs ys))
  else match xs, ys with
       | [x], _ => Ok (map (f x) ys)
       | _, [y] => Ok (map (fun x => f x y) xs)
       | _, _ => Raise ValueError
       end.

(** [q *= m.reshape(-1, 1)] for [q] of shape (B, A): row [i] is scaled by
    [m[i]]. *)
Definition imul_rows (q : matrix) (m : list Qc) : res matrix :=
  match broadcast_to (length q) m with
  | Ok m' => Ok (map (fun p => map (Qcmult (snd p)) (fst p)) (combine q m'))
  | Raise e => Raise e
  end.

(** [W *= m] for one-dimensional [W]. *)
Definition imul_vec (w : list Qc) (m : list Qc) : res (list Qc) :=
  match broadcast_to (length w) m with
  | Ok m' => Ok (map (fun p => (fst p * snd p)%Qc) (combine w m'))
  | Raise e => Raise e
  end.

(** Maximum and first arg-maximum of a non-empty row. *)
Definition row_max (row : list Qc) : Qc :=
  match row with
  | [] => 0%Qc
  | x :: r => fold_left Qcmax r x
  end.

Fixpoint argmax_from (best : Qc) (besti i : nat) (l : list Qc) : nat :=
  match l with
  | [] => besti
  | x :: r => if Qcltb best x then argmax_from x i (S i) r
              else argmax_from best besti (S i) r
  end.

Definition row_argmax (row : list Qc) : nat :=
  match row with
  | [] => O
  | x :: r => argmax_from x O 1%nat r
  end.

(** [np.max(q, axis=1)] and [np.argmax(q, axis=1)] for [q] with [ncols]
    columns: a reduction over an axis of length 0 raises [ValueError]. *)
Definition np_max_axis1 (ncols : nat) (q : matrix) : res (list Qc) :=
  if Nat.eqb ncols 0 then Raise ValueError else Ok (map row_max q).

Definition np_argmax_axis1 (ncols : nat) (q : matrix) : res (list nat) :=
  if Nat.eqb ncols 0 then Raise ValueError else Ok (map row_argmax q).

(** Column [a] of a matrix given as its list of rows. *)
Definition column (m : matrix) (a : nat) : list Qc :=
  map (fun row => nth a row 0%Qc) m.

(** [np.mean(m, axis=0)] of a matrix with [ncols] columns. *)
Definition np_mean_axis0 (ncols : nat) (m : matrix) : list Qc :=
  map (fun a => (Qcsum (column m a) / of_Z (Z.of_nat (length m)))%Qc)
      (seq 0 ncols).

(** [samples[:, i, :]]: row [i] of every matrix of the stack. *)
Definition slice_sample (samples : list matrix) (i : nat) : matrix :=
  map (fun q => nth i q []) samples.

(** [np.mean(qs, axis=0)] of a non-empty stack of matrices of shape
    (B, A). The stacks of [_next_q] have [_n_fitted_target_models] layers,
    which is at least 1 on every instance. *)
Definition np_mean_stack (nrows ncols : nat) (qs : list matrix) : matrix :=
  map (fun i => np_mean_axis0 ncols (slice_sample qs i)) (seq 0 nrows).

(** [np.unique(idx, return_counts=True)] followed by
    [count = zeros(n); count[max_idx] = max_count]: how often each of the
    [n] actions occurs in [idx]. *)
Definition np_counts (n : nat) (idx : list nat) : list Qc :=
  map (fun a => of_Z (Z.of_nat (count_occ Nat.eq_dec idx a))) (seq 0 n).

(** [np.dot(w, means)] on vectors of one length: the sum of the products,
    taken exactly. NumPy rounds every product and every partial sum to
    binary64, so the properties below state of this value only which
    entries enter it with which weight, and identities that binary64
    keeps (a weight vector with a single 1, two weights of one half); no
    order between its result and another sum or mean is derived. *)
Definition np_dot (w means : list Qc) : Qc :=
  Qcsum (map (fun p => (fst p * snd p)%Qc) (combine w means)).

(** ** Collaborators *)

(** The six aligned sequences returned by [ReplayMemory.get]; the sixth
    is bound to [_] by [fit] and is left out. *)
Record minibatch (S A : Type) : Type := Minibatch {
  mb_state : list S;
  mb_action : list A;
  mb_reward : list Qc;
  mb_next_state : list S;
  mb_absorbing : list bool
}.
Arguments Minibatch {S A}.
Arguments mb_state {S A}.
Arguments mb_action {S A}.
Arguments mb_reward {S A}.
Arguments mb_next_state {S A}.
Arguments mb_absorbing {S A}.

(** [Regressor(...).model]: one model, or an [Ensemble] of them. *)
Inductive target_model (Mdl : Type) : Type :=
| Single (m : Mdl)
| Ensemble (ms : list Mdl).
Arguments Single {Mdl} m.
Arguments Ensemble {Mdl} ms.

(** A discrete action, [np.array([a])]. *)
Definition Action := list Z.

(** What [dqn.py] imports and calls but does not define. An extended state
    is the stack of the frames of the buffer; a regressor maps a state to
    one value per action. *)
Class Collaborators : Type := {
  Frame : Type;
  Dataset : Type;
  Model : Type;
  Weights : Type;
  Policy : Type;
  ReplayMemory : Type;
  Rng : Type;
  (* mushroom.utils.replay_memory.ReplayMemory *)
  rm_new : Z -> Z -> ReplayMemory;
  rm_add : ReplayMemory -> Dataset -> res ReplayMemory;
  rm_get : ReplayMemory -> Z -> Rng -> res (minibatch (list Frame) Action) * Rng;
  (* mushroom.approximators.regressor.Regressor and Ensemble *)
  regressor_train : Model;
  regressor_target : Z -> target_model Model;
  predict : Model -> list Frame -> nat -> Qc;
  model_fit : Model -> list (list Frame) -> list Action -> list Qc -> Model;
  get_weights : Model -> Weights;
  set_weights : Model -> Weights -> Model;
  ens_predict : list Model -> list Frame -> nat -> Qc;
  ens_set_weights : list Model -> Weights -> res (list Model);
  (* the policy, and Agent.draw_action which delegates to it *)
  policy_update : Policy -> Policy;
  agent_draw_action : Policy -> Model -> list Frame -> Rng -> res Action * Policy * Rng;
  (* numpy's global random state: the integer a valid call
     [np.random.randint(low, high)] returns and the state it leaves; by
     numpy's contract the integer lies in [low, high) *)
  rng_randint : Rng -> Z -> Z -> Z * Rng;
  rng_randint_range : forall g low high,
    - 2 ^ 63 <= low -> low < high -> high <= 2 ^ 63 ->
    low <= fst (rng_randint g low high) < high
}.

Section DQN.
Context {C : Collaborators}.

Definition State : Type := list Frame.

(** Modelled from the spec: [mushroom.utils.replay_memory.Buffer] is not in
    the source tree. "[add(frame)] pushes and evicts the oldest frame once
    at capacity (FIFO, fixed size = history_length). [get()] fails with
    InvalidState if not yet full; otherwise returns the ordered stack of
    all buffered frames as the extended state." *)
Record Buffer : Type := mkBuffer {
  size : Z;
  frames : list Frame
}.

Definition Buffer_new (sz : Z) : Buffer := mkBuffer sz [].

Definition Buffer_add (b : Buffer) (f : Frame) : Buffer :=
  let fs := frames b ++ [f] in
  mkBuffer (size b) (skipn (length fs - Z.to_nat (size b)) fs).

Definition Buffer_get (b : Buffer) : res State :=
  if Z.of_nat (length (frames b)) =? size b then Ok (frames b)
  else Raise InvalidState.

(** ** The agent *)

Inductive variant : Type := DQN | DoubleDQN | AveragedDQN | WeightedDQN.

(** [alg_params], as read once by [DQN.__init__]. *)
Record alg_params : Type := AlgParams {
  batch_size : Z;
  n_approximators : Z;
  clip_reward : bool;
  target_update_frequency : Z;
  max_no_op_actions : Z;
  no_op_action_value : Z;
  max_replay_size : Z;
  history_length : Z
}.

(** A call to a collaborator. *)
Inductive call : Type :=
| ReplayAdd (d : Dataset)
| ReplayGet (n : Z)
| BufferAdd (f : Frame)
| BufferGet
| PolicyUpdate
| PolicyDrawAction (s : State)
| TrainPredict (ss : list State)
| TrainFit (ss : list State) (acts : list Action) (y : list Qc)
| TargetPredict (idx : option Z) (ss : list State)
| TargetPredictAt (ss : list State) (acts : list nat)
| TargetSetWeights (slot : option Z) (w : Weights)
| RandInt (low high : Z).

(** The attributes of an instance, plus the two pieces of the world the
    methods touch: numpy's random state and the log of collaborator calls.
    [n_actions] is [mdp_info['action_space'].n], which is also the number
    of outputs of the regressors. [_n_fitted_target_models] exists only on
    [AveragedDQN] and [WeightedDQN] instances; the other two classes never
    read it. *)
Record dqn : Type := mkDqn {
  cls : variant;
  _gamma : Qc;
  _params : alg_params;
  n_actions : nat;
  _replay_memory : ReplayMemory;
  _buffer : Buffer;
  policy : Policy;
  approximator : Model;
  target_approximator : target_model Model;
  _n_updates : Z;
  _episode_steps : Z;
  _no_op_actions : option Z;
  _n_fitted_target_models : Z;
  np_random : Rng;
  calls : list call
}.

Definition set_replay_memory (x : ReplayMemory) (s : dqn) : dqn :=
  mkDqn (cls s) (_gamma s) (_params s) (n_actions s) x (_buffer s) (policy s)
    (approximator s) (target_approximator s) (_n_updates s) (_episode_steps s)
    (_no_op_actions s) (_n_fitted_target_models s) (np_random s) (calls s).
Definition set_buffer (x : Buffer) (s : dqn) : dqn :=
  mkDqn (cls s) (_gamma s) (_params s) (n_actions s) (_replay_memory s) x (policy s)
    (approximator s) (target_approximator s) (_n_updates s) (_episode_steps s)
    (_no_op_actions s) (_n_fitted_target_models s) (np_random s) (calls s).
Definition set_policy (x : Policy) (s : dqn) : dqn :=
  mkDqn (cls s) (_gamma s) (_params s) (n_actions s) (_replay_memory s) (_buffer s) x
    (approximator s) (target_approximator s) (_n_updates s) (_episode_steps s)
    (_no_op_actions s) (_n_fitted_target_models s) (np_random s) (calls s).
Definition set_approximator (x : Model) (s : dqn) : dqn :=
  mkDqn (cls s) (_gamma s) (_params s) (n_actions s) (_replay_memory s) (_buffer s)
    (policy s) x (target_approximator s) (_n_updates s) (_episode_steps s)
    (_no_op_actions s) (_n_fitted_target_models s) (np_random s) (calls s).
Definition set_target_approximator (x : target_model Model) (s : dqn) : dqn :=
  mkDqn (cls s) (_gamma s) (_params s) (n_actions s) (_replay_memory s) (_buffer s)
    (policy s) (approximator s) x (_n_updates s) (_episode_steps s)
    (_no_op_actions s) (_n_fitted_target_models s) (np_random s) (calls s).
Definition set_n_updates (x : Z) (s : dqn) : dqn :=
  mkDqn (cls s) (_gamma s) (_params s) (n_actions s) (_replay_memory s) (_buffer s)
    (policy s) (approximator s) (target_approximator s) x (_episode_steps s)
    (_no_op_actions s) (_n_fitted_target_models s) (np_random s) (calls s).
Definition set_episode_steps (x : Z) (s : dqn) : dqn :=
  mkDqn (cls s) (_gamma s) (_params s) (n_actions s) (_replay_memory s) (_buffer s)
    (policy s) (approximator s) (target_approximator s) (_n_updates s) x
    (_no_op_actions s) (_n_fitted_target_models s) (np_random s) (calls s).
Definition set_no_op_actions (x : option Z) (s : dqn) : dqn :=
  mkDqn (cls s) (_gamma s) (_params s) (n_actions s) (_replay_memory s) (_buffer s)
    (policy s) (approximator s) (target_approximator s) (_n_updates s)
    (_episode_steps s) x (_n_fitted_target_models s) (np_random s) (calls s).
Definition set_n_fitted_target_models (x : Z) (s : dqn) : dqn :=
  mkDqn (cls s) (_gamma s) (_params s) (n_actions s) (_replay_memory s) (_buffer s)
    (policy s) (approximator s) (target_approximator s) (_n_updates s)
    (_episode_steps s) (_no_op_actions s) x (np_random s) (calls s).
Definition set_np_random (x : Rng) (s : dqn) : dqn :=
  mkDqn (cls s) (_gamma s) (_params s) (n_actions s) (_replay_memory s) (_buffer s)
    (policy s) (approximator s) (target_approximator s) (_n_updates s)
    (_episode_steps s) (_no_op_actions s) (_n_fitted_target_models s) x (calls s).
Definition log (c : call) (s : dqn) : dqn :=
  mkDqn (cls s) (_gamma s) (_params s) (n_actions s) (_replay_memory s) (_buffer s)
    (policy s) (approximator s) (target_approximator s) (_n_updates s)
    (_episode_steps s) (_no_op_actions s) (_n_fitted_target_models s) (np_random s)
    (calls s ++ [c]).

(** ** The monad of methods: state, with exceptions that keep the state *)

Definition M (A : Type) : Type := dqn -> res A * dqn.

Definition ret {A : Type} (a : A) : M A := fun s => (Ok a, s).
Definition raise {A : Type} (e : exn) : M A := fun s => (Raise e, s).
Definition bind {A B : Type} (m : M A) (k : A -> M B) : M B :=
  fun s => match m s with
           | (Ok a, s') => k a s'
           | (Raise e, s') => (Raise e, s')
           end.
Definition gets {A : Type} (f : dqn -> A) : M A := fun s => (Ok (f s), s).
Definition modify (f : dqn -> dqn) : M unit := fun s => (Ok tt, f s).
Definition lift {A : Type} (r : res A) : M A := fun s => (r, s).
Definition py_assert (b : bool) : M unit :=
  if b then ret tt else raise AssertionError.

Fixpoint mapM {A B : Type} (f : A -> M B) (l : list A) : M (list B) :=
  match l with
  | [] => ret []
  | x :: r => bind (f x) (fun y => bind (mapM f r) (fun ys => ret (y :: ys)))
  end.

End DQN.

Declare Scope dqn_scope.
Delimit Scope dqn_scope with dqn.
Notation "x <- m ;; k" := (bind m (fun x => k))
  (at level 61, m at next level, right associativity) : dqn_scope.
Notation "m ;; k" := (bind m (fun _ => k))
  (at level 61, right associativity) : dqn_scope.

Local Open Scope dqn_scope.

Section Methods.
Context {C : Collaborators}.

(** ** Calls to the collaborators

    Each one appends itself to the log before it runs, so a call that
    raises is logged too. *)

Definition replay_memory_add (dataset : Dataset) : M unit :=
  modify (log (ReplayAdd dataset)) ;;
  rm <- gets _replay_memory ;;
  rm' <- lift (rm_add rm dataset) ;;
  modify (set_replay_memory rm').

Definition replay_memory_get (n : Z) : M (minibatch State Action) :=
  modify (log (ReplayGet n)) ;;
  rm <- gets _replay_memory ;;
  g <- gets np_random ;;
  modify (set_np_random (snd (rm_get rm n g))) ;;
  lift (fst (rm_get rm n g)).

Definition buffer_add (f : Frame) : M unit :=
  modify (log (BufferAdd f)) ;;
  b <- gets _buffer ;;
  modify (set_buffer (Buffer_add b f)).

Definition buffer_get : M State :=
  modify (log BufferGet) ;;
  b <- gets _buffer ;;
  lift (Buffer_get b).

Definition policy_do_update : M unit :=
  modify (log PolicyUpdate) ;;
  p <- gets policy ;;
  modify (set_policy (policy_update p)).

(** [super(DQN, self).draw_action(extended_state)]: [Agent.draw_action],
    which hands the state to the policy bound to the train approximator. *)
Definition Agent_draw_action (s : State) : M Action :=
  modify (log (PolicyDrawAction s)) ;;
  p <- gets policy ;;
  m <- gets approximator ;;
  g <- gets np_random ;;
  let '(r, p', g') := agent_draw_action p m s g in
  modify (set_policy p') ;;
  modify (set_np_random g') ;;
  lift r.

(** The array of shape (B, A) a model predicts for a batch of states. *)
Definition predict_batch (n : nat) (q : State -> nat -> Qc) (ss : list State) : matrix :=
  map (fun s => map (q s) (seq 0 n)) ss.

(** [self.approximator.predict(next_state)]. *)
Definition approximator_predict (ss : list State) : M matrix :=
  modify (log (TrainPredict ss)) ;;
  m <- gets approximator ;;
  n <- gets n_actions ;;
  ret (predict_batch n (predict m) ss).

(** [self.approximator.fit(state, action, q, **fit_params)]. *)
Definition approximator_fit (ss : list State) (acts : list Action) (y : list Qc) : M unit :=
  modify (log (TrainFit ss acts y)) ;;
  m <- gets approximator ;;
  modify (set_approximator (model_fit m ss acts y)).

(** The value function of the whole target regressor. *)
Definition target_q (t : target_model Model) : State -> nat -> Qc :=
  match t with
  | Single m => predict m
  | Ensemble ms => ens_predict ms
  end.

(** [self.target_approximator.predict(next_state)]. *)
Definition target_predict (ss : list State) : M matrix :=
  modify (log (TargetPredict None ss)) ;;
  t <- gets target_approximator ;;
  n <- gets n_actions ;;
  ret (predict_batch n (target_q t) ss).

(** [self.target_approximator.predict(next_state, max_a)]: the value of
    action [max_a[i]] in state [next_state[i]]. *)
Definition target_predict_at (ss : list State) (acts : list nat) : M (list Qc) :=
  modify (log (TargetPredictAt ss acts)) ;;
  t <- gets target_approximator ;;
  ret (map (fun p => target_q t (fst p) (snd p)) (combine ss acts)).

(** [model[idx]] on the target regressor's model. *)
Definition target_slot (t : target_model Model) (idx : Z) : res (nat * Model) :=
  match t with
  | Single _ => Raise TypeError
  | Ensemble ms =>
      match py_pos ms idx with
      | Some i => match nth_error ms i with
                  | Some m => Ok (i, m)
                  | None => Raise IndexError
                  end
      | None => Raise IndexError
      end
  end.

(** [self.target_approximator.predict(next_state, idx=idx)]. *)
Definition target_predict_idx (ss : list State) (idx : Z) : M matrix :=
  modify (log (TargetPredict (Some idx) ss)) ;;
  t <- gets target_approximator ;;
  n <- gets n_actions ;;
  im <- lift (target_slot t idx) ;;
  ret (predict_batch n (predict (snd im)) ss).

(** [self.target_approximator.model.set_weights(
       self.approximator.model.get_weights())]. *)
Definition target_set_weights : M unit :=
  m <- gets approximator ;;
  let w := get_weights m in
  modify (log (TargetSetWeights None w)) ;;
  t <- gets target_approximator ;;
  match t with
  | Single tm => modify (set_target_approximator (Single (set_weights tm w)))
  | Ensemble ms =>
      ms' <- lift (ens_set_weights ms w) ;;
      modify (set_target_approximator (Ensemble ms'))
  end.

(** [self.target_approximator.model[idx].set_weights(
       self.approximator.model.get_weights())]. *)
Definition target_set_weights_idx (idx : Z) : M unit :=
  t <- gets target_approximator ;;
  im <- lift (target_slot t idx) ;;
  m <- gets approximator ;;
  let w := get_weights m in
  modify (log (TargetSetWeights (Some idx) w)) ;;
  match t with
  | Single _ => raise TypeError
  | Ensemble ms =>
      modify (set_target_approximator
                (Ensemble (list_set ms (fst im) (set_weights (snd im) w))))
  end.

(** The bounds [_randint_type['int64']] of numpy's default integer type
    (C long on a 64-bit platform): [low] may not be below the first,
    [high] may not be above the second. *)
Definition int64_lowbnd : Z := - 2 ^ 63.
Definition int64_highbnd : Z := 2 ^ 63.

(** [np.random.randint(low, high)]: numpy raises [ValueError] when [low]
    or [high] is out of the bounds of the integer type and when
    [low >= high]; otherwise the random source delivers the integer and
    moves on. *)
Definition np_random_randint (low high : Z) : M Z :=
  modify (log (RandInt low high)) ;;
  if low <? int64_lowbnd then raise ValueError
  else if int64_highbnd <? high then raise ValueError
  else if high <=? low then raise ValueError
  else
    g <- gets np_random ;;
    modify (set_np_random (snd (rng_randint g low high))) ;;
    ret (fst (rng_randint g low high)).

(** ** [_next_q] *)

(** [if np.any(absorbing): q *= 1 - absorbing.reshape(-1, 1)]. *)
Definition mask_rows (q : matrix) (absorbing : list bool) : M matrix :=
  if np_any absorbing then lift (imul_rows q (map one_minus absorbing))
  else ret q.

(** [if np.any(absorbing): W *= 1 - absorbing]. *)
Definition mask_vec (w : list Qc) (absorbing : list bool) : M (list Qc) :=
  if np_any absorbing then lift (imul_vec w (map one_minus absorbing))
  else ret w.

Definition DQN_next_q (next_state : list State) (absorbing : list bool) : M (list Qc) :=
  q <- target_predict next_state ;;
  q <- mask_rows q absorbing ;;
  n <- gets n_actions ;;
  lift (np_max_axis1 n q).

Definition DoubleDQN_next_q (next_state : list State) (absorbing : list bool) : M (list Qc) :=
  q <- approximator_predict next_state ;;
  q <- mask_rows q absorbing ;;
  n <- gets n_actions ;;
  max_a <- lift (np_argmax_axis1 n q) ;;
  target_predict_at next_state max_a.

Definition AveragedDQN_next_q (next_state : list State) (absorbing : list bool) : M (list Qc) :=
  k <- gets _n_fitted_target_models ;;
  q <- mapM (target_predict_idx next_state) (xrange k) ;;
  n <- gets n_actions ;;
  let q := np_mean_stack (length next_state) n q in
  q <- mask_rows q absorbing ;;
  lift (np_max_axis1 n q).

(** The body of the loop over the samples of [WeightedDQN._next_q]. *)
Definition weighted_value (n : nat) (k : Z) (samples : list matrix) (i : nat) : res Qc :=
  let means := np_mean_axis0 n (slice_sample samples i) in
  match np_argmax_axis1 n (slice_sample samples i) with
  | Raise e => Raise e
  | Ok max_idx =>
      let count := np_counts n max_idx in
      let w := map (fun c => (c / of_Z k)%Qc) count in
      Ok (np_dot w means)
  end.

Definition WeightedDQN_next_q (next_state : list State) (absorbing : list bool) : M (list Qc) :=
  k <- gets _n_fitted_target_models ;;
  n <- gets n_actions ;;
  samples <- mapM (target_predict_idx next_state) (xrange k) ;;
  W <- mapM (fun i => lift (weighted_value n k samples i))
            (seq 0 (length next_state)) ;;
  mask_vec W absorbing.

Definition _next_q (next_state : list State) (absorbing : list bool) : M (list Qc) :=
  c <- gets cls ;;
  match c with
  | DQN => DQN_next_q next_state absorbing
  | DoubleDQN => DoubleDQN_next_q next_state absorbing
  | AveragedDQN => AveragedDQN_next_q next_state absorbing
  | WeightedDQN => WeightedDQN_next_q next_state absorbing
  end.

(** ** [_update_target] *)

Definition DQN_update_target : M unit :=
  n <- gets _n_updates ;;
  f <- gets (fun s => target_update_frequency (_params s)) ;;
  r <- lift (py_mod n f) ;;
  if r =? 0 then target_set_weights else ret tt.

Definition AveragedDQN_update_target : M unit :=
  n <- gets _n_updates ;;
  f <- gets (fun s => target_update_frequency (_params s)) ;;
  r <- lift (py_mod n f) ;;
  if r =? 0 then
    d <- lift (py_div n f) ;;
    na <- gets (fun s => n_approximators (_params s)) ;;
    idx <- lift (py_mod d na) ;;
    target_set_weights_idx idx ;;
    k <- gets _n_fitted_target_models ;;
    if k <? na then modify (set_n_fitted_target_models (k + 1)) else ret tt
  else ret tt.

Definition _update_target : M unit :=
  c <- gets cls ;;
  match c with
  | DQN | DoubleDQN => DQN_update_target
  | AveragedDQN | WeightedDQN => AveragedDQN_update_target
  end.

(** ** [fit], [draw_action], [episode_start] *)

Definition fit (dataset : Dataset) (n_iterations : Z) : M unit :=
  replay_memory_add dataset ;;
  if n_iterations =? 0 then ret tt
  else
    py_assert (n_iterations =? 1) ;;
    bs <- gets (fun s => batch_size (_params s)) ;;
    b <- replay_memory_get bs ;;
    clip <- gets (fun s => clip_reward (_params s)) ;;
    let reward := if clip then np_clip (mb_reward b) (of_Z (-1)) (of_Z 1)
                  else mb_reward b in
    q_next <- _next_q (mb_next_state b) (mb_absorbing b) ;;
    gamma <- gets _gamma ;;
    q <- lift (broadcast2 Qcplus reward (map (Qcmult gamma) q_next)) ;;
    approximator_fit (mb_state b) (mb_action b) q ;;
    n <- gets _n_updates ;;
    modify (set_n_updates (n + 1)) ;;
    _update_target.

(** [self._episode_steps < self._no_op_actions] in Python 2, where an int
    is never smaller than [None]. *)
Definition py2_lt_opt (a : Z) (b : option Z) : bool :=
  match b with
  | Some b => a <? b
  | None => false
  end.

Definition draw_action (state : Frame) : M Action :=
  buffer_add state ;;
  steps <- gets _episode_steps ;;
  no_op <- gets _no_op_actions ;;
  action <- (if py2_lt_opt steps no_op then
               v <- gets (fun s => no_op_action_value (_params s)) ;;
               policy_do_update ;;
               ret [v]
             else
               extended_state <- buffer_get ;;
               Agent_draw_action extended_state) ;;
  steps <- gets _episode_steps ;;
  modify (set_episode_steps (steps + 1)) ;;
  ret action.

Definition episode_start : M unit :=
  sz <- gets (fun s => size (_buffer s)) ;;
  m <- gets (fun s => max_no_op_actions (_params s)) ;;
  n <- np_random_randint sz (m + 1) ;;
  modify (set_no_op_actions (Some n)) ;;
  modify (set_episode_steps 0).

(** ** [__init__] *)

(** The loop [for i in xrange(n): model[i].set_weights(w)] of
    [DQN.__init__]. *)
Fixpoint init_slots (t : target_model Model) (w : Weights) (idxs : list Z)
    : res (target_model Model) :=
  match idxs with
  | [] => Ok t
  | i :: r =>
      match target_slot t i with
      | Raise e => Raise e
      | Ok im =>
          match t with
          | Single _ => Raise TypeError
          | Ensemble ms =>
              init_slots (Ensemble (list_set ms (fst im) (set_weights (snd im) w))) w r
          end
      end
  end.

Definition is_ensemble (t : target_model Model) : bool :=
  match t with
  | Single _ => false
  | Ensemble _ => true
  end.

(** [cls(approximator, policy, gamma, params)]: the new instance, or the
    exception its constructor raises. [nact] is the number of actions of
    the MDP the agent is later initialised with. *)
Definition init (c : variant) (pol : Policy) (gamma : Qc) (p : alg_params)
    (nact : nat) (g : Rng) : res dqn :=
  let train := regressor_train in
  let target := regressor_target (n_approximators p) in
  let w := get_weights train in
  let synced :=
    if n_approximators p =? 1 then
      match target with
      | Single tm => Ok (Single (set_weights tm w))
      | Ensemble ms =>
          match ens_set_weights ms w with
          | Ok ms' => Ok (Ensemble ms')
          | Raise e => Raise e
          end
      end
    else init_slots target w (xrange (n_approximators p)) in
  match synced with
  | Raise e => Raise e
  | Ok t =>
      let s := mkDqn c gamma p nact
                 (rm_new (max_replay_size p) (history_length p))
                 (Buffer_new (history_length p)) pol train t
                 0 0 None
                 (match c with AveragedDQN | WeightedDQN => 1 | _ => 0 end)
                 g [] in
      match c with
      | DQN | DoubleDQN => Ok s
      | AveragedDQN | WeightedDQN =>
          if is_ensemble t then Ok s else Raise AssertionError
      end
  end.

End Methods.

(** ** Observations on the call log *)

Section Log.
Context {C : Collaborators}.

(** The calls made between state [s] and the later state [s']. *)
Definition new_calls (s s' : dqn) : list call :=
  skipn (length (calls s)) (calls s').

(** A write to the target regressor: [Some None] for a copy into the
    whole model, [Some (Some i)] for a copy into slot [i] alone. *)
Definition sync_of (c : call) : option (option Z) :=
  match c with
  | TargetSetWeights slot _ => Some slot
  | _ => None
  end.

Fixpoint sync_log (cs : list call) : list (option Z) :=
  match cs with
  | [] => []
  | c :: r => match sync_of c with
              | Some slot => slot :: sync_log r
              | None => sync_log r
              end
  end.

(** Whether a target sync happened between [s] and [s']. *)
Definition synced (s s' : dqn) : bool :=
  negb (Nat.eqb (length (sync_log (new_calls s s'))) 0).

(** The state after a sequence of [fit] calls, whatever each call's
    outcome (a caller may catch what a call raises and go on). *)
Fixpoint fits (l : list (Dataset * Z)) (s : dqn) : dqn :=
  match l with
  | [] => s
  | (d, n) :: r => fits r (snd (fit d n s))
  end.

(** A call of one of the public methods. *)
Inductive method : Type :=
| CallFit (d : Dataset) (n : Z)
| CallDrawAction (f : Frame)
| CallEpisodeStart.

Definition run_method (m : method) (s : dqn) : dqn :=
  match m with
  | CallFit d n => snd (fit d n s)
  | CallDrawAction f => snd (draw_action f s)
  | CallEpisodeStart => snd (episode_start s)
  end.

Definition run_methods (l : list method) (s : dqn) : dqn :=
  fold_left (fun s m => run_method m s) l s.

End Log.

(** ** A small concrete world

    Frames are integers; a model is its vector of action values, the same
    in every state; fitting a model adds one to each of its values; the
    replay memory keeps what was added and hands back its oldest entries;
    the random source counts up. *)
Module Toy.

Definition batch : Type := minibatch (list Z) Action.

Definition batch_app (a b : batch) : batch :=
  Minibatch (mb_state a ++ mb_state b) (mb_action a ++ mb_action b)
            (mb_reward a ++ mb_reward b) (mb_next_state a ++ mb_next_state b)
            (mb_absorbing a ++ mb_absorbing b).

Definition batch_firstn (n : nat) (a : batch) : batch :=
  Minibatch (firstn n (mb_state a)) (firstn n (mb_action a))
            (firstn n (mb_reward a)) (firstn n (mb_next_state a))
            (firstn n (mb_absorbing a)).

Definition get (rm : batch) (n : Z) (g : Z) : res batch * Z :=
  if (0 <=? n) && (n <=? Z.of_nat (length (mb_state rm)))
  then (Ok (batch_firstn (Z.to_nat n) rm), g)
  else (Raise InvalidState, g).

Definition q0 : list Qc := [of_Z 5; of_Z 3].

Definition world : Collaborators := {|
  Frame := Z;
  Dataset := batch;
  Model := list Qc;
  Weights := list Qc;
  Policy := nat;
  ReplayMemory := batch;
  Rng := Z;
  rm_new := fun _ _ => Minibatch [] [] [] [] [];
  rm_add := fun rm d => Ok (batch_app rm d);
  rm_get := get;
  regressor_train := q0;
  regressor_target := fun n =>
    if n =? 1 then Single [0%Qc; 0%Qc]
    else Ensemble (repeat [0%Qc; 0%Qc] (Z.to_nat n));
  predict := fun m _ a => nth a m 0%Qc;
  model_fit := fun m _ _ _ => map (Qcplus 1%Qc) m;
  get_weights := fun m => m;
  set_weights := fun _ w => w;
  ens_predict := fun ms _ a => nth a (hd [] ms) 0%Qc;
  ens_set_weights := fun ms w => Ok (map (fun _ => w) ms);
  policy_update := S;
  agent_draw_action := fun p m _ g => (Ok [Z.of_nat (row_argmax m)], p, g);
  rng_randint := fun g low high => (low + g mod (high - low), g + 1);
  rng_randint_range := fun g low high _ Hlt _ =>
    ltac:(cbn [fst]; pose proof (Z.mod_pos_bound g (high - low)); lia)
|}.

(** One transition: state [[s]], action [[a]], reward [r], next state
    [[s']], absorbing flag [ab]. *)
Definition transition (s a : Z) (r : Qc) (s' : Z) (ab : bool) : batch :=
  Minibatch [[s]] [[a]] [r] [[s']] [ab].

Definition params (n_appr freq max_no_op hist : Z) : alg_params :=
  AlgParams 1 n_appr true freq max_no_op 0 100 hist.

(** The attributes before [__init__] has run. *)
Definition blank (c : variant) (p : alg_params) : @dqn world :=
  @mkDqn world c 0%Qc p O (Minibatch [] [] [] [] []) (@Buffer_new world 0) O []
    (Single []) 0 0 None 0 0 [].

(** The instance [c(approximator, policy, gamma = 1, params)] for an MDP
    with two actions. *)
Definition construct (c : variant) (p : alg_params) : res (@dqn world) :=
  @init world c O (of_Z 1) p 2%nat 0.

Definition start (c : variant) (p : alg_params) : @dqn world :=
  match construct c p with
  | Ok s => s
  | Raise _ => blank c p
  end.

(** A single agent synchronising every second update; an ensemble of
    three synchronising at every update; the default no-op settings. *)
Definition p_single : alg_params := params 1 2 3 1.
Definition p_ensemble : alg_params := params 3 1 3 1.
Definition p_default : alg_params := params 1 2 0 1.

(** A transition into an absorbing state and one into a live state. *)
Definition d_absorbing : batch := transition 1 0 (of_Z 3) 2 true.
Definition d_live : batch := transition 1 1 (of_Z 3) 2 false.

(** Three slots that hold different values. *)
Definition slots : list (list Qc) :=
  [[of_Z 5; of_Z 3]; [of_Z 1; of_Z 4]; [of_Z 9; of_Z 9]].

(** An ensemble agent of class [c] over these slots, two of them fitted. *)
Definition spread (c : variant) : @dqn world :=
  @set_n_fitted_target_models world 2
    (@set_target_approximator world (Ensemble slots) (start c p_ensemble)).

End Toy.

(** ** Definitions used to state and prove the properties *)

Section Aux.
Context {C : Collaborators}.

(** A relation between the state before and after a computation that
    holds whatever the outcome. *)
Definition preserves {A : Type} (R : dqn -> dqn -> Prop) (m : M A) : Prop :=
  forall s, R s (snd (m s)).

(** [frame s s']: from [s] to [s'] nothing the target-update schedule
    depends on has changed, and no write to the target regressor was
    logged. Everything the methods do other than the writes to the target,
    [self._n_updates += 1] and [self._n_fitted_target_models += 1] stays
    inside this relation. *)
Record frame (s s' : dqn) : Prop := mkFrame {
  frame_cls : cls s' = cls s;
  frame_params : _params s' = _params s;
  frame_n_actions : n_actions s' = n_actions s;
  frame_gamma : _gamma s' = _gamma s;
  frame_target : target_approximator s' = target_approximator s;
  frame_n_updates : _n_updates s' = _n_updates s;
  frame_n_fitted : _n_fitted_target_models s' = _n_fitted_target_models s;
  frame_size : size (_buffer s') = size (_buffer s);
  frame_calls : exists l, calls s' = calls s ++ l /\ sync_log l = []
}.

(** [fit], up to and including the fit of the train approximator. *)
Definition fit_head (dataset : Dataset) (n_iterations : Z) : M unit :=
  py_assert (n_iterations =? 1) ;;
  bs <- gets (fun s => batch_size (_params s)) ;;
  b <- replay_memory_get bs ;;
  clip <- gets (fun s => clip_reward (_params s)) ;;
  let reward := if clip then np_clip (mb_reward b) (of_Z (-1)) (of_Z 1)
                else mb_reward b in
  q_next <- _next_q (mb_next_state b) (mb_absorbing b) ;;
  gamma <- gets _gamma ;;
  q <- lift (broadcast2 Qcplus reward (map (Qcmult gamma) q_next)) ;;
  approximator_fit (mb_state b) (mb_action b) q.

(** The state after a full copy of the train weights into a single-model
    target. *)
Definition full_sync (tm : Model) (s : dqn) : dqn :=
  let w := get_weights (approximator s) in
  set_target_approximator (Single (set_weights tm w))
    (log (TargetSetWeights None w) s).

(** The state after [AveragedDQN._update_target] has written slot [idx]:
    position [i] of the ensemble [ms], which held model [m]. *)
Definition slot_sync (idx : Z) (ms : list Model) (i : nat) (m : Model) (s : dqn) : dqn :=
  let w := get_weights (approximator s) in
  let s1 := set_target_approximator (Ensemble (list_set ms i (set_weights m w)))
              (log (TargetSetWeights (Some idx) w) s) in
  if _n_fitted_target_models s <? n_approximators (_params s)
  then set_n_fitted_target_models (_n_fitted_target_models s + 1) s1
  else s1.

(** The integers [1, 2, ..., n]. *)
Definition upto (n : Z) : list Z := map Z.of_nat (seq 1 (Z.to_nat n)).

(** The classes with the round-robin target update. *)
Definition averaged (c : variant) : bool :=
  match c with
  | AveragedDQN | WeightedDQN => true
  | DQN | DoubleDQN => false
  end.

(** The round-robin schedule as an invariant of an averaging agent: the
    target is an ensemble of [n_approximators] models, and the writes to
    the target logged so far are, in order, the single-slot writes to
    slots [k mod n_approximators] for [k = 1, ..., n_updates / f]. *)
Record schedule_inv (s : dqn) : Prop := mkScheduleInv {
  sch_cls : averaged (cls s) = true;
  sch_freq : 0 < target_update_frequency (_params s);
  sch_napp : 0 < n_approximators (_params s);
  sch_target : exists ms, target_approximator s = Ensemble ms /\
                 Z.of_nat (length ms) = n_approximators (_params s);
  sch_n_updates : 0 <= _n_updates s;
  sch_log : sync_log (calls s) =
            map (fun k => Some (k mod n_approximators (_params s)))
                (upto (_n_updates s / target_update_frequency (_params s)))
}.

(** *** The values [_next_q] is meant to return, written directly *)

(** The action values [q] of one state, each multiplied by [1 - absorbing]. *)
Definition masked_row (n : nat) (q : nat -> Qc) (ab : bool) : list Qc :=
  map (fun a => (one_minus ab * q a)%Qc) (seq 0 n).

(** The masked action values of a batch. *)
Definition masked_batch (n : nat) (q : State -> nat -> Qc)
    (ns : list State) (ab : list bool) : matrix :=
  map (fun p => masked_row n (q (fst p)) (snd p)) (combine ns ab).

(** Per sample: the maximum over the actions of the masked values. *)
Definition max_values (n : nat) (q : State -> nat -> Qc)
    (ns : list State) (ab : list bool) : list Qc :=
  map (fun p => row_max (masked_row n (q (fst p)) (snd p))) (combine ns ab).

(** The mean over the models [slots] of their value of action [a] in
    state [s]. *)
Definition avg_q (slots : list Model) (s : State) (a : nat) : Qc :=
  (Qcsum (map (fun m => predict m s a) slots) / of_Z (Z.of_nat (length slots)))%Qc.

(** The action each of the models [slots] prefers in state [s]. *)
Definition slot_argmax (n : nat) (slots : list Model) (s : State) : list nat :=
  map (fun m => row_argmax (map (predict m s) (seq 0 n))) slots.

(** [w[a]]: the share of the models of [slots] that prefer action [a]. *)
Definition weight (n : nat) (slots : list Model) (s : State) (a : nat) : Qc :=
  (of_Z (Z.of_nat (count_occ Nat.eq_dec (slot_argmax n slots s) a))
   / of_Z (Z.of_nat (length slots)))%Qc.

(** The dot product of the weights with the mean action values. *)
Definition weighted_q (n : nat) (slots : list Model) (s : State) : Qc :=
  Qcsum (map (fun a => (weight n slots s a * avg_q slots s a)%Qc) (seq 0 n)).

(** Per sample: the weighted value times [1 - absorbing]. *)
Definition weighted_values (n : nat) (slots : list Model)
    (ns : list State) (ab : list bool) : list Qc :=
  map (fun p => (weighted_q n slots (fst p) * one_minus (snd p))%Qc) (combine ns ab).

(** The calls [predict(next_state, idx=i)] for [i] in [xrange(k)]. *)
Definition slot_predictions (k : Z) (ns : list State) : list call :=
  map (fun i => TargetPredict (Some i) ns) (xrange k).

(** The state after the calls [cs] have been logged. *)
Definition log_all (cs : list call) (s : dqn) : dqn :=
  fold_left (fun s c => log c s) cs s.


End Aux.

(** ** Further observations on the methods *)

Section Observations.
Context {C : Collaborators}.

(** [keeps_episode s s']: the acting side of the agent (frame buffer,
    policy, episode counters) is the same in [s'] as in [s]. *)
Record keeps_episode (s s' : dqn) : Prop := mkKeepsEpisode {
  ke_buffer : _buffer s' = _buffer s;
  ke_policy : policy s' = policy s;
  ke_steps : _episode_steps s' = _episode_steps s;
  ke_no_op : _no_op_actions s' = _no_op_actions s
}.

(** [keeps_learning s s']: the learning side of the agent (replay memory,
    both regressors, update counters) is the same in [s'] as in [s]. *)
Record keeps_learning (s s' : dqn) : Prop := mkKeepsLearning {
  kl_replay : _replay_memory s' = _replay_memory s;
  kl_train : approximator s' = approximator s;
  kl_target : target_approximator s' = target_approximator s;
  kl_updates : _n_updates s' = _n_updates s;
  kl_fitted : _n_fitted_target_models s' = _n_fitted_target_models s
}.

(** How many calls of [self.approximator.fit] a log holds. *)
Fixpoint train_fits (cs : list call) : nat :=
  match cs with
  | [] => O
  | TrainFit _ _ _ :: r => S (train_fits r)
  | _ :: r => train_fits r
  end.

(** [quiet s s']: between [s] and [s'] the train approximator was not
    fitted and [n_updates] did not move. *)
Record quiet (s s' : dqn) : Prop := mkQuiet {
  qu_updates : _n_updates s' = _n_updates s;
  qu_calls : exists l, calls s' = calls s ++ l /\ train_fits l = O
}.

(** Successive calls [draw_action(f)] for the frames of [fs]: what each
    call returned or raised, and the final state. *)
Fixpoint draw_actions (fs : list Frame) (s : dqn) : list (res Action) * dqn :=
  match fs with
  | [] => ([], s)
  | f :: r =>
      let (a, s1) := draw_action f s in
      let (rest, s2) := draw_actions r s1 in
      (a :: rest, s2)
  end.

(** The frame buffer after the frames [fs] were pushed, oldest first. *)
Definition Buffer_add_all (b : Buffer) (fs : list Frame) : Buffer :=
  fold_left Buffer_add fs b.

(** The frame buffer holds at most [size] frames. *)
Definition buffer_ok (b : Buffer) : Prop :=
  0 <= size b /\ Z.of_nat (length (frames b)) <= size b.

(** Whether a sequence of calls holds no [episode_start]. *)
Definition no_episode_start (l : list method) : bool :=
  forallb (fun m => match m with CallEpisodeStart => false | _ => true end) l.

End Observations.

(** * Properties *)

(** ** Arithmetic on [Qc] used below *)

Lemma Qcleb_refl (x : Qc) : Qcleb x x = true.
Proof. unfold Qcleb. apply Qle_bool_iff. apply Qle_refl. Qed.

Lemma Qcltb_irrefl (x : Qc) : Qcltb x x = false.
Proof. unfold Qcltb. now rewrite Qcleb_refl. Qed.

Lemma Qcmax_idem (x : Qc) : Qcmax x x = x.
Proof. unfold Qcmax. now rewrite Qcltb_irrefl. Qed.

Lemma one_minus_true_l (x : Qc) : (one_minus true * x)%Qc = 0%Qc.
Proof. simpl. ring. Qed.

Lemma one_minus_false_l (x : Qc) : (one_minus false * x)%Qc = x.
Proof. simpl. ring. Qed.

Lemma fold_left_Qcmax_zeros (l : list Qc) :
  Forall (fun x => x = 0%Qc) l -> fold_left Qcmax l 0%Qc = 0%Qc.
Proof.
  induction 1 as [|x l Hx _ IH]; simpl; [reflexivity|].
  subst x. now rewrite Qcmax_idem.
Qed.

(** The maximum of a row of zeros is zero. *)
Lemma row_max_zeros (l : list Qc) :
  Forall (fun x => x = 0%Qc) l -> row_max l = 0%Qc.
Proof.
  destruct 1 as [|x l Hx Hl]; simpl; [reflexivity|].
  subst x. now apply fold_left_Qcmax_zeros.
Qed.

Lemma np_any_false (bs : list bool) :
  np_any bs = false -> Forall (fun b => b = false) bs.
Proof.
  induction bs as [|b bs IH]; simpl; intros H; constructor.
  - now destruct b.
  - apply IH. now destruct b.
Qed.

Lemma broadcast_to_same {A : Type} (n : nat) (l : list A) :
  length l = n -> broadcast_to n l = Ok l.
Proof. intros H. unfold broadcast_to. now rewrite H, Nat.eqb_refl. Qed.

Lemma broadcast2_same {A B D : Type} (f : A -> B -> D) (xs : list A) (ys : list B) :
  length xs = length ys ->
  broadcast2 f xs ys = Ok (map (fun p => f (fst p) (snd p)) (combine xs ys)).
Proof. intros H. unfold broadcast2. now rewrite H, Nat.eqb_refl. Qed.

Section Properties.
Context {C : Collaborators}.

(** ** Running monadic code *)

Lemma bind_ok {A B : Type} (m : M A) (k : A -> M B) (s s' : dqn) (a : A) :
  m s = (Ok a, s') -> bind m k s = k a s'.
Proof. intros H. unfold bind. now rewrite H. Qed.

Lemma bind_raise {A B : Type} (m : M A) (k : A -> M B) (s s' : dqn) (e : exn) :
  m s = (Raise e, s') -> bind m k s = (Raise e, s').
Proof. intros H. unfold bind. now rewrite H. Qed.



Section Preserves.
Variable R : dqn -> dqn -> Prop.
Hypothesis R_refl : forall s, R s s.
Hypothesis R_trans : forall s1 s2 s3, R s1 s2 -> R s2 s3 -> R s1 s3.

Lemma preserves_ret {A : Type} (a : A) : preserves R (ret a).
Proof. intros s. apply R_refl. Qed.

Lemma preserves_raise {A : Type} (e : exn) : preserves R (@raise _ A e).
Proof. intros s. apply R_refl. Qed.

Lemma preserves_lift {A : Type} (r : res A) : preserves R (lift r).
Proof. intros s. apply R_refl. Qed.

Lemma preserves_gets {A : Type} (f : dqn -> A) : preserves R (gets f).
Proof. intros s. apply R_refl. Qed.

Lemma preserves_assert (b : bool) : preserves R (py_assert b).
Proof. intros s. destruct b; apply R_refl. Qed.

Lemma preserves_modify (f : dqn -> dqn) :
  (forall s, R s (f s)) -> preserves R (modify f).
Proof. intros H s. apply H. Qed.

Lemma preserves_bind {A B : Type} (m : M A) (k : A -> M B) :
  preserves R m -> (forall a, preserves R (k a)) -> preserves R (bind m k).
Proof.
  intros Hm Hk s. unfold bind.
  specialize (Hm s). destruct (m s) as [[a|e] s1]; simpl in *.
  - eapply R_trans; [exact Hm | apply Hk].
  - exact Hm.
Qed.

Lemma preserves_mapM {A B : Type} (f : A -> M B) (l : list A) :
  (forall a, preserves R (f a)) -> preserves R (mapM f l).
Proof.
  intros Hf. induction l as [|x l IH]; simpl.
  - apply preserves_ret.
  - apply preserves_bind; [apply Hf|]. intros y.
    apply preserves_bind; [exact IH|]. intros ys. apply preserves_ret.
Qed.

End Preserves.
Lemma run_replay_memory_add (d : Dataset) (s : dqn) (rm' : ReplayMemory) :
  rm_add (_replay_memory s) d = Ok rm' ->
  replay_memory_add d s = (Ok tt, set_replay_memory rm' (log (ReplayAdd d) s)).
Proof.
  intros H. unfold replay_memory_add, bind, modify, gets, lift. simpl.
  rewrite H. reflexivity.
Qed.

Lemma run_replay_memory_add_raise (d : Dataset) (s : dqn) (e : exn) :
  rm_add (_replay_memory s) d = Raise e ->
  replay_memory_add d s = (Raise e, log (ReplayAdd d) s).
Proof.
  intros H. unfold replay_memory_add, bind, modify, gets, lift. simpl.
  rewrite H. reflexivity.
Qed.

Lemma fit_zero (d : Dataset) (s : dqn) (rm' : ReplayMemory) :
  rm_add (_replay_memory s) d = Ok rm' ->
  fit d 0 s = (Ok tt, set_replay_memory rm' (log (ReplayAdd d) s)).
Proof.
  intros H. unfold fit.
  rewrite (bind_ok _ _ _ _ _ (run_replay_memory_add d s rm' H)).
  reflexivity.
Qed.

Lemma fit_bad_n (d : Dataset) (n : Z) (s : dqn) (rm' : ReplayMemory) :
  rm_add (_replay_memory s) d = Ok rm' -> n <> 0 -> n <> 1 ->
  fit d n s = (Raise AssertionError, set_replay_memory rm' (log (ReplayAdd d) s)).
Proof.
  intros H H0 H1. unfold fit.
  rewrite (bind_ok _ _ _ _ _ (run_replay_memory_add d s rm' H)).
  destruct (Z.eqb_spec n 0) as [|_]; [contradiction|].
  destruct (Z.eqb_spec n 1) as [|_]; [contradiction|].
  reflexivity.
Qed.

(** ** The frame of the methods *)

Lemma sync_log_app (l1 l2 : list call) :
  sync_log (l1 ++ l2) = sync_log l1 ++ sync_log l2.
Proof.
  induction l1 as [|c l1 IH]; simpl; [reflexivity|].
  destruct (sync_of c); simpl; now rewrite IH.
Qed.



Lemma frame_refl (s : dqn) : frame s s.
Proof.
  constructor; try reflexivity. exists []. now rewrite app_nil_r.
Qed.

Lemma frame_trans (s1 s2 s3 : dqn) : frame s1 s2 -> frame s2 s3 -> frame s1 s3.
Proof.
  intros [a1 a2 a3 a4 a5 a6 a7 a8 (l & a9 & a10)] [b1 b2 b3 b4 b5 b6 b7 b8 (l' & b9 & b10)].
  constructor; try congruence.
  exists (l ++ l'). split.
  - now rewrite b9, a9, app_assoc.
  - now rewrite sync_log_app, a10, b10.
Qed.

Lemma frame_log (c : call) (s : dqn) : sync_of c = None -> frame s (log c s).
Proof.
  intros H. constructor; try reflexivity.
  exists [c]. split; [reflexivity|]. simpl. now rewrite H.
Qed.

Ltac frame_modify :=
  intros ?;
  first [ apply frame_log; reflexivity
        | constructor; try reflexivity; exists [];
          split; [symmetry; apply app_nil_r | reflexivity] ].

Ltac frame_step :=
  match goal with
  | |- preserves frame (bind _ _) =>
      apply (preserves_bind frame frame_trans); [|intros ?]
  | |- preserves frame (ret _) => apply (preserves_ret frame frame_refl)
  | |- preserves frame (raise _) => apply (preserves_raise frame frame_refl)
  | |- preserves frame (lift _) => apply (preserves_lift frame frame_refl)
  | |- preserves frame (gets _) => apply (preserves_gets frame frame_refl)
  | |- preserves frame (py_assert _) => apply (preserves_assert frame frame_refl)
  | |- preserves frame (modify _) => apply preserves_modify; frame_modify
  | |- preserves frame (mapM _ _) =>
      apply (preserves_mapM frame frame_refl frame_trans); intros ?
  | |- preserves frame (if ?b then _ else _) => destruct b
  | |- preserves frame (match ?x with _ => _ end) => destruct x
  end.

Ltac frame_auto := repeat frame_step.

Lemma frame_replay_memory_add d : preserves frame (replay_memory_add d).
Proof. unfold replay_memory_add. frame_auto. Qed.

Lemma frame_replay_memory_get n : preserves frame (replay_memory_get n).
Proof. unfold replay_memory_get. frame_auto. Qed.

Lemma frame_buffer_add f : preserves frame (buffer_add f).
Proof.
  intros s. unfold buffer_add, bind, modify, gets. simpl.
  constructor; try reflexivity. now exists [BufferAdd f].
Qed.

Lemma frame_buffer_get : preserves frame buffer_get.
Proof. unfold buffer_get. frame_auto. Qed.

Lemma frame_policy_do_update : preserves frame policy_do_update.
Proof. unfold policy_do_update. frame_auto. Qed.

Lemma frame_Agent_draw_action s : preserves frame (Agent_draw_action s).
Proof. unfold Agent_draw_action. frame_auto. Qed.

Lemma frame_approximator_predict ss : preserves frame (approximator_predict ss).
Proof. unfold approximator_predict. frame_auto. Qed.

Lemma frame_approximator_fit ss acts y : preserves frame (approximator_fit ss acts y).
Proof. unfold approximator_fit. frame_auto. Qed.

Lemma frame_target_predict ss : preserves frame (target_predict ss).
Proof. unfold target_predict. frame_auto. Qed.

Lemma frame_target_predict_at ss acts : preserves frame (target_predict_at ss acts).
Proof. unfold target_predict_at. frame_auto. Qed.

Lemma frame_target_predict_idx ss idx : preserves frame (target_predict_idx ss idx).
Proof. unfold target_predict_idx. frame_auto. Qed.

Lemma frame_np_random_randint lo hi : preserves frame (np_random_randint lo hi).
Proof. unfold np_random_randint. frame_auto. Qed.

Lemma frame_mask_rows q ab : preserves frame (mask_rows q ab).
Proof. unfold mask_rows. frame_auto. Qed.

Lemma frame_mask_vec w ab : preserves frame (mask_vec w ab).
Proof. unfold mask_vec. frame_auto. Qed.

Lemma frame_next_q ns ab : preserves frame (_next_q ns ab).
Proof.
  unfold _next_q, DQN_next_q, DoubleDQN_next_q, AveragedDQN_next_q,
    WeightedDQN_next_q.
  repeat first [ apply frame_mask_rows | apply frame_mask_vec
               | apply frame_target_predict | apply frame_target_predict_at
               | apply frame_target_predict_idx | apply frame_approximator_predict
               | frame_step ].
Qed.

Lemma frame_draw_action f : preserves frame (draw_action f).
Proof.
  unfold draw_action.
  repeat first [ apply frame_buffer_add | apply frame_buffer_get
               | apply frame_policy_do_update | apply frame_Agent_draw_action
               | frame_step ].
Qed.

Lemma frame_episode_start : preserves frame episode_start.
Proof.
  unfold episode_start.
  repeat first [ apply frame_np_random_randint | frame_step ].
Qed.



Lemma frame_fit_head d n : preserves frame (fit_head d n).
Proof.
  unfold fit_head.
  repeat first [ apply frame_replay_memory_get | apply frame_next_q
               | apply frame_approximator_fit | frame_step ].
Qed.

(** [fit] is: add to the replay memory; stop if [n_iterations] is 0;
    otherwise run the head, count the update and update the target. *)
Lemma fit_unfold (d : Dataset) (n : Z) (s : dqn) :
  fit d n s =
  match replay_memory_add d s with
  | (Raise e, s1) => (Raise e, s1)
  | (Ok _, s1) =>
      if n =? 0 then (Ok tt, s1)
      else match fit_head d n s1 with
           | (Raise e, s2) => (Raise e, s2)
           | (Ok _, s2) => _update_target (set_n_updates (_n_updates s2 + 1) s2)
           end
  end.
Proof.
  unfold fit, fit_head. unfold bind at 1.
  destruct (replay_memory_add d s) as [[[]|e] s1]; [|reflexivity].
  destruct (n =? 0); [reflexivity|].
  unfold bind, gets, modify, lift.
  destruct (py_assert (n =? 1) s1) as [[[]|e] s2]; [|reflexivity].
  destruct (replay_memory_get (batch_size (_params s2)) s2) as [[b|e] s3]; [|reflexivity].
  destruct (_next_q (mb_next_state b) (mb_absorbing b) s3) as [[qn|e] s4]; [|reflexivity].
  destruct (broadcast2 _ _ _) as [q|e]; [|reflexivity].
  destruct (approximator_fit (mb_state b) (mb_action b) q s4) as [[[]|e] s5];
    reflexivity.
Qed.

(** The cases of a [fit] call: either it stays inside the frame (it
    raised before counting the update, or [n_iterations] is 0), or it
    went through a framed head to the counted update and the target
    update. *)
Lemma fit_cases (d : Dataset) (n : Z) (s : dqn) :
  (frame s (snd (fit d n s)) /\ (n = 0 \/ exists e, fst (fit d n s) = Raise e)) \/
  (n = 1 /\ exists s2, frame s s2 /\
     fit d n s = _update_target (set_n_updates (_n_updates s + 1) s2)).
Proof.
  rewrite fit_unfold.
  pose proof (frame_replay_memory_add d s) as H1.
  destruct (replay_memory_add d s) as [[[]|e] s1]; simpl in H1.
  2:{ left. split; [exact H1 | right; now exists e]. }
  destruct (Z.eqb_spec n 0) as [->|Hn0].
  { left. split; [exact H1 | now left]. }
  pose proof (frame_fit_head d n s1) as H2.
  destruct (fit_head d n s1) as [[[]|e] s2] eqn:E; simpl in H2.
  2:{ left. split; [exact (frame_trans _ _ _ H1 H2) | right; now exists e]. }
  right. split.
  - unfold fit_head in E. unfold bind at 1 in E.
    destruct (Z.eqb_spec n 1) as [->|Hn1]; [reflexivity|].
    simpl in E. discriminate.
  - exists s2. split; [exact (frame_trans _ _ _ H1 H2)|].
    now rewrite (frame_n_updates _ _ (frame_trans _ _ _ H1 H2)).
Qed.

(** ** [_update_target] *)

Lemma run_DQN_update_target (s : dqn) (tm : Model) :
  target_update_frequency (_params s) <> 0 ->
  target_approximator s = Single tm ->
  DQN_update_target s =
  (Ok tt, if _n_updates s mod target_update_frequency (_params s) =? 0
          then full_sync tm s else s).
Proof.
  intros Hf Ht.
  unfold DQN_update_target, bind, gets, lift, py_mod. simpl.
  destruct (Z.eqb_spec (target_update_frequency (_params s)) 0); [contradiction|].
  destruct (_ mod _ =? 0); [|reflexivity].
  unfold target_set_weights, bind, gets, modify. simpl. rewrite Ht. reflexivity.
Qed.

Lemma py_pos_in_range {A : Type} (l : list A) (i : Z) :
  0 <= i < Z.of_nat (length l) -> py_pos l i = Some (Z.to_nat i).
Proof.
  intros H. unfold py_pos.
  destruct (Z.leb_spec 0 i); [|lia].
  destruct (Z.ltb_spec i (Z.of_nat (length l))); [reflexivity|lia].
Qed.

Lemma target_slot_in_range (ms : list Model) (idx : Z) :
  0 <= idx < Z.of_nat (length ms) ->
  exists m, nth_error ms (Z.to_nat idx) = Some m /\
            target_slot (Ensemble ms) idx = Ok (Z.to_nat idx, m).
Proof.
  intros H. unfold target_slot. rewrite py_pos_in_range by exact H.
  destruct (nth_error ms (Z.to_nat idx)) as [m|] eqn:E.
  - now exists m.
  - apply nth_error_None in E. lia.
Qed.

Lemma run_target_set_weights_idx (s : dqn) (ms : list Model) (idx : Z) (i : nat) (m : Model) :
  target_approximator s = Ensemble ms ->
  target_slot (Ensemble ms) idx = Ok (i, m) ->
  target_set_weights_idx idx s =
  (Ok tt, set_target_approximator
            (Ensemble (list_set ms i (set_weights m (get_weights (approximator s)))))
            (log (TargetSetWeights (Some idx) (get_weights (approximator s))) s)).
Proof.
  intros Ht Hs.
  unfold target_set_weights_idx, bind, gets, modify, lift. simpl.
  rewrite Ht, Hs. simpl. reflexivity.
Qed.

Lemma run_AveragedDQN_update_target (s : dqn) (ms : list Model) :
  target_update_frequency (_params s) <> 0 ->
  0 < n_approximators (_params s) ->
  target_approximator s = Ensemble ms ->
  Z.of_nat (length ms) = n_approximators (_params s) ->
  AveragedDQN_update_target s =
  (Ok tt,
   if _n_updates s mod target_update_frequency (_params s) =? 0 then
     let idx := (_n_updates s / target_update_frequency (_params s))
                  mod n_approximators (_params s) in
     match nth_error ms (Z.to_nat idx) with
     | Some m => slot_sync idx ms (Z.to_nat idx) m s
     | None => s
     end
   else s).
Proof.
  intros Hf HN Ht Hlen.
  unfold AveragedDQN_update_target. unfold bind at 1 2 3, gets, lift, py_mod at 1.
  destruct (Z.eqb_spec (target_update_frequency (_params s)) 0); [contradiction|].
  destruct (_ mod _ =? 0); [|reflexivity].
  unfold bind at 1 2 3, gets, lift, py_div, py_mod.
  destruct (Z.eqb_spec (target_update_frequency (_params s)) 0); [contradiction|].
  destruct (Z.eqb_spec (n_approximators (_params s)) 0); [lia|].
  set (idx := (_ / _) mod _).
  assert (Hidx : 0 <= idx < Z.of_nat (length ms)).
  { rewrite Hlen. apply Z.mod_pos_bound. exact HN. }
  destruct (target_slot_in_range ms idx Hidx) as (m & Hm & Hslot).
  rewrite Hm.
  rewrite (bind_ok _ _ _ _ _ (run_target_set_weights_idx s ms idx _ m Ht Hslot)).
  unfold slot_sync, bind, gets, modify. simpl.
  destruct (_ <? _); reflexivity.
Qed.

(** Whatever the state, [AveragedDQN._update_target] either writes nothing
    and leaves the counter alone, or writes one slot and then increments
    the counter exactly when it is below [n_approximators]. *)
Lemma AveragedDQN_update_target_any (s : dqn) :
  let s' := snd (AveragedDQN_update_target s) in
  cls s' = cls s /\ _params s' = _params s /\ _n_updates s' = _n_updates s /\
  ((calls s' = calls s /\
    _n_fitted_target_models s' = _n_fitted_target_models s /\
    target_approximator s' = target_approximator s) \/
   (exists idx w,
      calls s' = calls s ++ [TargetSetWeights (Some idx) w] /\
      _n_updates s mod target_update_frequency (_params s) = 0 /\
      _n_fitted_target_models s' =
        if _n_fitted_target_models s <? n_approximators (_params s)
        then _n_fitted_target_models s + 1
        else _n_fitted_target_models s)).
Proof.
  assert (Hnone : forall x : dqn,
    cls x = cls x /\ _params x = _params x /\ _n_updates x = _n_updates x /\
    ((calls x = calls x /\
      _n_fitted_target_models x = _n_fitted_target_models x /\
      target_approximator x = target_approximator x) \/
     (exists idx w,
        calls x = calls x ++ [TargetSetWeights (Some idx) w] /\
        _n_updates x mod target_update_frequency (_params x) = 0 /\
        _n_fitted_target_models x =
          if _n_fitted_target_models x <? n_approximators (_params x)
          then _n_fitted_target_models x + 1
          else _n_fitted_target_models x))).
  { intros x. repeat split. left. now repeat split. }
  cbv zeta.
  cbv [AveragedDQN_update_target bind gets lift py_mod py_div].
  destruct (Z.eqb_spec (target_update_frequency (_params s)) 0); [apply Hnone|].
  destruct (Z.eqb_spec (_n_updates s mod target_update_frequency (_params s)) 0) as [Hm|Hm];
    [|apply Hnone].
  destruct (Z.eqb_spec (n_approximators (_params s)) 0); [apply Hnone|].
  set (idx := (_ / _) mod _).
  cbv [target_set_weights_idx bind gets lift modify].
  destruct (target_slot (target_approximator s) idx) as [[i m]|e] eqn:Es;
    [|apply Hnone].
  destruct (target_approximator s) as [tm|ms]; [discriminate Es|].
  simpl.
  destruct (_n_fitted_target_models s <? n_approximators (_params s)); simpl;
    (repeat split; right;
     exists idx, (get_weights (approximator s)); now repeat split).
Qed.

Lemma new_calls_app (s s' : dqn) (l : list call) :
  calls s' = calls s ++ l -> new_calls s s' = l.
Proof.
  intros H. unfold new_calls. rewrite H.
  rewrite skipn_app, skipn_all, Nat.sub_diag. reflexivity.
Qed.

Lemma frame_not_synced (s s' : dqn) : frame s s' -> synced s s' = false.
Proof.
  intros [_ _ _ _ _ _ _ _ (l & Hl & Hs)].
  unfold synced. rewrite (new_calls_app _ _ _ Hl), Hs. reflexivity.
Qed.

Lemma update_target_averaged (s : dqn) :
  averaged (cls s) = true -> _update_target s = AveragedDQN_update_target s.
Proof.
  intros H. unfold _update_target, bind, gets.
  destruct (cls s); try discriminate H; reflexivity.
Qed.

Lemma update_target_base (s : dqn) :
  averaged (cls s) = false -> _update_target s = DQN_update_target s.
Proof.
  intros H. unfold _update_target, bind, gets.
  destruct (cls s); try discriminate H; reflexivity.
Qed.

(** One [fit] call on an averaging agent moves the counter by one exactly
    when it synchronised a slot while the counter was below
    [n_approximators]. *)
Lemma fit_n_fitted (d : Dataset) (n : Z) (s : dqn) :
  averaged (cls s) = true ->
  let s' := snd (fit d n s) in
  cls s' = cls s /\ _params s' = _params s /\
  _n_fitted_target_models s' =
    _n_fitted_target_models s +
    (if synced s s' && (_n_fitted_target_models s <? n_approximators (_params s))
     then 1 else 0).
Proof.
  intros Hc. cbv zeta.
  destruct (fit_cases d n s) as [[Hf _] | [_ (s2 & Hf & E)]].
  - rewrite (frame_not_synced _ _ Hf). simpl.
    destruct Hf. repeat split; try assumption. lia.
  - rewrite E. set (s3 := set_n_updates (_n_updates s + 1) s2).
    assert (Hc3 : averaged (cls s3) = true).
    { unfold s3. simpl. now rewrite (frame_cls _ _ Hf). }
    rewrite (update_target_averaged s3 Hc3).
    destruct (AveragedDQN_update_target_any s3) as (H1 & H2 & _ & H3).
    destruct Hf as [f1 f2 _ _ _ _ f7 _ (l & Hl & Hs)].
    assert (Hn3 : _n_fitted_target_models s3 = _n_fitted_target_models s)
      by exact f7.
    assert (Hp3 : _params s3 = _params s) by exact f2.
    assert (Hcalls3 : calls s3 = calls s ++ l) by exact Hl.
    repeat split.
    + rewrite H1. exact f1.
    + rewrite H2. exact f2.
    + destruct H3 as [(Hcalls & Hnf & _) | (idx & w & Hcalls & _ & Hnf)].
      * unfold synced. rewrite (new_calls_app s _ l) by (rewrite Hcalls; exact Hcalls3).
        rewrite Hs. simpl. rewrite Hnf, Hn3. lia.
      * unfold synced.
        rewrite (new_calls_app s _ (l ++ [TargetSetWeights (Some idx) w])).
        2:{ rewrite Hcalls, Hcalls3. now rewrite app_assoc. }
        rewrite sync_log_app, Hs. simpl.
        rewrite Hnf, Hn3, Hp3.
        destruct (_n_fitted_target_models s <? n_approximators (_params s)); lia.
Qed.

Lemma method_n_fitted (m : method) (s : dqn) :
  averaged (cls s) = true ->
  let s' := run_method m s in
  cls s' = cls s /\ _params s' = _params s /\
  _n_fitted_target_models s' =
    _n_fitted_target_models s +
    (if synced s s' && (_n_fitted_target_models s <? n_approximators (_params s))
     then 1 else 0).
Proof.
  intros Hc. destruct m as [d n|f|]; cbv zeta; simpl run_method.
  - now apply fit_n_fitted.
  - pose proof (frame_draw_action f s) as Hf.
    rewrite (frame_not_synced _ _ Hf). destruct Hf. simpl.
    repeat split; try assumption. lia.
  - pose proof (frame_episode_start s) as Hf.
    rewrite (frame_not_synced _ _ Hf). destruct Hf. simpl.
    repeat split; try assumption. lia.
Qed.

Lemma run_methods_n_fitted (l : list method) (s : dqn) :
  averaged (cls s) = true ->
  let s' := run_methods l s in
  cls s' = cls s /\ _params s' = _params s /\
  _n_fitted_target_models s <= _n_fitted_target_models s' /\
  _n_fitted_target_models s' <=
    Z.max (_n_fitted_target_models s) (n_approximators (_params s)).
Proof.
  revert s. induction l as [|m l IH]; intros s Hc; cbv zeta.
  - simpl. repeat split; lia.
  - simpl. destruct (method_n_fitted m s Hc) as (H1 & H2 & H3).
    assert (Hc' : averaged (cls (run_method m s)) = true) by now rewrite H1.
    destruct (IH (run_method m s) Hc') as (I1 & I2 & I3 & I4).
    unfold run_methods in *. rewrite I1, I2, H1, H2. rewrite H2 in I4.
    repeat split.
    + destruct (synced _ _ && _) in H3; lia.
    + destruct (synced s (run_method m s)); simpl in H3; [|lia].
      destruct (Z.ltb_spec (_n_fitted_target_models s) (n_approximators (_params s))); lia.
Qed.

(** ** Construction *)

Lemma init_fields (c : variant) (pol : Policy) (gamma : Qc) (p : alg_params)
    (nact : nat) (g : Rng) (s0 : dqn) :
  init c pol gamma p nact g = Ok s0 ->
  cls s0 = c /\ _params s0 = p /\ _gamma s0 = gamma /\ n_actions s0 = nact /\
  _n_updates s0 = 0 /\ _episode_steps s0 = 0 /\ _no_op_actions s0 = None /\
  calls s0 = [] /\ size (_buffer s0) = history_length p /\
  (averaged c = true ->
   _n_fitted_target_models s0 = 1 /\ is_ensemble (target_approximator s0) = true).
Proof.
  unfold init. intros H.
  match type of H with
  | match ?x with _ => _ end = _ => destruct x as [t|e]; [|discriminate H]
  end.
  destruct c; simpl in H.
  1,2: injection H as <-; simpl; repeat split; discriminate.
  all: destruct (is_ensemble t) eqn:Et; [|discriminate H];
       injection H as <-; simpl; repeat split; assumption.
Qed.

(** C7. On an [AveragedDQN] or [WeightedDQN] instance with
    [n_approximators >= 1], [_n_fitted_target_models] is 1 after
    construction; after any sequence of method calls it lies in
    [1, n_approximators]; a further call adds exactly one to it when that
    call synchronised a slot while the counter was below [n_approximators]
    and leaves it alone otherwise; so along any continuation it never
    decreases, and once it equals [n_approximators] it stays there. *)
Theorem n_fitted_target_models_schedule
    (c : variant) (pol : Policy) (gamma : Qc) (p : alg_params)
    (nact : nat) (g : Rng) (s0 : dqn) :
  averaged c = true ->
  1 <= n_approximators p ->
  init c pol gamma p nact g = Ok s0 ->
  _n_fitted_target_models s0 = 1 /\
  forall l : list method,
    let s := run_methods l s0 in
    1 <= _n_fitted_target_models s <= n_approximators p /\
    (forall m : method,
       let s' := run_method m s in
       _n_fitted_target_models s' =
         _n_fitted_target_models s +
         (if synced s s' && (_n_fitted_target_models s <? n_approximators p)
          then 1 else 0)) /\
    (forall l' : list method,
       let s' := run_methods l' s in
       _n_fitted_target_models s <= _n_fitted_target_models s' /\
       (_n_fitted_target_models s = n_approximators p ->
        _n_fitted_target_models s' = n_approximators p)).
Proof.
  intros Hc HN Hi.
  destruct (init_fields _ _ _ _ _ _ _ Hi) as (Hcls & Hp & _ & _ & _ & _ & _ & _ & _ & Hav).
  destruct (Hav Hc) as (Hnf & _).
  split; [exact Hnf|].
  intros l. cbv zeta.
  assert (Hc0 : averaged (cls s0) = true) by now rewrite Hcls.
  destruct (run_methods_n_fitted l s0 Hc0) as (L1 & L2 & L3 & L4).
  rewrite Hp in L2, L4. rewrite Hnf in L3, L4.
  assert (Hcl : averaged (cls (run_methods l s0)) = true) by now rewrite L1.
  split; [lia|]. split.
  - intros m. destruct (method_n_fitted m _ Hcl) as (_ & _ & H3).
    rewrite L2 in H3. exact H3.
  - intros l'. destruct (run_methods_n_fitted l' _ Hcl) as (_ & _ & M3 & M4).
    rewrite L2 in M4. split; [exact M3|]. lia.
Qed.

(** ** The round-robin schedule *)

Lemma div_succ_sync (n f : Z) :
  0 < f -> 0 <= n -> (n + 1) mod f = 0 -> (n + 1) / f = n / f + 1.
Proof.
  intros Hf Hn Hm.
  pose proof (Z.div_mod (n + 1) f ltac:(lia)) as E1.
  pose proof (Z.div_mod n f ltac:(lia)) as E2.
  pose proof (Z.mod_pos_bound n f Hf) as B.
  rewrite Hm in E1. nia.
Qed.

Lemma div_succ_no_sync (n f : Z) :
  0 < f -> 0 <= n -> (n + 1) mod f <> 0 -> (n + 1) / f = n / f.
Proof.
  intros Hf Hn Hm.
  pose proof (Z.div_mod (n + 1) f ltac:(lia)) as E1.
  pose proof (Z.div_mod n f ltac:(lia)) as E2.
  pose proof (Z.mod_pos_bound n f Hf) as B.
  pose proof (Z.mod_pos_bound (n + 1) f Hf) as B1.
  nia.
Qed.

Lemma upto_succ (m : Z) : 0 <= m -> upto (m + 1) = upto m ++ [m + 1].
Proof.
  intros H. unfold upto.
  replace (Z.to_nat (m + 1)) with (Z.to_nat m + 1)%nat by lia.
  rewrite seq_app, map_app. simpl. f_equal. f_equal. lia.
Qed.

Lemma list_set_length {A : Type} (l : list A) (i : nat) (x : A) :
  length (list_set l i x) = length l.
Proof.
  revert i. induction l as [|y l IH]; intros [|i]; simpl; auto.
Qed.

(** A [fit] call keeps the schedule, and it either writes nothing to the
    target or overwrites exactly one slot, the one the schedule names,
    with the weights of the train approximator. *)
Lemma fit_schedule (d : Dataset) (n : Z) (s : dqn) :
  schedule_inv s ->
  let s' := snd (fit d n s) in
  schedule_inv s' /\
  ((sync_log (new_calls s s') = [] /\
    target_approximator s' = target_approximator s) \/
   (exists ms i m,
      target_approximator s = Ensemble ms /\
      nth_error ms i = Some m /\
      Z.of_nat i = (_n_updates s' / target_update_frequency (_params s'))
                     mod n_approximators (_params s') /\
      target_approximator s' =
        Ensemble (list_set ms i (set_weights m (get_weights (approximator s')))) /\
      sync_log (new_calls s s') = [Some (Z.of_nat i)])).
Proof.
  intros [Hc Hf HN (ms & Ht & Hlen) Hn Hlog]. cbv zeta.
  destruct (fit_cases d n s) as [[Fr _] | [_ (s2 & Fr & E)]].
  - destruct Fr as [f1 f2 f3 f4 f5 f6 f7 f8 (l & Hl & Hs)]. split.
    + constructor; rewrite ?f1, ?f2, ?f5, ?f6; try assumption.
      * now exists ms.
      * now rewrite Hl, sync_log_app, Hs, app_nil_r.
    + left. split; [|exact f5]. now rewrite (new_calls_app _ _ _ Hl).
  - rewrite E. clear E. set (s3 := set_n_updates (_n_updates s + 1) s2).
    destruct Fr as [f1 f2 f3 f4 f5 f6 f7 f8 (l & Hl & Hs)].
    assert (Hc3 : averaged (cls s3) = true) by (unfold s3; simpl; now rewrite f1).
    assert (Hp3 : _params s3 = _params s) by exact f2.
    assert (Ht3 : target_approximator s3 = Ensemble ms)
      by (unfold s3; simpl; now rewrite f5).
    rewrite (update_target_averaged s3 Hc3).
    rewrite (run_AveragedDQN_update_target s3 ms); rewrite ?Hp3; try assumption; try lia.
    replace (_n_updates s3) with (_n_updates s + 1) by reflexivity.
    set (f := target_update_frequency (_params s)) in *.
    set (N := n_approximators (_params s)) in *.
    destruct (Z.eqb_spec ((_n_updates s + 1) mod f) 0) as [Hm|Hm]; simpl snd.
    + set (idx := ((_n_updates s + 1) / f) mod N).
      assert (Hidx : 0 <= idx < Z.of_nat (length ms)).
      { rewrite Hlen. apply Z.mod_pos_bound. exact HN. }
      destruct (nth_error ms (Z.to_nat idx)) as [m|] eqn:Em.
      2:{ apply nth_error_None in Em. lia. }
      assert (Hcalls : calls (slot_sync idx ms (Z.to_nat idx) m s3) =
                       calls s ++ l ++ [TargetSetWeights (Some idx) (get_weights (approximator s3))]).
      { unfold slot_sync. destruct (_ <? _); simpl; rewrite Hl, <- app_assoc; reflexivity. }
      assert (Hfields : cls (slot_sync idx ms (Z.to_nat idx) m s3) = cls s3 /\
                        _params (slot_sync idx ms (Z.to_nat idx) m s3) = _params s3 /\
                        _n_updates (slot_sync idx ms (Z.to_nat idx) m s3) = _n_updates s + 1 /\
                        approximator (slot_sync idx ms (Z.to_nat idx) m s3) = approximator s3 /\
                        target_approximator (slot_sync idx ms (Z.to_nat idx) m s3) =
                          Ensemble (list_set ms (Z.to_nat idx)
                                      (set_weights m (get_weights (approximator s3))))).
      { unfold slot_sync. destruct (_ <? _); simpl; repeat split; reflexivity. }
      destruct Hfields as (g1 & g2 & g3 & g4 & g5).
      split.
      * constructor; rewrite ?g1, ?g2, ?g3, ?Hp3; try assumption; try lia.
        -- exists (list_set ms (Z.to_nat idx) (set_weights m (get_weights (approximator s3)))).
           split; [exact g5|]. now rewrite list_set_length.
        -- rewrite Hcalls, app_assoc, !sync_log_app, Hs, app_nil_r, Hlog.
           fold f N. rewrite (div_succ_sync _ _ Hf Hn Hm).
           rewrite upto_succ by (apply Z.div_pos; lia).
           rewrite map_app. simpl. fold idx.
           rewrite <- (div_succ_sync _ _ Hf Hn Hm). reflexivity.
      * right. exists ms, (Z.to_nat idx), m.
        rewrite g2, g3, g4, g5, Hp3. fold f N idx.
        repeat split; try assumption; try lia.
        rewrite (new_calls_app _ _ _ Hcalls), sync_log_app, Hs. simpl.
        f_equal. f_equal. lia.
    + split.
      * constructor; try assumption; rewrite ?Hp3; try assumption.
        -- now exists ms.
        -- unfold s3; simpl. lia.
        -- replace (calls s3) with (calls s ++ l) by (symmetry; exact Hl).
           rewrite sync_log_app, Hs, app_nil_r, Hlog.
           replace (_n_updates s3) with (_n_updates s + 1) by reflexivity.
           fold f N. now rewrite (div_succ_no_sync _ _ Hf Hn Hm).
      * left. split.
        -- rewrite (new_calls_app s s3 l) by exact Hl. exact Hs.
        -- rewrite Ht3. now rewrite Ht.
Qed.

Lemma fits_schedule (l : list (Dataset * Z)) (s : dqn) :
  schedule_inv s -> schedule_inv (fits l s).
Proof.
  revert s. induction l as [|[d n] l IH]; intros s H; simpl; [exact H|].
  apply IH. exact (proj1 (fit_schedule d n s H)).
Qed.

Lemma DQN_update_target_any (s : dqn) :
  let s' := snd (DQN_update_target s) in
  cls s' = cls s /\ _params s' = _params s /\ _n_updates s' = _n_updates s /\
  _n_fitted_target_models s' = _n_fitted_target_models s.
Proof.
  cbv zeta. cbv [DQN_update_target bind gets lift py_mod].
  destruct (_ =? 0); [simpl; auto|].
  destruct (_ =? 0); [|simpl; auto].
  cbv [target_set_weights bind gets modify lift]. simpl.
  destruct (target_approximator s) as [tm|ms].
  - simpl. repeat split.
  - destruct (ens_set_weights ms _); simpl; repeat split.
Qed.

Lemma update_target_params (s : dqn) :
  _params (snd (_update_target s)) = _params s.
Proof.
  destruct (averaged (cls s)) eqn:E.
  - rewrite (update_target_averaged s E).
    exact (proj1 (proj2 (AveragedDQN_update_target_any s))).
  - rewrite (update_target_base s E).
    exact (proj1 (proj2 (DQN_update_target_any s))).
Qed.

Lemma fit_params (d : Dataset) (n : Z) (s : dqn) :
  _params (snd (fit d n s)) = _params s.
Proof.
  destruct (fit_cases d n s) as [[Fr _] | [_ (s2 & Fr & E)]].
  - exact (frame_params _ _ Fr).
  - rewrite E, update_target_params. exact (frame_params _ _ Fr).
Qed.

Lemma fits_params (l : list (Dataset * Z)) (s : dqn) :
  _params (fits l s) = _params s.
Proof.
  revert s. induction l as [|[d n] l IH]; intros s; simpl; [reflexivity|].
  now rewrite IH, fit_params.
Qed.

(** Any [n] consecutive integers reduce modulo [n] to a rearrangement of
    [0, ..., n-1]. *)
Lemma consecutive_mod_perm (j : nat) (n : Z) :
  0 < n ->
  Permutation (map (fun k => k mod n) (map Z.of_nat (seq (1 + j) (Z.to_nat n))))
              (xrange n).
Proof.
  intros Hn. apply NoDup_Permutation_bis.
  - rewrite map_map.
    apply Injective_map_NoDup_in; [|apply seq_NoDup].
    intros a b Ha Hb E. apply in_seq in Ha, Hb.
    assert (Ea : Z.of_nat a = n * (Z.of_nat a / n) + Z.of_nat a mod n)
      by (apply Z.div_mod; lia).
    assert (Eb : Z.of_nat b = n * (Z.of_nat b / n) + Z.of_nat b mod n)
      by (apply Z.div_mod; lia).
    assert (Z.of_nat a / n = Z.of_nat b / n) by nia.
    apply Nat2Z.inj. rewrite Ea, Eb. congruence.
  - unfold xrange. rewrite !length_map, !length_seq. lia.
  - intros x Hx. apply in_map_iff in Hx. destruct Hx as (k & <- & _).
    unfold xrange. apply in_map_iff.
    pose proof (Z.mod_pos_bound k n Hn).
    exists (Z.to_nat (k mod n)). split; [lia|]. apply in_seq. lia.
Qed.

Lemma nth_error_upto (m k : Z) :
  1 <= k <= m -> nth_error (upto m) (Z.to_nat (k - 1)) = Some k.
Proof.
  intros H. unfold upto.
  replace (Some k) with (Some (Z.of_nat (Z.to_nat k))) by (f_equal; lia).
  apply map_nth_error.
  rewrite nth_error_nth' with (d := O) by (rewrite length_seq; lia).
  rewrite seq_nth by lia. f_equal. lia.
Qed.

Lemma firstn_seq_le (n a len : nat) :
  (n <= len)%nat -> firstn n (seq a len) = seq a n.
Proof.
  revert a len. induction n as [|n IH]; intros a [|len] H; simpl; try reflexivity.
  - lia.
  - f_equal. apply IH. lia.
Qed.

Lemma window_upto (m : Z) (j n : nat) :
  (j + n <= Z.to_nat m)%nat ->
  firstn n (skipn j (upto m)) = map Z.of_nat (seq (1 + j) n).
Proof.
  intros H. unfold upto.
  rewrite skipn_map, firstn_map, skipn_seq, firstn_seq_le by lia.
  f_equal.
Qed.

(** C3, as the code has it. Start from an averaging agent that has made
    no update and no write to its target ensemble of [N] slots, with
    [target_update_frequency > 0]. After any sequence of [fit] calls, number
    the writes to the target logged so far 1, 2, ... in order. There are
    [n_updates / target_update_frequency] of them; write [k] is a write to
    the single slot [k mod N]; any [N] consecutive writes hit every slot
    exactly once; and a further [fit] call either leaves the target alone
    or replaces exactly the one slot the schedule names by the train
    weights. *)
Theorem round_robin_target_update (s0 : dqn) (ms0 : list Model)
    (l : list (Dataset * Z)) :
  averaged (cls s0) = true ->
  0 < target_update_frequency (_params s0) ->
  0 < n_approximators (_params s0) ->
  target_approximator s0 = Ensemble ms0 ->
  Z.of_nat (length ms0) = n_approximators (_params s0) ->
  _n_updates s0 = 0 ->
  sync_log (calls s0) = [] ->
  let N := n_approximators (_params s0) in
  let s := fits l s0 in
  let syncs := sync_log (calls s) in
  let K := _n_updates s / target_update_frequency (_params s0) in
  length syncs = Z.to_nat K /\
  (forall k, 1 <= k <= K ->
     nth_error syncs (Z.to_nat (k - 1)) = Some (Some (k mod N))) /\
  (forall j : nat, (j + Z.to_nat N <= length syncs)%nat ->
     Permutation (firstn (Z.to_nat N) (skipn j syncs)) (map Some (xrange N))) /\
  (forall d n,
     let s' := snd (fit d n s) in
     (sync_log (new_calls s s') = [] /\
      target_approximator s' = target_approximator s) \/
     (exists ms i m,
        target_approximator s = Ensemble ms /\
        nth_error ms i = Some m /\
        Z.of_nat i =
          (_n_updates s' / target_update_frequency (_params s0)) mod N /\
        target_approximator s' =
          Ensemble (list_set ms i (set_weights m (get_weights (approximator s')))) /\
        sync_log (new_calls s s') = [Some (Z.of_nat i)])).
Proof.
  intros Hc Hf HN Ht Hlen Hn Hlog. cbv zeta.
  assert (Inv0 : schedule_inv s0).
  { constructor; try assumption; try lia.
    - now exists ms0.
    - rewrite Hn, Hlog. reflexivity. }
  pose proof (fits_schedule l s0 Inv0) as Inv.
  pose proof (fits_params l s0) as Hp.
  pose proof Inv as [Ic If IN It In Il]. rewrite Hp in Il.
  set (s := fits l s0) in *.
  set (K := _n_updates s / target_update_frequency (_params s0)) in *.
  set (N := n_approximators (_params s0)) in *.
  assert (HK : 0 <= K) by (apply Z.div_pos; lia).
  split; [|split; [|split]].
  - rewrite Il. unfold upto. now rewrite !length_map, length_seq.
  - intros k Hk. rewrite Il.
    apply map_nth_error with (f := fun k => Some (k mod N)).
    now apply nth_error_upto.
  - intros j Hj. rewrite Il in *.
    unfold upto in Hj. rewrite !length_map, length_seq in Hj.
    rewrite skipn_map, firstn_map, window_upto by exact Hj.
    rewrite <- (map_map (fun k => k mod N) Some).
    apply Permutation_map. apply consecutive_mod_perm. exact HN.
  - intros d n.
    destruct (fit_schedule d n s Inv) as (_ & H).
    rewrite (fit_params d n s), Hp in H. exact H.
Qed.

(** ** [_next_q] *)

Lemma combine_map {A B A' B' : Type} (f : A -> A') (g : B -> B')
    (l : list A) (l' : list B) :
  combine (map f l) (map g l') =
  map (fun p => (f (fst p), g (snd p))) (combine l l').
Proof.
  revert l'. induction l as [|x l IH]; intros [|y l']; simpl; try reflexivity.
  now rewrite IH.
Qed.

Lemma in_combine_all_false {A : Type} (l : list A) (bs : list bool) (p : A * bool) :
  Forall (fun b => b = false) bs -> In p (combine l bs) -> snd p = false.
Proof.
  intros H Hin. destruct p as [x b]. apply in_combine_r in Hin.
  rewrite Forall_forall in H. now apply H.
Qed.

Lemma masked_row_false (n : nat) (q : nat -> Qc) :
  masked_row n q false = map q (seq 0 n).
Proof.
  unfold masked_row. apply map_ext. intros a. apply one_minus_false_l.
Qed.

(** Masking the predictions of a batch. *)
Lemma run_mask_rows (n : nat) (q : State -> nat -> Qc) (ns : list State)
    (ab : list bool) (s : dqn) :
  length ab = length ns ->
  mask_rows (predict_batch n q ns) ab s = (Ok (masked_batch n q ns ab), s).
Proof.
  intros Hlen. unfold mask_rows, lift, ret.
  destruct (np_any ab) eqn:Eany.
  - unfold imul_rows. rewrite broadcast_to_same.
    2:{ unfold predict_batch. now rewrite !length_map. }
    f_equal. f_equal.
    unfold predict_batch, masked_batch. rewrite combine_map, !map_map.
    apply map_ext. intros [x b]. simpl. unfold masked_row.
    now rewrite map_map.
  - f_equal. f_equal.
    unfold predict_batch, masked_batch.
    pose proof (np_any_false ab Eany) as Hall.
    transitivity (map (fun p : State * bool => map (q (fst p)) (seq 0 n))
                      (combine ns ab)).
    + clear Hall Eany. revert ab Hlen.
      induction ns as [|x ns IH]; intros [|b ab] Hlen; simpl in *; try reflexivity;
        try discriminate.
      f_equal. apply IH. lia.
    + apply map_ext_in. intros p Hp.
      rewrite (in_combine_all_false _ _ _ Hall Hp). now rewrite masked_row_false.
Qed.

Lemma np_max_masked_batch (n : nat) (q : State -> nat -> Qc) (ns : list State)
    (ab : list bool) :
  n <> O -> np_max_axis1 n (masked_batch n q ns ab) = Ok (max_values n q ns ab).
Proof.
  intros Hn. unfold np_max_axis1. destruct n; [contradiction|]. simpl Nat.eqb.
  cbv iota. unfold masked_batch, max_values. now rewrite map_map.
Qed.

Lemma run_DQN_next_q (ns : list State) (ab : list bool) (s : dqn) :
  length ab = length ns -> n_actions s <> O ->
  DQN_next_q ns ab s =
  (Ok (max_values (n_actions s) (target_q (target_approximator s)) ns ab),
   log (TargetPredict None ns) s).
Proof.
  intros Hlen Hn. unfold DQN_next_q, target_predict.
  cbv [bind gets modify ret lift]. simpl.
  rewrite run_mask_rows by exact Hlen. simpl.
  now rewrite np_max_masked_batch.
Qed.

(** ** One [fit] call of the base class *)

Lemma run_replay_memory_get (n : Z) (s : dqn) (r : res (minibatch State Action)) (g' : Rng) :
  rm_get (_replay_memory s) n (np_random s) = (r, g') ->
  replay_memory_get n s = (r, set_np_random g' (log (ReplayGet n) s)).
Proof.
  intros H. unfold replay_memory_get. cbv [bind gets modify lift]. simpl.
  rewrite H. reflexivity.
Qed.

Lemma next_q_base (ns : list State) (ab : list bool) (s : dqn) :
  cls s = DQN -> _next_q ns ab s = DQN_next_q ns ab s.
Proof. intros H. unfold _next_q, bind, gets. now rewrite H. Qed.

Lemma clip1_spec (lo hi x : Qc) :
  (lo <= hi)%Qc ->
  (lo <= clip1 lo hi x <= hi)%Qc /\
  ((lo <= x <= hi)%Qc -> clip1 lo hi x = x) /\
  ((x < lo)%Qc -> clip1 lo hi x = lo) /\
  ((hi < x)%Qc -> clip1 lo hi x = hi).
Proof.
  intros Hlh. unfold clip1, Qcmin, Qcmax, Qcltb, Qcleb.
  assert (Hb : forall a b : Qc, Qle_bool a b = true <-> (a <= b)%Qc)
    by (intros a b; apply Qle_bool_iff).
  assert (Hnb : forall a b : Qc, Qle_bool a b = false -> (b < a)%Qc).
  { intros a b E. apply Qcnot_le_lt. intros H. apply Hb in H. congruence. }
  destruct (Qle_bool lo x) eqn:E1; simpl.
  - apply Hb in E1. destruct (Qle_bool x hi) eqn:E2; simpl.
    + apply Hb in E2. repeat split; try assumption; try reflexivity.
      * intros H. exfalso. exact (Qclt_not_le _ _ H E1).
      * intros H. exfalso. exact (Qclt_not_le _ _ H E2).
    + apply Hnb in E2. repeat split; try assumption.
      * apply Qcle_refl.
      * intros [_ H]. exfalso. exact (Qclt_not_le _ _ E2 H).
      * intros H. exfalso. exact (Qclt_not_le _ _ H E1).
  - apply Hnb in E1. destruct (Qle_bool lo hi) eqn:E2; simpl.
    + repeat split; try assumption; try reflexivity.
      * apply Qcle_refl.
      * intros [H _]. exfalso. exact (Qclt_not_le _ _ E1 H).
      * intros H. exfalso.
        exact (Qclt_not_le _ _ (Qclt_trans _ _ _ E1 (Qcle_lt_trans _ _ _ Hlh H))
                 (Qcle_refl _)).
    + apply Hb in Hlh. congruence.
Qed.

Lemma max_values_length (n : nat) (q : State -> nat -> Qc) (ns : list State)
    (ab : list bool) :
  length ab = length ns -> length (max_values n q ns ab) = length ns.
Proof.
  intros H. unfold max_values. rewrite length_map, length_combine. lia.
Qed.

Lemma combine_map_r {A B B' : Type} (g : B -> B') (l : list A) (l' : list B) :
  combine l (map g l') = map (fun p => (fst p, g (snd p))) (combine l l').
Proof.
  revert l'. induction l as [|x l IH]; intros [|y l']; simpl; try reflexivity.
  now rewrite IH.
Qed.

(** C2. A call [fit(dataset, 1)] on the base class whose replay memory
    accepts the dataset and returns an aligned minibatch [b] for
    [batch_size]: the minibatch is requested with [batch_size]; [_next_q]
    is run on the sampled next states and absorbing flags; the train
    approximator is fitted on the sampled states and actions and on
    [y = reward + gamma * next_q]; up to the target update the target
    approximator is untouched, [n_updates] has grown by one and the calls
    made are exactly the four listed. The [reward] that enters [y] has
    one entry per sampled reward. When [clip_reward] is set every entry
    lies in [-1, 1]: it is the sampled entry when that lies in [-1, 1],
    it is -1 when the sampled entry is below -1 and 1 when it is above 1.
    When [clip_reward] is not set every entry is the sampled entry. *)
Theorem fit_one_iteration (s : dqn) (d : Dataset) (rm1 : ReplayMemory)
    (b : minibatch State Action) (g' : Rng) :
  cls s = DQN ->
  rm_add (_replay_memory s) d = Ok rm1 ->
  rm_get rm1 (batch_size (_params s)) (np_random s) = (Ok b, g') ->
  length (mb_absorbing b) = length (mb_next_state b) ->
  length (mb_reward b) = length (mb_next_state b) ->
  n_actions s <> O ->
  let s1 := set_np_random g'
              (log (ReplayGet (batch_size (_params s)))
                 (set_replay_memory rm1 (log (ReplayAdd d) s))) in
  let reward := if clip_reward (_params s)
                then map (clip1 (of_Z (-1)) (of_Z 1)) (mb_reward b)
                else mb_reward b in
  let s2 := log (TargetPredict None (mb_next_state b)) s1 in
  exists next_q,
    _next_q (mb_next_state b) (mb_absorbing b) s1 = (Ok next_q, s2) /\
    let y := map (fun p => (fst p + _gamma s * snd p)%Qc) (combine reward next_q) in
    let s3 := set_n_updates (_n_updates s + 1)
                (set_approximator
                   (model_fit (approximator s) (mb_state b) (mb_action b) y)
                   (log (TrainFit (mb_state b) (mb_action b) y) s2)) in
    fit d 1 s = _update_target s3 /\
    approximator s3 = model_fit (approximator s) (mb_state b) (mb_action b) y /\
    target_approximator s3 = target_approximator s /\
    calls s3 = calls s ++ [ReplayAdd d; ReplayGet (batch_size (_params s));
                           TargetPredict None (mb_next_state b);
                           TrainFit (mb_state b) (mb_action b) y] /\
    _n_updates s3 = _n_updates s + 1 /\
    length reward = length (mb_reward b) /\
    (forall i r, nth_error (mb_reward b) i = Some r ->
       exists r', nth_error reward i = Some r' /\
         if clip_reward (_params s)
         then (of_Z (-1) <= r' <= of_Z 1)%Qc /\
              ((of_Z (-1) <= r <= of_Z 1)%Qc -> r' = r) /\
              ((r < of_Z (-1))%Qc -> r' = of_Z (-1)) /\
              ((of_Z 1 < r)%Qc -> r' = of_Z 1)
         else r' = r).
Proof.
  intros Hc Hadd Hget Hab Hrw Hn. cbv zeta.
  set (s0 := set_replay_memory rm1 (log (ReplayAdd d) s)).
  set (s1 := set_np_random g' (log (ReplayGet (batch_size (_params s))) s0)).
  exists (max_values (n_actions s) (target_q (target_approximator s))
            (mb_next_state b) (mb_absorbing b)).
  assert (Hq : _next_q (mb_next_state b) (mb_absorbing b) s1 =
               (Ok (max_values (n_actions s) (target_q (target_approximator s))
                      (mb_next_state b) (mb_absorbing b)),
                log (TargetPredict None (mb_next_state b)) s1)).
  { rewrite next_q_base by exact Hc. now rewrite run_DQN_next_q. }
  split; [exact Hq|].
  split; [|split; [reflexivity|split; [reflexivity|split; [|split; [reflexivity|split]]]]].
  - rewrite fit_unfold. rewrite (run_replay_memory_add d s rm1 Hadd). fold s0.
    simpl Z.eqb. cbv iota. unfold fit_head. simpl py_assert.
    cbv [bind gets ret]. fold (bind (A := list Qc) (B := unit)).
    assert (Hget' : rm_get (_replay_memory s0) (batch_size (_params s0)) (np_random s0)
                    = (Ok b, g')) by exact Hget.
    rewrite (run_replay_memory_get _ s0 _ _ Hget').
    change (set_np_random g' (log (ReplayGet (batch_size (_params s0))) s0)) with s1.
    rewrite Hq.
    change (clip_reward (_params s1)) with (clip_reward (_params s)).
    change (_gamma (log (TargetPredict None (mb_next_state b)) s1)) with (_gamma s).
    unfold lift. rewrite broadcast2_same.
    2:{ rewrite length_map, max_values_length by exact Hab.
        destruct (clip_reward (_params s)); unfold np_clip; rewrite ?length_map; exact Hrw. }
    rewrite combine_map_r, map_map. simpl.
    unfold approximator_fit. cbv [bind gets modify]. simpl.
    reflexivity.
  - simpl. rewrite <- !app_assoc. reflexivity.
  - destruct (clip_reward (_params s)); now rewrite ?length_map.
  - intros i r Hr. destruct (clip_reward (_params s)).
    + exists (clip1 (of_Z (-1)) (of_Z 1) r). split; [now apply map_nth_error|].
      apply clip1_spec. unfold Qcle. simpl. discriminate.
    + exists r. split; [exact Hr|reflexivity].
Qed.

(** ** Update count and target sync of the base class *)

Lemma DQN_update_target_cases (s : dqn) :
  let f := target_update_frequency (_params s) in
  let w := get_weights (approximator s) in
  (f = 0 /\ DQN_update_target s = (Raise ZeroDivisionError, s)) \/
  (f <> 0 /\ _n_updates s mod f <> 0 /\ DQN_update_target s = (Ok tt, s)) \/
  (f <> 0 /\ _n_updates s mod f = 0 /\
   exists r s', DQN_update_target s = (r, s') /\
     calls s' = calls s ++ [TargetSetWeights None w] /\
     cls s' = cls s /\ _params s' = _params s /\ _n_updates s' = _n_updates s /\
     approximator s' = approximator s /\
     (forall tm, target_approximator s = Single tm ->
        r = Ok tt /\ target_approximator s' = Single (set_weights tm w))).
Proof.
  cbv zeta. cbv [DQN_update_target bind gets lift py_mod].
  destruct (Z.eqb_spec (target_update_frequency (_params s)) 0) as [Hf|Hf];
    [left; now split|right].
  destruct (Z.eqb_spec (_n_updates s mod target_update_frequency (_params s)) 0)
    as [Hm|Hm]; [right|left; now repeat split].
  split; [exact Hf|]. split; [exact Hm|].
  cbv [target_set_weights bind gets modify lift]. simpl.
  destruct (target_approximator s) as [tm|ms].
  - eexists _, _. split; [reflexivity|]. simpl. repeat split.
    + injection H as <-. reflexivity.
  - destruct (ens_set_weights ms _) as [ms'|e];
      (eexists _, _; split; [reflexivity|]; simpl; repeat split; discriminate).
Qed.





(** ** [n_iterations] *)

Lemma update_target_calls (s : dqn) :
  exists l, calls (snd (_update_target s)) = calls s ++ l.
Proof.
  destruct (averaged (cls s)) eqn:E.
  - rewrite (update_target_averaged s E).
    destruct (AveragedDQN_update_target_any s) as (_ & _ & _ & [(H & _) | (idx & w & H & _)]).
    + exists []. now rewrite app_nil_r.
    + now exists [TargetSetWeights (Some idx) w].
  - rewrite (update_target_base s E).
    destruct (DQN_update_target_cases s) as [[_ H] | [(_ & _ & H) | (_ & _ & r & s' & H & Hc & _)]];
      rewrite H; simpl.
    + exists []. now rewrite app_nil_r.
    + exists []. now rewrite app_nil_r.
    + eexists. exact Hc.
Qed.

Lemma replay_memory_add_calls (d : Dataset) (s : dqn) :
  calls (snd (replay_memory_add d s)) = calls s ++ [ReplayAdd d].
Proof.
  unfold replay_memory_add. cbv [bind gets modify lift]. simpl.
  destruct (rm_add (_replay_memory s) d); reflexivity.
Qed.

(** C8. Whatever [n_iterations] is and whatever happens next, the first
    thing a [fit] call does is to add the dataset to the replay memory.
    When the memory accepts it: for [n_iterations = 0] the call returns
    having done nothing else (no sampling, no prediction, no fit, same
    [n_updates], same approximators, same random state); for
    [n_iterations] other than 0 and 1 the call raises the
    [AssertionError] of [assert n_iterations == 1], again having done
    nothing else. *)
Theorem fit_n_iterations (s : dqn) (d : Dataset) (n : Z) :
  (exists rest, calls (snd (fit d n s)) = calls s ++ ReplayAdd d :: rest) /\
  (forall rm', rm_add (_replay_memory s) d = Ok rm' ->
     let s1 := set_replay_memory rm' (log (ReplayAdd d) s) in
     (calls s1 = calls s ++ [ReplayAdd d] /\
      _replay_memory s1 = rm' /\
      _n_updates s1 = _n_updates s /\
      approximator s1 = approximator s /\
      target_approximator s1 = target_approximator s /\
      np_random s1 = np_random s) /\
     (n = 0 -> fit d n s = (Ok tt, s1)) /\
     (n <> 0 -> n <> 1 -> fit d n s = (Raise AssertionError, s1))).
Proof.
  split.
  - rewrite fit_unfold.
    pose proof (replay_memory_add_calls d s) as H1.
    destruct (replay_memory_add d s) as [[[]|e] s1]; simpl in H1.
    2:{ exists []. exact H1. }
    destruct (n =? 0); [exists []; exact H1|].
    pose proof (frame_fit_head d n s1) as Fr.
    destruct (fit_head d n s1) as [[[]|e] s2]; simpl in Fr;
      destruct Fr as [_ _ _ _ _ _ _ _ (l & Hl & _)].
    + destruct (update_target_calls (set_n_updates (_n_updates s2 + 1) s2)) as (l' & Hl').
      exists (l ++ l'). rewrite Hl'. simpl calls at 1. rewrite Hl, H1.
      now rewrite <- !app_assoc.
    + exists l. simpl. rewrite Hl, H1. now rewrite <- app_assoc.
  - intros rm' Hadd. cbv zeta. split; [|split].
    + now repeat split.
    + intros ->. now apply fit_zero.
    + intros H0 H1. now apply fit_bad_n.
Qed.

(** ** Episodes *)

Lemma update_target_buffer (s : dqn) :
  _buffer (snd (_update_target s)) = _buffer s.
Proof.
  destruct (averaged (cls s)) eqn:E.
  - rewrite (update_target_averaged s E).
    cbv [AveragedDQN_update_target bind gets lift py_mod py_div].
    destruct (_ =? 0); [reflexivity|].
    destruct (_ =? 0); [|reflexivity].
    destruct (_ =? 0); [reflexivity|].
    cbv [target_set_weights_idx bind gets lift modify].
    destruct (target_slot _ _) as [[i m]|e]; [|reflexivity].
    simpl. destruct (target_approximator s) as [tm|ms]; [reflexivity|].
    simpl. destruct (_ <? _); reflexivity.
  - rewrite (update_target_base s E).
    cbv [DQN_update_target bind gets lift py_mod].
    destruct (_ =? 0); [reflexivity|].
    destruct (_ =? 0); [|reflexivity].
    cbv [target_set_weights bind gets modify lift]. simpl.
    destruct (target_approximator s) as [tm|ms]; [reflexivity|].
    destruct (ens_set_weights ms _); reflexivity.
Qed.

Lemma method_params_size (m : method) (s : dqn) :
  _params (run_method m s) = _params s /\
  size (_buffer (run_method m s)) = size (_buffer s).
Proof.
  destruct m as [d n|f|]; simpl.
  - split; [apply fit_params|].
    destruct (fit_cases d n s) as [[Fr _] | [_ (s2 & Fr & E)]].
    + exact (frame_size _ _ Fr).
    + rewrite E, update_target_buffer. exact (frame_size _ _ Fr).
  - pose proof (frame_draw_action f s) as Fr.
    split; [exact (frame_params _ _ Fr) | exact (frame_size _ _ Fr)].
  - pose proof (frame_episode_start s) as Fr.
    split; [exact (frame_params _ _ Fr) | exact (frame_size _ _ Fr)].
Qed.

Lemma run_methods_params_size (l : list method) (s : dqn) :
  _params (run_methods l s) = _params s /\
  size (_buffer (run_methods l s)) = size (_buffer s).
Proof.
  revert s. induction l as [|m l IH]; intros s; simpl; [now split|].
  destruct (IH (run_method m s)) as (H1 & H2).
  destruct (method_params_size m s) as (H3 & H4).
  unfold run_methods in *. split; congruence.
Qed.

Lemma run_episode_start (s : dqn) :
  size (_buffer s) <= max_no_op_actions (_params s) ->
  int64_lowbnd <= size (_buffer s) ->
  max_no_op_actions (_params s) < int64_highbnd ->
  let lo := size (_buffer s) in
  let hi := max_no_op_actions (_params s) + 1 in
  let d := rng_randint (np_random s) lo hi in
  episode_start s =
  (Ok tt, set_episode_steps 0
            (set_no_op_actions (Some (fst d))
               (set_np_random (snd d) (log (RandInt lo hi) s)))).
Proof.
  intros H Hlo Hhi. cbv zeta. unfold episode_start, np_random_randint.
  cbv [bind gets modify lift ret raise]. cbn [_buffer _params log].
  destruct (Z.ltb_spec (size (_buffer s)) int64_lowbnd); [lia|].
  destruct (Z.ltb_spec int64_highbnd (max_no_op_actions (_params s) + 1)); [lia|].
  destruct (Z.leb_spec (max_no_op_actions (_params s) + 1) (size (_buffer s)));
    [lia|reflexivity].
Qed.

Lemma run_episode_start_empty (s : dqn) :
  max_no_op_actions (_params s) < size (_buffer s) ->
  episode_start s =
  (Raise ValueError,
   log (RandInt (size (_buffer s)) (max_no_op_actions (_params s) + 1)) s).
Proof.
  intros H. unfold episode_start, np_random_randint.
  cbv [bind gets modify lift ret raise]. cbn [_buffer _params log].
  destruct (_ <? _); [reflexivity|].
  destruct (_ <? _); [reflexivity|].
  destruct (Z.leb_spec (max_no_op_actions (_params s) + 1) (size (_buffer s)));
    [reflexivity|lia].
Qed.

Lemma run_draw_action_no_op (f : Frame) (s : dqn) (n : Z) :
  _no_op_actions s = Some n -> _episode_steps s < n ->
  draw_action f s =
  (Ok [no_op_action_value (_params s)],
   set_episode_steps (_episode_steps s + 1)
     (set_policy (policy_update (policy s))
        (log PolicyUpdate
           (set_buffer (Buffer_add (_buffer s) f) (log (BufferAdd f) s))))).
Proof.
  intros Hn Hlt. unfold draw_action, buffer_add, policy_do_update.
  cbv [bind gets modify lift ret]. simpl. rewrite Hn. simpl.
  destruct (Z.ltb_spec (_episode_steps s) n); [reflexivity|lia].
Qed.

Lemma run_draw_action_policy (f : Frame) (s : dqn) (ext : State) (a : Action)
    (p' : Policy) (g' : Rng) :
  py2_lt_opt (_episode_steps s) (_no_op_actions s) = false ->
  Buffer_get (Buffer_add (_buffer s) f) = Ok ext ->
  agent_draw_action (policy s) (approximator s) ext (np_random s) = (Ok a, p', g') ->
  draw_action f s =
  (Ok a,
   set_episode_steps (_episode_steps s + 1)
     (set_np_random g'
        (set_policy p'
           (log (PolicyDrawAction ext)
              (log BufferGet
                 (set_buffer (Buffer_add (_buffer s) f) (log (BufferAdd f) s))))))).
Proof.
  intros Hlt Hget Hdraw.
  unfold draw_action, buffer_add, buffer_get, Agent_draw_action.
  cbv [bind gets modify lift ret]. simpl. rewrite Hlt.
  unfold Buffer_get, Buffer_add in Hget |- *. simpl in Hget |- *.
  rewrite Hget. simpl. rewrite Hdraw. reflexivity.
Qed.

Lemma draw_action_first_call (f : Frame) (s : dqn) :
  exists rest,
    calls (snd (draw_action f s)) = calls s ++ BufferAdd f :: rest /\
    _buffer (snd (draw_action f s)) = Buffer_add (_buffer s) f.
Proof.
  unfold draw_action, buffer_add, buffer_get, policy_do_update, Agent_draw_action.
  cbv [bind gets modify lift ret].
  destruct (py2_lt_opt _ _).
  - exists [PolicyUpdate]. simpl. now rewrite <- app_assoc.
  - destruct (Buffer_get _) as [ext|e].
    + destruct (agent_draw_action _ _ _ _) as [[[a|e] p'] g'];
        exists [BufferGet; PolicyDrawAction ext]; simpl; now rewrite <- !app_assoc.
    + exists [BufferGet]. simpl. now rewrite <- app_assoc.
Qed.

(** C9. In any state [s] an instance can reach after construction.
    When [history_length <= max_no_op_actions], both within the bounds
    numpy puts on the arguments of [randint], [episode_start] returns
    after the one call
    [np.random.randint(history_length, max_no_op_actions + 1)]: it has set
    [episode_steps] to 0 and [no_op_actions] to the integer the random
    source delivered for these bounds, as delivered, which lies in the
    inclusive range [history_length, max_no_op_actions]; the distribution
    of [no_op_actions] is therefore the one of numpy's [randint] on these
    bounds. Every [draw_action(state)] call first pushes [state] into the
    frame buffer. While [episode_steps < no_op_actions] it then only
    advances the policy ([policy.update()]) and returns
    [[no_op_action_value]]: neither the approximator nor the random source
    is used. Otherwise it reads the extended state from the buffer and
    returns what the policy draws for it on the train approximator. In
    both cases a returning call has added one to [episode_steps] and left
    [no_op_actions] alone. *)
Theorem episode_no_op_protocol
    (c : variant) (pol : Policy) (gamma : Qc) (p : alg_params)
    (nact : nat) (g : Rng) (s0 : dqn) (l : list method) (f : Frame) :
  init c pol gamma p nact g = Ok s0 ->
  let s := run_methods l s0 in
  let lo := history_length p in
  let hi := max_no_op_actions p in
  (lo <= hi -> int64_lowbnd <= lo -> hi < int64_highbnd ->
   let r := episode_start s in
   let d := rng_randint (np_random s) lo (hi + 1) in
   fst r = Ok tt /\
   _episode_steps (snd r) = 0 /\
   _no_op_actions (snd r) = Some (fst d) /\
   lo <= fst d <= hi /\
   np_random (snd r) = snd d /\
   calls (snd r) = calls s ++ [RandInt lo (hi + 1)] /\
   _buffer (snd r) = _buffer s /\
   policy (snd r) = policy s /\
   approximator (snd r) = approximator s) /\
  (let r := draw_action f s in
   _buffer (snd r) = Buffer_add (_buffer s) f /\
   exists rest, calls (snd r) = calls s ++ BufferAdd f :: rest) /\
  (forall n, _no_op_actions s = Some n -> _episode_steps s < n ->
     let r := draw_action f s in
     fst r = Ok [no_op_action_value p] /\
     _episode_steps (snd r) = _episode_steps s + 1 /\
     _no_op_actions (snd r) = Some n /\
     policy (snd r) = policy_update (policy s) /\
     approximator (snd r) = approximator s /\
     np_random (snd r) = np_random s /\
     calls (snd r) = calls s ++ [BufferAdd f; PolicyUpdate]) /\
  (forall n ext a p' g',
     _no_op_actions s = Some n -> n <= _episode_steps s ->
     Buffer_get (Buffer_add (_buffer s) f) = Ok ext ->
     agent_draw_action (policy s) (approximator s) ext (np_random s) = (Ok a, p', g') ->
     let r := draw_action f s in
     fst r = Ok a /\
     _episode_steps (snd r) = _episode_steps s + 1 /\
     _no_op_actions (snd r) = Some n /\
     policy (snd r) = p' /\
     np_random (snd r) = g' /\
     approximator (snd r) = approximator s /\
     calls (snd r) = calls s ++ [BufferAdd f; BufferGet; PolicyDrawAction ext]).
Proof.
  intros Hi. cbv zeta.
  destruct (init_fields _ _ _ _ _ _ _ Hi) as (_ & Hp0 & _ & _ & _ & _ & _ & _ & Hsz0 & _).
  destruct (run_methods_params_size l s0) as (Hp & Hsz).
  rewrite Hp0 in Hp. rewrite Hsz0 in Hsz.
  set (s := run_methods l s0) in *.
  split; [|split; [|split]].
  - intros Hle Hlo Hhi.
    pose proof (run_episode_start s) as H. cbv zeta in H.
    rewrite Hp, Hsz in H. rewrite (H Hle Hlo Hhi). cbn [fst snd].
    pose proof (rng_randint_range (np_random s) (history_length p)
                  (max_no_op_actions p + 1)) as B.
    unfold int64_lowbnd, int64_highbnd in Hlo, Hhi.
    repeat split; try reflexivity; lia.
  - destruct (draw_action_first_call f s) as (rest & Hc & Hb).
    split; [exact Hb | now exists rest].
  - intros n Hn Hlt. rewrite (run_draw_action_no_op f s n Hn Hlt). cbn [fst snd].
    rewrite Hp. repeat split; try reflexivity; try exact Hn.
    simpl. now rewrite <- app_assoc.
  - intros n ext a p' g' Hn Hge Hget Hdraw.
    rewrite (run_draw_action_policy f s ext a p' g'); try assumption.
    + cbn [fst snd]. repeat split; try reflexivity; try exact Hn.
      simpl. now rewrite <- !app_assoc.
    + rewrite Hn. simpl. apply Z.ltb_ge. exact Hge.
Qed.

(** C10. When [max_no_op_actions < history_length], as with the defaults
    [max_no_op_actions = 0] and [history_length = 1], [episode_start]
    raises the [ValueError] of [np.random.randint] on an empty range in
    every state the instance can reach, and leaves [episode_steps] and
    [no_op_actions] as they were. *)
Theorem episode_start_empty_range
    (c : variant) (pol : Policy) (gamma : Qc) (p : alg_params)
    (nact : nat) (g : Rng) (s0 : dqn) (l : list method) :
  init c pol gamma p nact g = Ok s0 ->
  max_no_op_actions p < history_length p ->
  let s := run_methods l s0 in
  episode_start s =
    (Raise ValueError, log (RandInt (history_length p) (max_no_op_actions p + 1)) s) /\
  _episode_steps (snd (episode_start s)) = _episode_steps s /\
  _no_op_actions (snd (episode_start s)) = _no_op_actions s.
Proof.
  intros Hi Hlt. cbv zeta.
  destruct (init_fields _ _ _ _ _ _ _ Hi) as (_ & Hp0 & _ & _ & _ & _ & _ & _ & Hsz0 & _).
  destruct (run_methods_params_size l s0) as (Hp & Hsz).
  rewrite Hp0 in Hp. rewrite Hsz0 in Hsz.
  set (s := run_methods l s0) in *.
  pose proof (run_episode_start_empty s) as H.
  rewrite Hp, Hsz in H. specialize (H Hlt).
  rewrite H. now repeat split.
Qed.

(** ** The ensemble variants of [_next_q] *)

Lemma log_all_cons (c : call) (cs : list call) (s : dqn) :
  log_all (c :: cs) s = log_all cs (log c s).
Proof. reflexivity. Qed.

Lemma log_all_calls (cs : list call) (s : dqn) :
  calls (log_all cs s) = calls s ++ cs.
Proof.
  revert s. induction cs as [|c cs IH]; intros s; simpl.
  - now rewrite app_nil_r.
  - change (calls (log_all cs (log c s)) = calls s ++ c :: cs).
    rewrite IH. simpl. now rewrite <- app_assoc.
Qed.

Lemma log_all_fields (cs : list call) (s : dqn) :
  n_actions (log_all cs s) = n_actions s /\
  target_approximator (log_all cs s) = target_approximator s /\
  _n_fitted_target_models (log_all cs s) = _n_fitted_target_models s.
Proof.
  revert s. induction cs as [|c cs IH]; intros s; [now repeat split|].
  rewrite log_all_cons. destruct (IH (log c s)) as (H1 & H2 & H3).
  rewrite H1, H2, H3. now repeat split.
Qed.

Lemma skipn_nth_error {A : Type} (l : list A) (a : nat) (x : A) :
  nth_error l a = Some x -> skipn a l = x :: skipn (S a) l.
Proof.
  revert a. induction l as [|y l IH]; intros [|a] H; simpl in *; try discriminate.
  - now injection H as ->.
  - now apply IH.
Qed.

(** Predicting with the slots [a, ..., a + k - 1] of the ensemble. *)
Lemma run_predict_slots (ns : list State) (ms : list Model) (k a : nat) (s : dqn) :
  target_approximator s = Ensemble ms ->
  (a + k <= length ms)%nat ->
  mapM (target_predict_idx ns) (map Z.of_nat (seq a k)) s =
  (Ok (map (fun m => predict_batch (n_actions s) (predict m) ns)
           (firstn k (skipn a ms))),
   log_all (map (fun i => TargetPredict (Some i) ns) (map Z.of_nat (seq a k))) s).
Proof.
  revert a s. induction k as [|k IH]; intros a s Ht Hle; [reflexivity|].
  simpl seq. simpl map. simpl mapM.
  destruct (nth_error ms a) as [m|] eqn:Em.
  2:{ apply nth_error_None in Em. lia. }
  assert (Hslot : target_slot (Ensemble ms) (Z.of_nat a) = Ok (a, m)).
  { destruct (target_slot_in_range ms (Z.of_nat a) ltac:(lia)) as (m' & Hm' & H).
    rewrite Nat2Z.id in *. congruence. }
  assert (Hrun : target_predict_idx ns (Z.of_nat a) s =
                 (Ok (predict_batch (n_actions s) (predict m) ns),
                  log (TargetPredict (Some (Z.of_nat a)) ns) s)).
  { unfold target_predict_idx. cbv [bind gets modify lift ret]. simpl.
    rewrite Ht, Hslot. reflexivity. }
  rewrite (bind_ok _ _ _ _ _ Hrun).
  rewrite (bind_ok _ _ _ _ _ (IH (S a) (log (TargetPredict (Some (Z.of_nat a)) ns) s)
                                 Ht ltac:(lia))).
  unfold ret. rewrite (skipn_nth_error ms a m Em). reflexivity.
Qed.

Lemma nth_map_seq {A : Type} (f : nat -> A) (n a : nat) (d : A) :
  (a < n)%nat -> nth a (map f (seq 0 n)) d = f a.
Proof.
  intros H. rewrite nth_indep with (d' := f O) by (now rewrite length_map, length_seq).
  rewrite map_nth. now rewrite seq_nth.
Qed.

Lemma map_nth_seq {A B : Type} (f : A -> B) (l : list A) (d : A) :
  map (fun i => f (nth i l d)) (seq 0 (length l)) = map f l.
Proof.
  induction l as [|x l IH]; [reflexivity|].
  simpl. f_equal. rewrite <- seq_shift, map_map. exact IH.
Qed.

(** Row [i] of every slot's prediction. *)
Lemma slice_sample_predictions (n : nat) (slots : list Model) (ns : list State) (i : nat) :
  (i < length ns)%nat ->
  slice_sample (map (fun m => predict_batch n (predict m) ns) slots) i =
  map (fun m => map (predict m (nth i ns [])) (seq 0 n)) slots.
Proof.
  intros Hi. unfold slice_sample. rewrite map_map. apply map_ext. intros m.
  unfold predict_batch.
  rewrite nth_indep with (d' := map (predict m []) (seq 0 n)) by (now rewrite length_map).
  now rewrite (map_nth (fun s => map (predict m s) (seq 0 n))).
Qed.

(** The mean over the slots of their rows for one state. *)
Lemma mean_rows (n : nat) (slots : list Model) (s : State) :
  np_mean_axis0 n (map (fun m => map (predict m s) (seq 0 n)) slots) =
  map (avg_q slots s) (seq 0 n).
Proof.
  unfold np_mean_axis0, avg_q. apply map_ext_in. intros a Ha. apply in_seq in Ha.
  rewrite length_map. f_equal. f_equal. unfold column. rewrite map_map.
  apply map_ext. intros m. apply nth_map_seq. lia.
Qed.

Lemma mean_stack_predictions (n : nat) (slots : list Model) (ns : list State) :
  np_mean_stack (length ns) n (map (fun m => predict_batch n (predict m) ns) slots) =
  predict_batch n (avg_q slots) ns.
Proof.
  unfold np_mean_stack, predict_batch at 2.
  rewrite <- (map_nth_seq (fun s => map (avg_q slots s) (seq 0 n)) ns []).
  apply map_ext_in. intros i Hi. apply in_seq in Hi.
  rewrite slice_sample_predictions by lia. apply mean_rows.
Qed.

Lemma run_predict_fitted (ns : list State) (ms : list Model) (s : dqn) :
  target_approximator s = Ensemble ms ->
  0 <= _n_fitted_target_models s <= Z.of_nat (length ms) ->
  mapM (target_predict_idx ns) (xrange (_n_fitted_target_models s)) s =
  (Ok (map (fun m => predict_batch (n_actions s) (predict m) ns)
           (firstn (Z.to_nat (_n_fitted_target_models s)) ms)),
   log_all (slot_predictions (_n_fitted_target_models s) ns) s).
Proof.
  intros Ht Hk. unfold xrange, slot_predictions, xrange.
  rewrite (run_predict_slots ns ms _ 0 s Ht) by lia. reflexivity.
Qed.

Lemma run_AveragedDQN_next_q (ns : list State) (ab : list bool) (ms : list Model) (s : dqn) :
  target_approximator s = Ensemble ms ->
  0 <= _n_fitted_target_models s <= Z.of_nat (length ms) ->
  length ab = length ns -> n_actions s <> O ->
  AveragedDQN_next_q ns ab s =
  (Ok (max_values (n_actions s)
         (avg_q (firstn (Z.to_nat (_n_fitted_target_models s)) ms)) ns ab),
   log_all (slot_predictions (_n_fitted_target_models s) ns) s).
Proof.
  intros Ht Hk Hlen Hn. unfold AveragedDQN_next_q.
  unfold bind at 1, gets at 1.
  rewrite (bind_ok _ _ _ _ _ (run_predict_fitted ns ms s Ht Hk)).
  destruct (log_all_fields (slot_predictions (_n_fitted_target_models s) ns) s)
    as (Hna & _ & _).
  unfold bind at 1, gets at 1. rewrite Hna.
  rewrite mean_stack_predictions.
  rewrite (bind_ok _ _ _ _ _ (run_mask_rows _ _ _ _ _ Hlen)).
  unfold lift. now rewrite np_max_masked_batch.
Qed.

Lemma next_q_averaged (ns : list State) (ab : list bool) (s : dqn) :
  cls s = AveragedDQN -> _next_q ns ab s = AveragedDQN_next_q ns ab s.
Proof. intros H. unfold _next_q, bind, gets. now rewrite H. Qed.

Lemma next_q_weighted (ns : list State) (ab : list bool) (s : dqn) :
  cls s = WeightedDQN -> _next_q ns ab s = WeightedDQN_next_q ns ab s.
Proof. intros H. unfold _next_q, bind, gets. now rewrite H. Qed.

Lemma next_q_double (ns : list State) (ab : list bool) (s : dqn) :
  cls s = DoubleDQN -> _next_q ns ab s = DoubleDQN_next_q ns ab s.
Proof. intros H. unfold _next_q, bind, gets. now rewrite H. Qed.


(** ** [WeightedDQN._next_q] *)

Lemma run_mapM_lift {A B : Type} (F : A -> res B) (G : A -> B) (l : list A) (s : dqn) :
  (forall i, In i l -> F i = Ok (G i)) ->
  mapM (fun i => lift (F i)) l s = (Ok (map G l), s).
Proof.
  intros H. induction l as [|x l IH]; [reflexivity|].
  simpl mapM. unfold bind at 1, lift at 1. rewrite (H x (or_introl eq_refl)).
  rewrite (bind_ok _ _ _ _ _ (IH (fun i Hi => H i (or_intror Hi)))).
  reflexivity.
Qed.

Lemma combine_map_same {A B D : Type} (f : A -> B) (g : A -> D) (l : list A) :
  combine (map f l) (map g l) = map (fun a => (f a, g a)) l.
Proof. induction l as [|x l IH]; simpl; [reflexivity|now rewrite IH]. Qed.

Lemma combine_map_l {A A' B : Type} (f : A -> A') (l : list A) (l' : list B) :
  combine (map f l) l' = map (fun p => (f (fst p), snd p)) (combine l l').
Proof.
  revert l'. induction l as [|x l IH]; intros [|y l']; simpl; try reflexivity.
  now rewrite IH.
Qed.

Lemma weighted_value_predictions (n : nat) (k : Z) (slots : list Model)
    (ns : list State) (i : nat) :
  n <> O -> (i < length ns)%nat -> Z.of_nat (length slots) = k ->
  weighted_value n k (map (fun m => predict_batch n (predict m) ns) slots) i =
  Ok (weighted_q n slots (nth i ns [])).
Proof.
  intros Hn Hi Hk. unfold weighted_value.
  rewrite slice_sample_predictions by exact Hi.
  unfold np_argmax_axis1. destruct n as [|n']; [contradiction|].
  cbv beta iota. simpl Nat.eqb. cbv iota.
  rewrite mean_rows. f_equal.
  unfold np_dot, np_counts, weighted_q. rewrite !map_map.
  rewrite combine_map_same, map_map.
  apply f_equal. apply map_ext. intros a. cbn [fst snd].
  unfold weight, slot_argmax. now rewrite Hk.
Qed.

Lemma run_mask_vec (w : list Qc) (ab : list bool) (s : dqn) :
  length ab = length w ->
  mask_vec w ab s =
  (Ok (map (fun p => (fst p * one_minus (snd p))%Qc) (combine w ab)), s).
Proof.
  intros Hlen. unfold mask_vec, lift, ret.
  destruct (np_any ab) eqn:Eany.
  - unfold imul_vec. rewrite broadcast_to_same by (now rewrite length_map).
    now rewrite combine_map_r, map_map.
  - f_equal. f_equal. pose proof (np_any_false ab Eany) as Hall.
    transitivity (map (fun p : Qc * bool => fst p) (combine w ab)).
    + clear Hall Eany. revert ab Hlen.
      induction w as [|x w IH]; intros [|b ab] Hlen; simpl in *; try reflexivity;
        try discriminate.
      f_equal. apply IH. lia.
    + apply map_ext_in. intros p Hp.
      rewrite (in_combine_all_false _ _ _ Hall Hp). simpl. ring.
Qed.

Lemma run_WeightedDQN_next_q (ns : list State) (ab : list bool) (ms : list Model) (s : dqn) :
  target_approximator s = Ensemble ms ->
  0 <= _n_fitted_target_models s <= Z.of_nat (length ms) ->
  length ab = length ns -> n_actions s <> O ->
  WeightedDQN_next_q ns ab s =
  (Ok (weighted_values (n_actions s)
         (firstn (Z.to_nat (_n_fitted_target_models s)) ms) ns ab),
   log_all (slot_predictions (_n_fitted_target_models s) ns) s).
Proof.
  intros Ht Hk Hlen Hn. unfold WeightedDQN_next_q.
  unfold bind at 1 2, gets at 1 2.
  rewrite (bind_ok _ _ _ _ _ (run_predict_fitted ns ms s Ht Hk)).
  set (slots := firstn (Z.to_nat (_n_fitted_target_models s)) ms).
  assert (Hsl : Z.of_nat (length slots) = _n_fitted_target_models s).
  { unfold slots. rewrite length_firstn. lia. }
  set (s1 := log_all (slot_predictions (_n_fitted_target_models s) ns) s).
  assert (HW : mapM (fun i => lift (weighted_value (n_actions s)
                                      (_n_fitted_target_models s)
                                      (map (fun m => predict_batch (n_actions s) (predict m) ns)
                                           slots) i))
                    (seq 0 (length ns)) s1 =
               (Ok (map (fun i => weighted_q (n_actions s) slots (nth i ns []))
                        (seq 0 (length ns))), s1)).
  { apply run_mapM_lift. intros i Hi. apply in_seq in Hi.
    apply weighted_value_predictions; [exact Hn | lia | exact Hsl]. }
  rewrite (bind_ok _ _ _ _ _ HW).
  rewrite (map_nth_seq (weighted_q (n_actions s) slots) ns []).
  rewrite run_mask_vec by (now rewrite length_map).
  unfold weighted_values. now rewrite combine_map_l, map_map.
Qed.

(** *** Sums and weights *)

Lemma Qcsum_app (l1 l2 : list Qc) : Qcsum (l1 ++ l2) = (Qcsum l1 + Qcsum l2)%Qc.
Proof.
  induction l1 as [|x l1 IH]; simpl.
  - ring.
  - rewrite IH. ring.
Qed.

Lemma Qcsum_map_zero {A : Type} (g : A -> Qc) (l : list A) :
  (forall c, In c l -> g c = 0%Qc) -> Qcsum (map g l) = 0%Qc.
Proof.
  intros H. induction l as [|x l IH]; simpl; [reflexivity|].
  rewrite (H x (or_introl eq_refl)), IH.
  - ring.
  - intros c Hc. apply H. now right.
Qed.

(** Taking the term of index [a] out of a sum over a range. *)
Lemma Qcsum_seq_split (g : nat -> Qc) (st len a : nat) :
  (st <= a < st + len)%nat ->
  Qcsum (map g (seq st len)) =
  (Qcsum (map g (seq st (a - st))) +
   (g a + Qcsum (map g (seq (S a) (st + len - S a)))))%Qc.
Proof.
  intros H.
  replace len with ((a - st) + S (st + len - S a))%nat at 1 by lia.
  rewrite seq_app, map_app, Qcsum_app.
  replace (st + (a - st))%nat with a by lia.
  reflexivity.
Qed.

Lemma Qcsum_seq_single (g : nat -> Qc) (n a : nat) :
  (a < n)%nat ->
  (forall c, (c < n)%nat -> c <> a -> g c = 0%Qc) ->
  Qcsum (map g (seq 0 n)) = g a.
Proof.
  intros Ha Hz. rewrite (Qcsum_seq_split g 0 n a) by lia.
  rewrite !Qcsum_map_zero.
  - ring.
  - intros c Hc. apply in_seq in Hc. apply Hz; lia.
  - intros c Hc. apply in_seq in Hc. apply Hz; lia.
Qed.

Lemma Qcsum_seq_two (g : nat -> Qc) (n a b : nat) :
  (a < n)%nat -> (b < n)%nat -> a <> b ->
  (forall c, (c < n)%nat -> c <> a -> c <> b -> g c = 0%Qc) ->
  Qcsum (map g (seq 0 n)) = (g a + g b)%Qc.
Proof.
  assert (H : forall a b, (a < b)%nat -> (b < n)%nat ->
            (forall c, (c < n)%nat -> c <> a -> c <> b -> g c = 0%Qc) ->
            Qcsum (map g (seq 0 n)) = (g a + g b)%Qc).
  { clear a b. intros a b Hab Hb Hz.
    rewrite (Qcsum_seq_split g 0 n a) by lia.
    rewrite (Qcsum_seq_split g (S a) (0 + n - S a) b) by lia.
    rewrite !Qcsum_map_zero.
    - ring.
    - intros c Hc. apply in_seq in Hc. apply Hz; lia.
    - intros c Hc. apply in_seq in Hc. apply Hz; lia.
    - intros c Hc. apply in_seq in Hc. apply Hz; lia. }
  intros Ha Hb Hab Hz.
  destruct (Nat.lt_total a b) as [Hlt|[Heq|Hgt]].
  - now apply H.
  - contradiction.
  - rewrite (H b a Hgt Ha).
    + ring.
    + intros c Hc Hcb Hca. now apply Hz.
Qed.

Lemma of_Z_neq_0 (z : Z) : z <> 0 -> of_Z z <> 0%Qc.
Proof.
  intros Hz H. apply Hz. unfold of_Z in H.
  apply Q2Qc_eq_iff in H. unfold Qeq in H. simpl in H. lia.
Qed.

Lemma of_Z_mul (x y : Z) : of_Z (x * y) = (of_Z x * of_Z y)%Qc.
Proof.
  unfold of_Z, Qcmult. apply Q2Qc_eq_iff. cbn [this Q2Qc].
  rewrite !Qred_correct. now rewrite inject_Z_mult.
Qed.

Lemma of_Z_0_div (x : Qc) : (of_Z 0 / x = 0)%Qc.
Proof. unfold Qcdiv. change (of_Z 0) with 0%Qc. ring. Qed.

Lemma Qc_div_same (x : Qc) : x <> 0%Qc -> (x / x = 1)%Qc.
Proof. intros H. unfold Qcdiv. now apply Qcmult_inv_r. Qed.

Lemma of_Z_half (h : Z) : h <> 0 -> (of_Z h / of_Z (2 * h) = 1 / of_Z 2)%Qc.
Proof.
  intros H. rewrite of_Z_mul.
  pose proof (of_Z_neq_0 h H) as Hh.
  pose proof (of_Z_neq_0 2 ltac:(lia)) as H2.
  field. split; assumption.
Qed.

Lemma argmax_from_bound (l : list Qc) (best : Qc) (besti i : nat) :
  (besti < i)%nat -> (argmax_from best besti i l < i + length l)%nat.
Proof.
  revert best besti i. induction l as [|x l IH]; intros best besti i H; simpl.
  - lia.
  - destruct (Qcltb best x).
    + specialize (IH x i (S i) ltac:(lia)). lia.
    + specialize (IH best besti (S i) ltac:(lia)). lia.
Qed.

Lemma row_argmax_bound (row : list Qc) :
  row <> [] -> (row_argmax row < length row)%nat.
Proof.
  destruct row as [|x r]; [contradiction|]. intros _. simpl.
  pose proof (argmax_from_bound r x 0 1 ltac:(lia)). lia.
Qed.

Lemma slot_argmax_bound (n : nat) (slots : list Model) (s : State) (a : nat) :
  n <> O -> In a (slot_argmax n slots s) -> (a < n)%nat.
Proof.
  intros Hn Ha. unfold slot_argmax in Ha. apply in_map_iff in Ha.
  destruct Ha as (m & <- & _).
  pose proof (row_argmax_bound (map (predict m s) (seq 0 n))) as H.
  rewrite length_map, length_seq in H. apply H.
  destruct n; [contradiction|discriminate].
Qed.

Lemma count_occ_all (l : list nat) (a : nat) :
  Forall (eq a) l -> count_occ Nat.eq_dec l a = length l.
Proof.
  induction 1 as [|x l Hx _ IH]; simpl; [reflexivity|].
  destruct (Nat.eq_dec x a); [now rewrite IH | congruence].
Qed.

Lemma count_occ_two (l : list nat) (a b : nat) :
  a <> b -> Forall (fun i => i = a \/ i = b) l ->
  length l = (count_occ Nat.eq_dec l a + count_occ Nat.eq_dec l b)%nat.
Proof.
  intros Hab. induction 1 as [|x l Hx _ IH]; simpl; [reflexivity|].
  destruct (Nat.eq_dec x a), (Nat.eq_dec x b); subst; try lia; try congruence;
    destruct Hx; congruence.
Qed.

Lemma weight_zero (n : nat) (slots : list Model) (s : State) (c : nat) :
  ~ In c (slot_argmax n slots s) -> weight n slots s c = 0%Qc.
Proof.
  intros H. unfold weight.
  rewrite (proj1 (count_occ_not_In Nat.eq_dec _ _) H). apply of_Z_0_div.
Qed.

(** When every slot prefers action [a], the weighted value is the mean
    value of [a]. *)
Lemma weighted_q_unanimous (n : nat) (slots : list Model) (s : State) (a : nat) :
  n <> O -> slots <> [] ->
  Forall (eq a) (slot_argmax n slots s) ->
  weight n slots s a = 1%Qc /\ weighted_q n slots s = avg_q slots s a.
Proof.
  intros Hn Hne Hall.
  assert (Hlen : length (slot_argmax n slots s) = length slots)
    by (unfold slot_argmax; now rewrite length_map).
  assert (Hin : In a (slot_argmax n slots s)).
  { destruct (slot_argmax n slots s) as [|x l] eqn:E.
    - destruct slots; [contradiction|discriminate Hlen].
    - inversion Hall; subst. now left. }
  assert (Hw : weight n slots s a = 1%Qc).
  { unfold weight. rewrite (count_occ_all _ _ Hall), Hlen.
    apply Qc_div_same. apply of_Z_neq_0. destruct slots; [contradiction|simpl; lia]. }
  split; [exact Hw|].
  unfold weighted_q.
  rewrite (Qcsum_seq_single _ n a).
  - rewrite Hw. ring.
  - now apply (slot_argmax_bound n slots s).
  - intros c _ Hc. rewrite weight_zero; [ring|].
    intros Hcin. rewrite Forall_forall in Hall. apply Hc. symmetry. now apply Hall.
Qed.

Lemma half_plus_half : (1 / of_Z 2 + 1 / of_Z 2 = 1)%Qc.
Proof. apply Qc_is_canon. reflexivity. Qed.

(** When the slots split evenly between the actions [a] and [b], both
    weights are one half, the weights sum to one, and the weighted value
    is the midpoint of the two mean values. *)
Lemma weighted_q_split (n : nat) (slots : list Model) (s : State) (a b : nat) :
  n <> O -> slots <> [] -> a <> b ->
  Forall (fun i => i = a \/ i = b) (slot_argmax n slots s) ->
  count_occ Nat.eq_dec (slot_argmax n slots s) a =
  count_occ Nat.eq_dec (slot_argmax n slots s) b ->
  weight n slots s a = (1 / of_Z 2)%Qc /\
  weight n slots s b = (1 / of_Z 2)%Qc /\
  Qcsum (map (weight n slots s) (seq 0 n)) = 1%Qc /\
  weighted_q n slots s =
    (1 / of_Z 2 * avg_q slots s a + 1 / of_Z 2 * avg_q slots s b)%Qc.
Proof.
  intros Hn Hne Hab Hall Hcnt.
  assert (Hlen : length (slot_argmax n slots s) = length slots)
    by (unfold slot_argmax; now rewrite length_map).
  pose proof (count_occ_two _ a b Hab Hall) as Htwo.
  set (h := count_occ Nat.eq_dec (slot_argmax n slots s) a) in *.
  assert (Hpos : (0 < length slots)%nat)
    by (destruct slots; [contradiction|simpl; lia]).
  assert (Hh : (0 < h)%nat) by lia.
  assert (Ha : In a (slot_argmax n slots s))
    by (apply (count_occ_In Nat.eq_dec); fold h; lia).
  assert (Hb : In b (slot_argmax n slots s))
    by (apply (count_occ_In Nat.eq_dec); rewrite <- Hcnt; lia).
  assert (Hk : Z.of_nat (length slots) = 2 * Z.of_nat h) by lia.
  assert (Hwa : weight n slots s a = (1 / of_Z 2)%Qc).
  { unfold weight. fold h. rewrite Hk. apply of_Z_half. lia. }
  assert (Hwb : weight n slots s b = (1 / of_Z 2)%Qc).
  { unfold weight. rewrite <- Hcnt. rewrite Hk. apply of_Z_half. lia. }
  assert (Hz : forall c, c <> a -> c <> b -> weight n slots s c = 0%Qc).
  { intros c Hca Hcb. apply weight_zero. intros Hc.
    rewrite Forall_forall in Hall. destruct (Hall c Hc); contradiction. }
  pose proof (slot_argmax_bound n slots s a Hn Ha) as Han.
  pose proof (slot_argmax_bound n slots s b Hn Hb) as Hbn.
  pose proof (of_Z_neq_0 2 ltac:(lia)) as H2.
  repeat split; try assumption.
  - rewrite (Qcsum_seq_two _ n a b Han Hbn Hab).
    + rewrite Hwa, Hwb. exact half_plus_half.
    + intros c _ Hca Hcb. now apply Hz.
  - unfold weighted_q. rewrite (Qcsum_seq_two _ n a b Han Hbn Hab).
    + now rewrite Hwa, Hwb.
    + intros c _ Hca Hcb. rewrite Hz by assumption. ring.
Qed.

Lemma weighted_q_dot (n : nat) (slots : list Model) (s : State) :
  weighted_q n slots s =
  np_dot (map (weight n slots s) (seq 0 n)) (map (avg_q slots s) (seq 0 n)).
Proof.
  unfold weighted_q, np_dot. now rewrite combine_map_same, map_map.
Qed.

(** C6, as the code has it. [WeightedDQN._next_q], on an ensemble target
    of which [k = n_fitted_target_models] slots are fitted: with
    [w[a] = count[a] / k], where [count[a]] is the number of fitted slots
    whose own arg-max is [a], the value returned for a sample is the dot
    product of [w] with the per-action mean over the fitted slots,
    multiplied by [1 - absorbing]: the dot product itself for a sample
    that is not absorbing, 0 for one that is. When all fitted slots have
    the same arg-max the dot product is the mean value of that action;
    when they split evenly between two actions both weights are 1/2, the
    weights sum to 1 and the dot product is the midpoint of the two mean
    values. *)
Theorem WeightedDQN_next_q_weighted
    (ns : list State) (ab : list bool) (ms : list Model) (s : dqn) :
  cls s = WeightedDQN ->
  target_approximator s = Ensemble ms ->
  1 <= _n_fitted_target_models s <= Z.of_nat (length ms) ->
  length ab = length ns ->
  n_actions s <> O ->
  let k := _n_fitted_target_models s in
  let n := n_actions s in
  let fitted := firstn (Z.to_nat k) ms in
  let w st := map (weight n fitted st) (seq 0 n) in
  let means st := map (avg_q fitted st) (seq 0 n) in
  _next_q ns ab s =
    (Ok (map (fun p => (np_dot (w (fst p)) (means (fst p)) * one_minus (snd p))%Qc)
             (combine ns ab)),
     log_all (map (fun i => TargetPredict (Some i) ns) (xrange k)) s) /\
  (forall st a,
     weight n fitted st a =
       (of_Z (Z.of_nat (count_occ Nat.eq_dec (slot_argmax n fitted st) a)) / of_Z k)%Qc) /\
  (forall st a,
     Forall (eq a) (slot_argmax n fitted st) ->
     np_dot (w st) (means st) = avg_q fitted st a) /\
  (forall st a b,
     a <> b ->
     Forall (fun i => i = a \/ i = b) (slot_argmax n fitted st) ->
     count_occ Nat.eq_dec (slot_argmax n fitted st) a =
     count_occ Nat.eq_dec (slot_argmax n fitted st) b ->
     Qcsum (w st) = 1%Qc /\
     weight n fitted st a = (1 / of_Z 2)%Qc /\
     weight n fitted st b = (1 / of_Z 2)%Qc /\
     np_dot (w st) (means st) =
       (1 / of_Z 2 * avg_q fitted st a + 1 / of_Z 2 * avg_q fitted st b)%Qc).
Proof.
  intros Hc Ht Hk Hlen Hn. cbv zeta.
  set (k := _n_fitted_target_models s) in *.
  set (fitted := firstn (Z.to_nat k) ms).
  assert (Hfl : Z.of_nat (length fitted) = k).
  { unfold fitted. rewrite length_firstn. lia. }
  assert (Hne : fitted <> []).
  { intros E. rewrite E in Hfl. simpl in Hfl. lia. }
  split; [|split; [|split]].
  - rewrite next_q_weighted by exact Hc.
    rewrite (run_WeightedDQN_next_q ns ab ms s Ht ltac:(fold k; lia) Hlen Hn).
    fold k fitted. unfold weighted_values, slot_predictions. f_equal. f_equal.
    apply map_ext. intros p. now rewrite weighted_q_dot.
  - intros st a. unfold weight. now rewrite Hfl.
  - intros st a Hall. rewrite <- weighted_q_dot.
    exact (proj2 (weighted_q_unanimous _ _ _ _ Hn Hne Hall)).
  - intros st a b Hab Hall Hcnt. rewrite <- weighted_q_dot.
    destruct (weighted_q_split _ _ _ _ _ Hn Hne Hab Hall Hcnt) as (H1 & H2 & H3 & H4).
    now repeat split.
Qed.

(** ** Absorbing samples *)

Lemma masked_row_true (n : nat) (q : nat -> Qc) :
  Forall (fun x => x = 0%Qc) (masked_row n q true).
Proof.
  unfold masked_row. apply Forall_forall. intros x Hx.
  apply in_map_iff in Hx. destruct Hx as (a & <- & _). apply one_minus_true_l.
Qed.

Lemma nth_error_combine {A B : Type} (l : list A) (l' : list B) (i : nat) (x : A) (y : B) :
  nth_error l i = Some x -> nth_error l' i = Some y ->
  nth_error (combine l l') i = Some (x, y).
Proof.
  revert l' i. induction l as [|a l IH]; intros [|b l'] [|i] H1 H2; simpl in *;
    try discriminate.
  - now injection H1 as ->; injection H2 as ->.
  - now apply IH.
Qed.

Lemma nth_error_in_range {A : Type} (l : list A) (i : nat) :
  (i < length l)%nat -> exists x, nth_error l i = Some x.
Proof.
  intros H. destruct (nth_error l i) as [x|] eqn:E; [now exists x|].
  apply nth_error_None in E. lia.
Qed.

Lemma max_values_absorbing (n : nat) (q : State -> nat -> Qc) (ns : list State)
    (ab : list bool) (i : nat) :
  length ab = length ns -> nth_error ab i = Some true ->
  nth_error (max_values n q ns ab) i = Some 0%Qc.
Proof.
  intros Hlen Hi.
  destruct (nth_error_in_range ns i) as (x & Hx).
  { rewrite <- Hlen. apply nth_error_Some. congruence. }
  unfold max_values.
  rewrite (map_nth_error _ _ _ (nth_error_combine _ _ _ _ _ Hx Hi)).
  simpl. f_equal. apply row_max_zeros. apply masked_row_true.
Qed.

Lemma weighted_values_absorbing (n : nat) (slots : list Model) (ns : list State)
    (ab : list bool) (i : nat) :
  length ab = length ns -> nth_error ab i = Some true ->
  nth_error (weighted_values n slots ns ab) i = Some 0%Qc.
Proof.
  intros Hlen Hi.
  destruct (nth_error_in_range ns i) as (x & Hx).
  { rewrite <- Hlen. apply nth_error_Some. congruence. }
  unfold weighted_values.
  rewrite (map_nth_error _ _ _ (nth_error_combine _ _ _ _ _ Hx Hi)).
  simpl. f_equal. ring.
Qed.

(** The three classes that honour the absorbing flag: the value
    [_next_q] returns for an absorbing sample is 0, so the target of that
    sample is its reward. *)
Lemma next_q_absorbing_zero (ns : list State) (ab : list bool) (s : dqn) (i : nat) :
  cls s <> DoubleDQN ->
  (cls s = DQN \/
   exists ms, target_approximator s = Ensemble ms /\
              1 <= _n_fitted_target_models s <= Z.of_nat (length ms)) ->
  length ab = length ns ->
  n_actions s <> O ->
  nth_error ab i = Some true ->
  exists r s', _next_q ns ab s = (Ok r, s') /\ nth_error r i = Some 0%Qc.
Proof.
  intros Hnd Hpre Hlen Hn Hi.
  destruct (cls s) eqn:Hc; [| contradiction | |].
  - rewrite next_q_base by exact Hc. rewrite run_DQN_next_q by assumption.
    eexists _, _. split; [reflexivity|]. now apply max_values_absorbing.
  - destruct Hpre as [Hd|(ms & Ht & Hk)]; [discriminate Hd|].
    rewrite next_q_averaged by exact Hc.
    rewrite (run_AveragedDQN_next_q ns ab ms s Ht ltac:(lia) Hlen Hn).
    eexists _, _. split; [reflexivity|]. now apply max_values_absorbing.
  - destruct Hpre as [Hd|(ms & Ht & Hk)]; [discriminate Hd|].
    rewrite next_q_weighted by exact Hc.
    rewrite (run_WeightedDQN_next_q ns ab ms s Ht ltac:(lia) Hlen Hn).
    eexists _, _. split; [reflexivity|]. now apply weighted_values_absorbing.
Qed.

Lemma argmax_from_zeros (l : list Qc) (besti i : nat) :
  Forall (fun x => x = 0%Qc) l -> argmax_from 0%Qc besti i l = besti.
Proof.
  intros H. revert i. induction H as [|x l Hx _ IH]; intros i; simpl; [reflexivity|].
  subst x. rewrite Qcltb_irrefl. apply IH.
Qed.

Lemma row_argmax_zeros (l : list Qc) :
  Forall (fun x => x = 0%Qc) l -> row_argmax l = O.
Proof.
  destruct 1 as [|x l Hx Hl]; simpl; [reflexivity|].
  subst x. now apply argmax_from_zeros.
Qed.

Lemma combine_fst_map {A B D : Type} (g : A * B -> D) (l : list A) (l' : list B) :
  length l' = length l ->
  combine l (map g (combine l l')) = map (fun p => (fst p, g p)) (combine l l').
Proof.
  revert l'. induction l as [|x l IH]; intros [|y l'] H; simpl in *;
    try reflexivity; try discriminate.
  f_equal. apply IH. lia.
Qed.

(** [DoubleDQN._next_q]: the mask goes on the values the action is selected
    from, not on the value that is returned. *)
Lemma run_DoubleDQN_next_q (ns : list State) (ab : list bool) (s : dqn) :
  length ab = length ns -> n_actions s <> O ->
  DoubleDQN_next_q ns ab s =
  (Ok (map (fun p => target_q (target_approximator s) (fst p)
                       (row_argmax (masked_row (n_actions s)
                                      (predict (approximator s) (fst p)) (snd p))))
           (combine ns ab)),
   log (TargetPredictAt ns
          (map row_argmax
               (masked_batch (n_actions s) (predict (approximator s)) ns ab)))
       (log (TrainPredict ns) s)).
Proof.
  intros Hlen Hn. unfold DoubleDQN_next_q, approximator_predict, target_predict_at.
  cbv [bind gets modify ret lift]. simpl.
  rewrite run_mask_rows by exact Hlen. simpl.
  unfold np_argmax_axis1. destruct (n_actions s) as [|n] eqn:En; [contradiction|].
  simpl Nat.eqb. cbv iota. f_equal. f_equal.
  unfold masked_batch. rewrite map_map.
  rewrite (combine_fst_map _ ns ab Hlen), map_map. reflexivity.
Qed.

(** On [DoubleDQN] the value returned for an absorbing sample is the
    target's value of action 0 in that state, whatever it is. *)
Lemma DoubleDQN_next_q_absorbing (ns : list State) (ab : list bool) (s : dqn)
    (i : nat) (x : State) :
  cls s = DoubleDQN ->
  length ab = length ns -> n_actions s <> O ->
  nth_error ns i = Some x -> nth_error ab i = Some true ->
  exists r s', _next_q ns ab s = (Ok r, s') /\
               nth_error r i = Some (target_q (target_approximator s) x O).
Proof.
  intros Hc Hlen Hn Hx Hi.
  rewrite next_q_double by exact Hc. rewrite run_DoubleDQN_next_q by assumption.
  eexists _, _. split; [reflexivity|].
  rewrite (map_nth_error _ _ _ (nth_error_combine _ _ _ _ _ Hx Hi)).
  simpl. now rewrite (row_argmax_zeros _ (masked_row_true _ _)).
Qed.

(** ** Construction of an averaging agent *)

Lemma init_slots_ensemble (w : Weights) (idxs : list Z) (ms : list Model)
    (t : target_model Model) :
  init_slots (Ensemble ms) w idxs = Ok t ->
  exists ms', t = Ensemble ms' /\ length ms' = length ms.
Proof.
  revert ms. induction idxs as [|i idxs IH]; intros ms H; simpl in H.
  - injection H as <-. now exists ms.
  - destruct (py_pos ms i) as [j|]; [|discriminate H].
    destruct (nth_error ms j) as [m|]; [|discriminate H].
    simpl in H. destruct (IH _ H) as (ms' & -> & Hlen).
    exists ms'. split; [reflexivity|]. now rewrite Hlen, list_set_length.
Qed.

(** An averaging agent built over a regressor that supplies an ensemble of
    [n_approximators >= 2] models starts inside the round-robin schedule,
    and so do all the states its [fit] calls lead to: the target stays an
    ensemble of [n_approximators] slots. *)
Lemma init_schedule (c : variant) (pol : Policy) (gamma : Qc) (p : alg_params)
    (nact : nat) (g : Rng) (s0 : dqn) (ms0 : list Model) (l : list (Dataset * Z)) :
  averaged c = true ->
  0 < target_update_frequency p ->
  1 < n_approximators p ->
  regressor_target (n_approximators p) = Ensemble ms0 ->
  Z.of_nat (length ms0) = n_approximators p ->
  init c pol gamma p nact g = Ok s0 ->
  schedule_inv (fits l s0).
Proof.
  intros Hc Hf HN Hreg Hlen Hi. apply fits_schedule.
  destruct (init_fields _ _ _ _ _ _ _ Hi) as (h1 & h2 & _ & _ & h5 & _ & _ & h8 & _ & _).
  assert (Ht : exists ms, target_approximator s0 = Ensemble ms /\
                          length ms = length ms0).
  { unfold init in Hi. rewrite Hreg in Hi.
    destruct (Z.eqb_spec (n_approximators p) 1) as [E|_]; [lia|].
    destruct (init_slots (Ensemble ms0) _ _) as [t|e] eqn:Es; [|discriminate Hi].
    destruct (init_slots_ensemble _ _ _ _ Es) as (ms' & -> & Hl).
    exists ms'. split; [|exact Hl].
    destruct c; try discriminate Hc; simpl in Hi; injection Hi as <-; reflexivity. }
  destruct Ht as (ms & Ht & Hl).
  constructor; rewrite ?h1, ?h2, ?h5, ?h8; try assumption; try lia.
  - exists ms. split; [exact Ht|]. now rewrite Hl.
  - reflexivity.
Qed.

End Properties.

(** * Concrete runs in the small world *)

(** C1. [DoubleDQN._next_q] on a fresh two-action agent whose regressors
    value the actions at 5 and 3, for one absorbing next state: the value
    returned is 5, the target's value of action 0, not 0; and the
    regression target of [fit] for the reward 3 (clipped to 1) is
    [1 + 1 * 5 = 6] where an absorbing sample calls for 1. The three other
    classes return 0 on the same input. *)
Theorem double_dqn_absorbing_not_masked :
  let s := Toy.start DoubleDQN Toy.p_single in
  fst (_next_q (C := Toy.world) [[7]] [true] s) = Ok [of_Z 5] /\
  of_Z 5 <> 0%Qc /\
  In (TrainFit (C := Toy.world) [[1]] [[0]] [of_Z 6])
     (calls (snd (fit (C := Toy.world) Toy.d_absorbing 1 s))) /\
  fst (_next_q (C := Toy.world) [[7]] [true] (Toy.start DQN Toy.p_single)) = Ok [0%Qc] /\
  option_map (map this)
    (match fst (_next_q (C := Toy.world) [[7]] [true]
                  (Toy.start AveragedDQN Toy.p_ensemble)) with
     | Ok r => Some r | Raise _ => None end) = Some [0%Q] /\
  option_map (map this)
    (match fst (_next_q (C := Toy.world) [[7]] [true]
                  (Toy.start WeightedDQN Toy.p_ensemble)) with
     | Ok r => Some r | Raise _ => None end) = Some [0%Q].
Proof.
  cbv zeta. split; [vm_compute; reflexivity|]. split.
  - apply of_Z_neq_0. lia.
  - split; [|split; [|split]]; vm_compute; try reflexivity.
    do 4 right. left. reflexivity.
Qed.

(** Witness of C2: the first [fit] of a fresh single-target agent. *)
Lemma fit_one_iteration_witness :
  let s := Toy.start DQN Toy.p_single in
  let d := Toy.d_absorbing in
  cls s = DQN /\
  rm_add (Collaborators := Toy.world) (_replay_memory s) d = Ok d /\
  rm_get (Collaborators := Toy.world) d (batch_size (_params s)) (np_random s) = (Ok d, 0) /\
  length (mb_absorbing d) = length (mb_next_state d) /\
  length (mb_reward d) = length (mb_next_state d) /\
  n_actions s <> O /\
  let s1 := set_np_random (C := Toy.world) 0
              (log (C := Toy.world) (ReplayGet (C := Toy.world) (batch_size (_params s)))
                 (set_replay_memory (C := Toy.world) d
                    (log (C := Toy.world) (ReplayAdd (C := Toy.world) d) s))) in
  let reward := if clip_reward (_params s)
                then map (clip1 (of_Z (-1)) (of_Z 1)) (mb_reward d)
                else mb_reward d in
  let s2 := log (C := Toy.world) (TargetPredict (C := Toy.world) None (mb_next_state d)) s1 in
  exists next_q,
    _next_q (C := Toy.world) (mb_next_state d) (mb_absorbing d) s1 = (Ok next_q, s2) /\
    let y := map (fun p => (fst p + _gamma s * snd p)%Qc) (combine reward next_q) in
    let s3 := set_n_updates (_n_updates s + 1)
                (set_approximator (C := Toy.world)
                   (model_fit (Collaborators := Toy.world)
                      (approximator s) (mb_state d) (mb_action d) y)
                   (log (C := Toy.world) (TrainFit (C := Toy.world) (mb_state d) (mb_action d) y) s2)) in
    fit (C := Toy.world) d 1 s = _update_target s3 /\
    approximator s3 =
      model_fit (Collaborators := Toy.world) (approximator s) (mb_state d) (mb_action d) y /\
    target_approximator s3 = target_approximator s /\
    calls s3 = calls s ++ [ReplayAdd (C := Toy.world) d;
                           ReplayGet (C := Toy.world) (batch_size (_params s));
                           TargetPredict (C := Toy.world) None (mb_next_state d);
                           TrainFit (C := Toy.world) (mb_state d) (mb_action d) y] /\
    _n_updates s3 = _n_updates s + 1 /\
    length reward = length (mb_reward d) /\
    (forall i r, nth_error (mb_reward d) i = Some r ->
       exists r', nth_error reward i = Some r' /\
         if clip_reward (_params s)
         then (of_Z (-1) <= r' <= of_Z 1)%Qc /\
              ((of_Z (-1) <= r <= of_Z 1)%Qc -> r' = r) /\
              ((r < of_Z (-1))%Qc -> r' = of_Z (-1)) /\
              ((of_Z 1 < r)%Qc -> r' = of_Z 1)
         else r' = r).
Proof.
  cbv zeta.
  split; [reflexivity|]. split; [reflexivity|]. split; [reflexivity|].
  split; [reflexivity|]. split; [reflexivity|]. split; [vm_compute; lia|].
  apply (fit_one_iteration (C := Toy.world)
           (Toy.start DQN Toy.p_single) Toy.d_absorbing Toy.d_absorbing
           Toy.d_absorbing 0);
    first [reflexivity | vm_compute; lia].
Defined.

(** Counterexample to C3 as stated: with three slots and a sync at every
    update, the first sync after construction overwrites slot 1, where
    [(k - 1) mod N] names slot 0. *)
Lemma first_sync_overwrites_slot_one :
  let s0 := Toy.start AveragedDQN Toy.p_ensemble in
  let s := fits (C := Toy.world) [(Toy.d_live, 1)] s0 in
  _n_updates s0 = 0 /\
  sync_log (calls s0) = [] /\
  n_approximators (_params s0) = 3 /\
  sync_log (calls s) = [Some 1] /\
  ~ nth_error (sync_log (calls s)) 0 = Some (Some ((1 - 1) mod 3)).
Proof.
  cbv zeta. repeat split; try (vm_compute; reflexivity).
  vm_compute. discriminate.
Qed.

(** Witness of C3: four updates of a fresh three-slot agent. *)
Lemma round_robin_target_update_witness :
  let s0 := Toy.start AveragedDQN Toy.p_ensemble in
  let l := [(Toy.d_live, 1); (Toy.d_live, 1); (Toy.d_live, 1); (Toy.d_live, 1)] in
  averaged (cls s0) = true /\
  0 < target_update_frequency (_params s0) /\
  0 < n_approximators (_params s0) /\
  target_approximator s0 = Ensemble (repeat Toy.q0 3) /\
  Z.of_nat (length (repeat Toy.q0 3)) = n_approximators (_params s0) /\
  _n_updates s0 = 0 /\
  sync_log (calls s0) = [] /\
  let N := n_approximators (_params s0) in
  let s := fits (C := Toy.world) l s0 in
  let syncs := sync_log (calls s) in
  let K := _n_updates s / target_update_frequency (_params s0) in
  length syncs = Z.to_nat K /\
  (forall k, 1 <= k <= K ->
     nth_error syncs (Z.to_nat (k - 1)) = Some (Some (k mod N))) /\
  (forall j : nat, (j + Z.to_nat N <= length syncs)%nat ->
     Permutation (firstn (Z.to_nat N) (skipn j syncs)) (map Some (xrange N))) /\
  (forall d n,
     let s' := snd (fit d n s) in
     (sync_log (new_calls s s') = [] /\
      target_approximator s' = target_approximator s) \/
     (exists ms i m,
        target_approximator s = Ensemble ms /\
        nth_error ms i = Some m /\
        Z.of_nat i =
          (_n_updates s' / target_update_frequency (_params s0)) mod N /\
        target_approximator s' =
          Ensemble (list_set ms i (set_weights m (get_weights (approximator s')))) /\
        sync_log (new_calls s s') = [Some (Z.of_nat i)])).
Proof.
  cbv zeta.
  split; [reflexivity|]. split; [vm_compute; reflexivity|].
  split; [vm_compute; reflexivity|]. split; [reflexivity|].
  split; [reflexivity|]. split; [reflexivity|]. split; [reflexivity|].
  apply (round_robin_target_update (C := Toy.world)
           (Toy.start AveragedDQN Toy.p_ensemble) (repeat Toy.q0 3));
    first [reflexivity | vm_compute; reflexivity].
Defined.




(** Counterexample to C6 as stated: for an absorbing sample the value
    returned is 0, while the dot product of the weights with the mean
    values is 13/4. *)
Lemma weighted_absorbing_is_not_the_dot_product :
  let s := Toy.spread WeightedDQN in
  let fitted : list (@Model Toy.world) := firstn 2 Toy.slots in
  let dot := np_dot (map (weight (C := Toy.world) 2 fitted [7]) (seq 0 2))
                    (map (avg_q (C := Toy.world) fitted [7]) (seq 0 2)) in
  this dot = (13 # 4)%Q /\
  option_map (map this)
    (match fst (_next_q (C := Toy.world) [[7]] [true] s) with
     | Ok r => Some r | Raise _ => None end) = Some [0%Q] /\
  fst (_next_q (C := Toy.world) [[7]] [true] s) <> Ok [dot].
Proof.
  cbv zeta. split; [vm_compute; reflexivity|]. split; [vm_compute; reflexivity|].
  intros H.
  apply (f_equal (fun r => match r with Ok l => map this l | Raise _ => [] end)) in H.
  vm_compute in H. discriminate H.
Qed.

(** Witness of C6: the same two samples on the weighted agent. *)
Lemma WeightedDQN_next_q_weighted_witness :
  let s := Toy.spread WeightedDQN in
  let ns : list (@State Toy.world) := [[7]; [8]] in
  let ab := [true; false] in
  cls s = WeightedDQN /\
  target_approximator s = Ensemble Toy.slots /\
  1 <= _n_fitted_target_models s <= Z.of_nat (length Toy.slots) /\
  length ab = length ns /\
  n_actions s <> O /\
  let k := _n_fitted_target_models s in
  let n := n_actions s in
  let fitted : list (@Model Toy.world) := firstn (Z.to_nat k) Toy.slots in
  let w st := map (weight (C := Toy.world) n fitted st) (seq 0 n) in
  let means st := map (avg_q (C := Toy.world) fitted st) (seq 0 n) in
  _next_q (C := Toy.world) ns ab s =
    (Ok (map (fun p => (np_dot (w (fst p)) (means (fst p)) * one_minus (snd p))%Qc)
             (combine ns ab)),
     log_all (map (fun i => TargetPredict (C := Toy.world) (Some i) ns) (xrange k)) s) /\
  (forall st a,
     weight (C := Toy.world) n fitted st a =
       (of_Z (Z.of_nat (count_occ Nat.eq_dec (slot_argmax n fitted st) a)) / of_Z k)%Qc) /\
  (forall st a,
     Forall (eq a) (slot_argmax (C := Toy.world) n fitted st) ->
     np_dot (w st) (means st) = avg_q fitted st a) /\
  (forall st a b,
     a <> b ->
     Forall (fun i => i = a \/ i = b) (slot_argmax (C := Toy.world) n fitted st) ->
     count_occ Nat.eq_dec (slot_argmax n fitted st) a =
     count_occ Nat.eq_dec (slot_argmax n fitted st) b ->
     Qcsum (w st) = 1%Qc /\
     weight n fitted st a = (1 / of_Z 2)%Qc /\
     weight n fitted st b = (1 / of_Z 2)%Qc /\
     np_dot (w st) (means st) =
       (1 / of_Z 2 * avg_q fitted st a + 1 / of_Z 2 * avg_q fitted st b)%Qc).
Proof.
  cbv zeta.
  split; [reflexivity|]. split; [reflexivity|]. split; [vm_compute; split; discriminate|].
  split; [reflexivity|]. split; [vm_compute; lia|].
  apply (WeightedDQN_next_q_weighted (C := Toy.world)
           [[7]; [8]] [true; false] Toy.slots (Toy.spread WeightedDQN));
    first [reflexivity | vm_compute; lia | vm_compute; split; discriminate].
Defined.

(** Witness of C7: a fresh three-slot agent. *)
Lemma n_fitted_target_models_schedule_witness :
  let p := Toy.p_ensemble in
  let s0 := Toy.start AveragedDQN p in
  averaged AveragedDQN = true /\
  1 <= n_approximators p /\
  init (C := Toy.world) AveragedDQN O (of_Z 1) p 2%nat 0 = Ok s0 /\
  _n_fitted_target_models s0 = 1 /\
  forall l : list (method (C := Toy.world)),
    let s := run_methods l s0 in
    1 <= _n_fitted_target_models s <= n_approximators p /\
    (forall m : method,
       let s' := run_method m s in
       _n_fitted_target_models s' =
         _n_fitted_target_models s +
         (if synced s s' && (_n_fitted_target_models s <? n_approximators p)
          then 1 else 0)) /\
    (forall l' : list method,
       let s' := run_methods l' s in
       _n_fitted_target_models s <= _n_fitted_target_models s' /\
       (_n_fitted_target_models s = n_approximators p ->
        _n_fitted_target_models s' = n_approximators p)).
Proof.
  cbv zeta. split; [reflexivity|]. split; [vm_compute; discriminate|].
  split; [vm_compute; reflexivity|].
  apply (n_fitted_target_models_schedule (C := Toy.world)
           AveragedDQN O (of_Z 1) Toy.p_ensemble 2%nat 0
           (Toy.start AveragedDQN Toy.p_ensemble));
    first [reflexivity | vm_compute; discriminate | vm_compute; reflexivity].
Defined.

(** Witness of C8: [n_iterations] 0 and 2 on a fresh agent. *)
Lemma fit_n_iterations_witness :
  let s := Toy.start DQN Toy.p_single in
  let d := Toy.d_live in
  let s1 := set_replay_memory (C := Toy.world) d
              (log (C := Toy.world) (ReplayAdd (C := Toy.world) d) s) in
  rm_add (Collaborators := Toy.world) (_replay_memory s) d = Ok d /\
  fit (C := Toy.world) d 0 s = (Ok tt, s1) /\
  fit (C := Toy.world) d 2 s = (Raise AssertionError, s1) /\
  (exists rest,
     calls (snd (fit (C := Toy.world) d 2 s)) =
     calls s ++ ReplayAdd (C := Toy.world) d :: rest).
Proof.
  cbv zeta.
  assert (Hadd : rm_add (Collaborators := Toy.world)
                   (_replay_memory (Toy.start DQN Toy.p_single)) Toy.d_live
                 = Ok Toy.d_live) by reflexivity.
  split; [exact Hadd|]. split; [|split].
  - exact (proj1 (proj2 (proj2 (fit_n_iterations (C := Toy.world)
             (Toy.start DQN Toy.p_single) Toy.d_live 0) Toy.d_live Hadd)) eq_refl).
  - apply (proj2 (proj2 (proj2 (fit_n_iterations (C := Toy.world)
             (Toy.start DQN Toy.p_single) Toy.d_live 2) Toy.d_live Hadd))); lia.
  - exact (proj1 (fit_n_iterations (C := Toy.world)
             (Toy.start DQN Toy.p_single) Toy.d_live 2)).
Defined.

(** Witness of C9: an agent with [history_length = 1] and
    [max_no_op_actions = 3], after an episode start and one action. *)
Lemma episode_no_op_protocol_witness :
  let p := Toy.p_single in
  let s0 := Toy.start DQN p in
  let l : list (method (C := Toy.world)) :=
    [CallEpisodeStart; CallDrawAction (C := Toy.world) 7] in
  let f : @Frame Toy.world := 8 in
  init (C := Toy.world) DQN O (of_Z 1) p 2%nat 0 = Ok s0 /\
  let s := run_methods l s0 in
  let lo := history_length p in
  let hi := max_no_op_actions p in
  (lo <= hi -> int64_lowbnd <= lo -> hi < int64_highbnd ->
   let r := episode_start s in
   let d := rng_randint (Collaborators := Toy.world) (np_random s) lo (hi + 1) in
   fst r = Ok tt /\
   _episode_steps (snd r) = 0 /\
   _no_op_actions (snd r) = Some (fst d) /\
   lo <= fst d <= hi /\
   np_random (snd r) = snd d /\
   calls (snd r) = calls s ++ [RandInt (C := Toy.world) lo (hi + 1)] /\
   _buffer (snd r) = _buffer s /\
   policy (snd r) = policy s /\
   approximator (snd r) = approximator s) /\
  (let r := draw_action f s in
   _buffer (snd r) = Buffer_add (_buffer s) f /\
   exists rest, calls (snd r) = calls s ++ BufferAdd f :: rest) /\
  (forall n, _no_op_actions s = Some n -> _episode_steps s < n ->
     let r := draw_action f s in
     fst r = Ok [no_op_action_value p] /\
     _episode_steps (snd r) = _episode_steps s + 1 /\
     _no_op_actions (snd r) = Some n /\
     policy (snd r) = policy_update (policy s) /\
     approximator (snd r) = approximator s /\
     np_random (snd r) = np_random s /\
     calls (snd r) = calls s ++ [BufferAdd f; PolicyUpdate (C := Toy.world)]) /\
  (forall n ext a p' g',
     _no_op_actions s = Some n -> n <= _episode_steps s ->
     Buffer_get (Buffer_add (_buffer s) f) = Ok ext ->
     agent_draw_action (policy s) (approximator s) ext (np_random s) = (Ok a, p', g') ->
     let r := draw_action f s in
     fst r = Ok a /\
     _episode_steps (snd r) = _episode_steps s + 1 /\
     _no_op_actions (snd r) = Some n /\
     policy (snd r) = p' /\
     np_random (snd r) = g' /\
     approximator (snd r) = approximator s /\
     calls (snd r) = calls s ++ [BufferAdd f; BufferGet (C := Toy.world);
                                 PolicyDrawAction (C := Toy.world) ext]).
Proof.
  cbv zeta. split; [vm_compute; reflexivity|].
  apply (episode_no_op_protocol (C := Toy.world)
           DQN O (of_Z 1) Toy.p_single 2%nat 0 (Toy.start DQN Toy.p_single)
           [CallEpisodeStart; CallDrawAction (C := Toy.world) 7] 8).
  vm_compute. reflexivity.
Defined.

(** Witness of C10: the default [max_no_op_actions = 0] and
    [history_length = 1]. *)
Lemma episode_start_empty_range_witness :
  let p := Toy.p_default in
  let s0 := Toy.start DQN p in
  let l : list (method (C := Toy.world)) :=
    [CallFit (C := Toy.world) Toy.d_live 1; CallDrawAction (C := Toy.world) 7] in
  init (C := Toy.world) DQN O (of_Z 1) p 2%nat 0 = Ok s0 /\
  max_no_op_actions p < history_length p /\
  let s := run_methods l s0 in
  episode_start s =
    (Raise ValueError, log (RandInt (history_length p) (max_no_op_actions p + 1)) s) /\
  _episode_steps (snd (episode_start s)) = _episode_steps s /\
  _no_op_actions (snd (episode_start s)) = _no_op_actions s.
Proof.
  cbv zeta. split; [vm_compute; reflexivity|]. split; [vm_compute; reflexivity|].
  apply (episode_start_empty_range (C := Toy.world)
           DQN O (of_Z 1) Toy.p_default 2%nat 0 (Toy.start DQN Toy.p_default)
           [CallFit (C := Toy.world) Toy.d_live 1; CallDrawAction (C := Toy.world) 7]);
    vm_compute; reflexivity.
Defined.

(** * Further properties of the methods *)

Ltac pres_auto Hrefl Htrans tac :=
  repeat match goal with
  | |- preserves _ (bind _ _) => apply (preserves_bind _ Htrans); [|intros ?]
  | |- preserves _ (ret _) => apply (preserves_ret _ Hrefl)
  | |- preserves _ (raise _) => apply (preserves_raise _ Hrefl)
  | |- preserves _ (lift _) => apply (preserves_lift _ Hrefl)
  | |- preserves _ (gets _) => apply (preserves_gets _ Hrefl)
  | |- preserves _ (py_assert _) => apply (preserves_assert _ Hrefl)
  | |- preserves _ (modify _) => apply preserves_modify; intros ?; tac
  | |- preserves _ (mapM _ _) => apply (preserves_mapM _ Hrefl Htrans); intros ?
  | |- preserves _ (if ?b then _ else _) => destruct b
  | |- preserves _ (match ?x with _ => _ end) => destruct x
  end.

Section Coverage.
Context {C : Collaborators}.

(** ** Learning and acting do not interfere *)

Lemma keeps_episode_refl (s : dqn) : keeps_episode s s.
Proof. now constructor. Qed.

Lemma keeps_episode_trans (s1 s2 s3 : dqn) :
  keeps_episode s1 s2 -> keeps_episode s2 s3 -> keeps_episode s1 s3.
Proof. intros [] []. constructor; congruence. Qed.

Lemma keeps_learning_refl (s : dqn) : keeps_learning s s.
Proof. now constructor. Qed.

Lemma keeps_learning_trans (s1 s2 s3 : dqn) :
  keeps_learning s1 s2 -> keeps_learning s2 s3 -> keeps_learning s1 s3.
Proof. intros [] []. constructor; congruence. Qed.

Lemma fit_preserves_episode (d : Dataset) (n : Z) :
  preserves keeps_episode (fit d n).
Proof.
  unfold fit, replay_memory_add, replay_memory_get, approximator_fit,
    _next_q, DQN_next_q, DoubleDQN_next_q, AveragedDQN_next_q, WeightedDQN_next_q,
    mask_rows, mask_vec, approximator_predict, target_predict, target_predict_at,
    target_predict_idx, _update_target, DQN_update_target,
    AveragedDQN_update_target, target_set_weights, target_set_weights_idx.
  pres_auto keeps_episode_refl keeps_episode_trans ltac:(constructor; reflexivity).
Qed.

Lemma draw_action_preserves_learning (f : Frame) :
  preserves keeps_learning (draw_action f).
Proof.
  unfold draw_action, buffer_add, buffer_get, policy_do_update, Agent_draw_action.
  pres_auto keeps_learning_refl keeps_learning_trans ltac:(constructor; reflexivity).
Qed.

Lemma episode_start_preserves_learning :
  preserves keeps_learning episode_start.
Proof.
  unfold episode_start, np_random_randint.
  pres_auto keeps_learning_refl keeps_learning_trans ltac:(constructor; reflexivity).
Qed.

(** X1. A [fit] call, whatever its arguments and its outcome, leaves the
    acting side of the agent alone: the frame buffer, the policy,
    [episode_steps] and [no_op_actions] are what they were; and so after
    any sequence of [fit] calls. *)
Theorem fit_leaves_acting_state (l : list (Dataset * Z)) (s : dqn) :
  let s' := fits l s in
  _buffer s' = _buffer s /\ policy s' = policy s /\
  _episode_steps s' = _episode_steps s /\ _no_op_actions s' = _no_op_actions s.
Proof.
  cbv zeta. revert s. induction l as [|[d n] l IH]; intros s; simpl.
  - now repeat split.
  - destruct (IH (snd (fit d n s))) as (h1 & h2 & h3 & h4).
    destruct (fit_preserves_episode d n s) as [k1 k2 k3 k4].
    repeat split; congruence.
Qed.

(** X2. [draw_action] and [episode_start], whatever they return or raise,
    leave the learning side of the agent alone: the replay memory, the
    train and the target regressor, [n_updates] and
    [n_fitted_target_models] are what they were. *)
Theorem acting_leaves_learning_state (f : Frame) (s : dqn) :
  keeps_learning s (snd (draw_action f s)) /\
  keeps_learning s (snd (episode_start s)).
Proof.
  split.
  - apply draw_action_preserves_learning.
  - apply episode_start_preserves_learning.
Qed.

(** ** [n_updates] counts the fits of the train approximator *)

Lemma train_fits_app (l1 l2 : list call) :
  train_fits (l1 ++ l2) = (train_fits l1 + train_fits l2)%nat.
Proof.
  induction l1 as [|c l1 IH]; simpl; [reflexivity|].
  destruct c; simpl; now rewrite IH.
Qed.

Lemma quiet_refl (s : dqn) : quiet s s.
Proof. constructor; [reflexivity|]. exists []. now rewrite app_nil_r. Qed.

Lemma quiet_trans (s1 s2 s3 : dqn) : quiet s1 s2 -> quiet s2 s3 -> quiet s1 s3.
Proof.
  intros [a1 (l & a2 & a3)] [b1 (l' & b2 & b3)]. constructor; [congruence|].
  exists (l ++ l'). split.
  - now rewrite b2, a2, app_assoc.
  - now rewrite train_fits_app, a3, b3.
Qed.

Ltac quiet_modify :=
  constructor;
  [ reflexivity
  | first [ eexists [_]; split; reflexivity
          | exists []; split; [symmetry; apply app_nil_r | reflexivity] ] ].

Lemma quiet_replay_memory_add (d : Dataset) : preserves quiet (replay_memory_add d).
Proof.
  unfold replay_memory_add.
  pres_auto quiet_refl quiet_trans ltac:(quiet_modify).
Qed.

Lemma quiet_replay_memory_get (n : Z) : preserves quiet (replay_memory_get n).
Proof.
  unfold replay_memory_get.
  pres_auto quiet_refl quiet_trans ltac:(quiet_modify).
Qed.

Lemma quiet_next_q (ns : list State) (ab : list bool) : preserves quiet (_next_q ns ab).
Proof.
  unfold _next_q, DQN_next_q, DoubleDQN_next_q, AveragedDQN_next_q, WeightedDQN_next_q,
    mask_rows, mask_vec, approximator_predict, target_predict, target_predict_at,
    target_predict_idx.
  pres_auto quiet_refl quiet_trans ltac:(quiet_modify).
Qed.

Lemma quiet_update_target : preserves quiet _update_target.
Proof.
  unfold _update_target, DQN_update_target,
    AveragedDQN_update_target, target_set_weights, target_set_weights_idx.
  pres_auto quiet_refl quiet_trans ltac:(quiet_modify).
Qed.

Lemma quiet_draw_action (f : Frame) : preserves quiet (draw_action f).
Proof.
  unfold draw_action, buffer_add, buffer_get, policy_do_update, Agent_draw_action.
  pres_auto quiet_refl quiet_trans ltac:(quiet_modify).
Qed.

Lemma quiet_episode_start : preserves quiet episode_start.
Proof.
  unfold episode_start, np_random_randint.
  pres_auto quiet_refl quiet_trans ltac:(quiet_modify).
Qed.

(** The head of [fit]: it raises without having fitted anything, or it
    returns after exactly one fit of the train approximator, its last
    call. *)
Lemma fit_head_cases (d : Dataset) (n : Z) (s : dqn) :
  (quiet s (snd (fit_head d n s)) /\ exists e, fst (fit_head d n s) = Raise e) \/
  (exists sm ss acts y,
     quiet s sm /\
     fit_head d n s =
       (Ok tt, set_approximator (model_fit (approximator sm) ss acts y)
                 (log (TrainFit ss acts y) sm))).
Proof.
  unfold fit_head. cbv [bind gets lift].
  destruct (n =? 1); simpl py_assert; cbv [ret raise].
  2:{ left. split; [apply quiet_refl | now exists AssertionError]. }
  pose proof (quiet_replay_memory_get (batch_size (_params s)) s) as H1.
  destruct (replay_memory_get (batch_size (_params s)) s) as [[b|e] s1]; simpl in H1.
  2:{ left. split; [exact H1 | now exists e]. }
  pose proof (quiet_next_q (mb_next_state b) (mb_absorbing b) s1) as H2.
  destruct (_next_q (mb_next_state b) (mb_absorbing b) s1) as [[qn|e] s2]; simpl in H2.
  2:{ left. split; [exact (quiet_trans _ _ _ H1 H2) | now exists e]. }
  destruct (broadcast2 _ _ _) as [y|e].
  2:{ left. split; [exact (quiet_trans _ _ _ H1 H2) | now exists e]. }
  right. exists s2, (mb_state b), (mb_action b), y.
  split; [exact (quiet_trans _ _ _ H1 H2) | reflexivity].
Qed.

(** One [fit] call keeps [n_updates] equal to the number of logged fits
    of the train approximator. *)
Lemma fit_counts_train_fits (d : Dataset) (n : Z) (s : dqn) :
  _n_updates s = Z.of_nat (train_fits (calls s)) ->
  _n_updates (snd (fit d n s)) = Z.of_nat (train_fits (calls (snd (fit d n s)))).
Proof.
  intros Inv.
  assert (Hq : forall s1 s2, _n_updates s1 = Z.of_nat (train_fits (calls s1)) ->
                 quiet s1 s2 -> _n_updates s2 = Z.of_nat (train_fits (calls s2))).
  { intros s1 s2 I [q1 (l & q2 & q3)]. rewrite q1, q2, train_fits_app, q3, I. f_equal. lia. }
  rewrite fit_unfold.
  pose proof (quiet_replay_memory_add d s) as H1.
  destruct (replay_memory_add d s) as [[[]|e] s1]; simpl in H1.
  2:{ exact (Hq _ _ Inv H1). }
  pose proof (Hq _ _ Inv H1) as Inv1.
  destruct (n =? 0); [exact Inv1|].
  destruct (fit_head_cases d n s1) as [[Hh (e & He)] | (sm & ss & acts & y & Hm & E)].
  - destruct (fit_head d n s1) as [[[]|e'] s2]; simpl in *; [discriminate He|].
    exact (Hq _ _ Inv1 Hh).
  - rewrite E.
    pose proof (Hq _ _ Inv1 Hm) as Invm.
    set (s3 := set_n_updates _ _).
    apply (Hq s3); [|apply quiet_update_target].
    unfold s3. simpl. rewrite train_fits_app. simpl. rewrite Invm. lia.
Qed.

(** X3. On every instance, after any sequence of calls of [fit],
    [draw_action] and [episode_start] (whatever each returned or raised),
    [n_updates] is exactly the number of times the train approximator was
    fitted since construction. *)
Theorem n_updates_counts_train_fits
    (c : variant) (pol : Policy) (gamma : Qc) (p : alg_params)
    (nact : nat) (g : Rng) (s0 : dqn) (l : list method) :
  init c pol gamma p nact g = Ok s0 ->
  _n_updates (run_methods l s0) = Z.of_nat (train_fits (calls (run_methods l s0))).
Proof.
  intros Hi.
  destruct (init_fields _ _ _ _ _ _ _ Hi) as (_ & _ & _ & _ & h5 & _ & _ & h8 & _).
  assert (Inv0 : _n_updates s0 = Z.of_nat (train_fits (calls s0)))
    by (rewrite h5, h8; reflexivity).
  clear Hi h5 h8. revert s0 Inv0.
  induction l as [|m l IH]; intros s Inv; simpl; [exact Inv|].
  apply IH. destruct m as [d n|f|]; simpl.
  - now apply fit_counts_train_fits.
  - destruct (quiet_draw_action f s) as [q1 (l' & q2 & q3)].
    rewrite q1, q2, train_fits_app, q3, Inv. f_equal. lia.
  - destruct (quiet_episode_start s) as [q1 (l' & q2 & q3)].
    rewrite q1, q2, train_fits_app, q3, Inv. f_equal. lia.
Qed.

(** ** Failures of [fit] *)

(** X4. When the replay memory takes the dataset but cannot deliver a
    minibatch, [fit(dataset, 1)] raises what the memory raised, having
    done nothing but the two calls to the memory: the dataset stays
    added, nothing was predicted or fitted, and [n_updates] and both
    regressors are untouched. *)
Theorem fit_failed_sampling (s : dqn) (d : Dataset) (rm1 : ReplayMemory)
    (e : exn) (g' : Rng) :
  rm_add (_replay_memory s) d = Ok rm1 ->
  rm_get rm1 (batch_size (_params s)) (np_random s) = (Raise e, g') ->
  let s' := set_np_random g'
              (log (ReplayGet (batch_size (_params s)))
                 (set_replay_memory rm1 (log (ReplayAdd d) s))) in
  fit d 1 s = (Raise e, s') /\
  _replay_memory s' = rm1 /\
  _n_updates s' = _n_updates s /\
  approximator s' = approximator s /\
  target_approximator s' = target_approximator s /\
  calls s' = calls s ++ [ReplayAdd d; ReplayGet (batch_size (_params s))].
Proof.
  intros Hadd Hget. cbv zeta. split.
  - rewrite fit_unfold, (run_replay_memory_add d s rm1 Hadd).
    simpl Z.eqb. cbv iota. unfold fit_head. simpl py_assert.
    cbv [bind gets ret].
    set (s0 := set_replay_memory rm1 (log (ReplayAdd d) s)).
    assert (Hget' : rm_get (_replay_memory s0) (batch_size (_params s0)) (np_random s0)
                    = (Raise e, g')) by exact Hget.
    rewrite (run_replay_memory_get _ s0 _ _ Hget'). reflexivity.
  - repeat split. simpl. now rewrite <- app_assoc.
Qed.

Lemma update_target_zero_frequency (s : dqn) :
  target_update_frequency (_params s) = 0 ->
  _update_target s = (Raise ZeroDivisionError, s).
Proof.
  intros Hf. unfold _update_target. unfold bind at 1, gets at 1.
  destruct (cls s); unfold DQN_update_target, AveragedDQN_update_target;
    cbv [bind gets lift py_mod]; rewrite Hf; reflexivity.
Qed.

(** X5. With [target_update_frequency = 0] no call [fit(dataset, 1)]
    returns. Either it raises before the update is counted, or it raises
    the [ZeroDivisionError] of [n_updates % 0] in [_update_target], and
    then the train approximator has already been fitted once and
    [n_updates] already incremented. *)
Theorem fit_zero_frequency (s : dqn) (d : Dataset) :
  target_update_frequency (_params s) = 0 ->
  let r := fst (fit d 1 s) in
  let s' := snd (fit d 1 s) in
  (exists e, r = Raise e) /\
  ((_n_updates s' = _n_updates s /\ train_fits (new_calls s s') = O) \/
   (r = Raise ZeroDivisionError /\ _n_updates s' = _n_updates s + 1 /\
    train_fits (new_calls s s') = 1%nat)).
Proof.
  intros Hf. cbv zeta. rewrite fit_unfold.
  pose proof (quiet_replay_memory_add d s) as H1.
  pose proof (frame_replay_memory_add d s) as F1.
  destruct (replay_memory_add d s) as [[[]|e] s1]; simpl in H1, F1.
  2:{ simpl. split; [now exists e|]. left.
      destruct H1 as [q1 (l & q2 & q3)]. split; [exact q1|].
      now rewrite (new_calls_app _ _ _ q2). }
  simpl Z.eqb. cbv iota.
  pose proof (frame_fit_head d 1 s1) as F2.
  destruct (fit_head_cases d 1 s1) as [[Hh (e & He)] | (sm & ss & acts & y & Hm & E)].
  - destruct (fit_head d 1 s1) as [[[]|e'] s2]; simpl in *; [discriminate He|].
    split; [now exists e'|]. left.
    destruct (quiet_trans _ _ _ H1 Hh) as [q1 (l & q2 & q3)]. split; [exact q1|].
    now rewrite (new_calls_app _ _ _ q2).
  - rewrite E in *. simpl in F2.
    set (s3 := set_n_updates _ _).
    assert (Hf3 : target_update_frequency (_params s3) = 0).
    { pose proof (frame_params _ _ F2) as P2. simpl in P2.
      unfold s3. simpl. rewrite P2, (frame_params _ _ F1). exact Hf. }
    rewrite (update_target_zero_frequency s3 Hf3). simpl.
    split; [now exists ZeroDivisionError|]. right.
    destruct (quiet_trans _ _ _ H1 Hm) as [q1 (l & q2 & q3)].
    split; [reflexivity|]. split.
    + rewrite q1. reflexivity.
    + rewrite (new_calls_app s s3 (l ++ [TrainFit ss acts y])).
      * rewrite train_fits_app, q3. reflexivity.
      * unfold s3. simpl. rewrite q2. now rewrite app_assoc.
Qed.

(** ** Construction *)

Lemma list_set_split {A : Type} (l : list A) (a : nat) (m x : A) :
  nth_error l a = Some m ->
  list_set l a x = firstn a l ++ x :: skipn (S a) l.
Proof.
  revert a. induction l as [|y l IH]; intros [|a] H; simpl in *; try discriminate.
  - reflexivity.
  - f_equal. now apply IH.
Qed.

Lemma init_slots_range (w : Weights) (k a : nat) (ms : list Model) :
  (a + k <= length ms)%nat ->
  init_slots (Ensemble ms) w (map Z.of_nat (seq a k)) =
  Ok (Ensemble (firstn a ms ++
                map (fun m => set_weights m w) (firstn k (skipn a ms)) ++
                skipn (a + k) ms)).
Proof.
  revert a ms. induction k as [|k IH]; intros a ms Hle.
  - simpl. rewrite Nat.add_0_r, firstn_skipn. reflexivity.
  - simpl seq. simpl map. simpl init_slots.
    destruct (target_slot_in_range ms (Z.of_nat a) ltac:(lia)) as (m & Hm & Hs).
    rewrite Nat2Z.id in Hm, Hs. unfold target_slot in Hs. rewrite Hs. cbn [fst snd].
    rewrite (list_set_split ms a m _ Hm).
    set (x := set_weights m w).
    assert (Hfa : length (firstn a ms) = a) by (rewrite length_firstn; lia).
    rewrite IH by (rewrite length_app, Hfa; cbn [length]; rewrite length_skipn; lia).
    f_equal. f_equal.
    replace (firstn (S a) (firstn a ms ++ x :: skipn (S a) ms))
      with (firstn a ms ++ [x]).
    2:{ rewrite firstn_app, Hfa. replace (S a - a)%nat with 1%nat by lia.
        rewrite (firstn_all2 (n := S a) (firstn a ms)) by lia. reflexivity. }
    replace (skipn (S a) (firstn a ms ++ x :: skipn (S a) ms))
      with (skipn (S a) ms).
    2:{ rewrite skipn_app, Hfa. replace (S a - a)%nat with 1%nat by lia.
        rewrite (skipn_all2 (n := S a) (firstn a ms)) by lia. reflexivity. }
    replace (skipn (S a + k) (firstn a ms ++ x :: skipn (S a) ms))
      with (skipn (a + S k) ms).
    2:{ rewrite skipn_app, Hfa.
        rewrite (skipn_all2 (n := (S a + k)%nat) (firstn a ms)) by lia.
        replace (S a + k - a)%nat with (S k) by lia. rewrite skipn_cons.
        rewrite skipn_skipn. cbn [app]. f_equal. lia. }
    rewrite (skipn_nth_error ms a m Hm). simpl. rewrite <- app_assoc. reflexivity.
Qed.

(** X6. [DQN.__init__] with [n_approximators <> 1] over a regressor that
    supplies an ensemble of [n_approximators] models: construction
    succeeds for the two base classes, and for the two averaging classes
    too; the loop over [model[i].set_weights(...)] has given every slot of
    the target ensemble the weights of the train approximator, and
    [n_updates = 0], [episode_steps = 0], [no_op_actions = None], with the
    policy the one passed in. *)
Theorem init_ensemble_copies_train
    (c : variant) (pol : Policy) (gamma : Qc) (p : alg_params)
    (nact : nat) (g : Rng) (ms : list Model) :
  n_approximators p <> 1 ->
  regressor_target (n_approximators p) = Ensemble ms ->
  Z.of_nat (length ms) = n_approximators p ->
  exists s0,
    init c pol gamma p nact g = Ok s0 /\
    approximator s0 = regressor_train /\
    target_approximator s0 =
      Ensemble (map (fun m => set_weights m (get_weights regressor_train)) ms) /\
    _n_updates s0 = 0 /\ _episode_steps s0 = 0 /\ _no_op_actions s0 = None /\
    policy s0 = pol.
Proof.
  intros HN Hreg Hlen. unfold init. rewrite Hreg.
  destruct (Z.eqb_spec (n_approximators p) 1) as [E|_]; [contradiction|].
  unfold xrange. rewrite (init_slots_range _ _ 0 ms) by lia.
  rewrite <- Hlen, Nat2Z.id. simpl firstn. simpl skipn.
  rewrite firstn_all, skipn_all, app_nil_r. simpl app.
  destruct c; simpl; eexists; (split; [reflexivity|]); simpl; now repeat split.
Qed.

(** X7. [DQN.__init__] with [n_approximators = 1] over a regressor that
    supplies a single model: the two base classes are constructed with
    the target holding the weights of the train approximator, while the
    constructors of [AveragedDQN] and [WeightedDQN] raise the
    [AssertionError] of [assert isinstance(..., Ensemble)]. *)
Theorem init_single_model
    (c : variant) (pol : Policy) (gamma : Qc) (p : alg_params)
    (nact : nat) (g : Rng) (tm : Model) :
  n_approximators p = 1 ->
  regressor_target 1 = Single tm ->
  (averaged c = true -> init c pol gamma p nact g = Raise AssertionError) /\
  (averaged c = false ->
   exists s0,
     init c pol gamma p nact g = Ok s0 /\
     approximator s0 = regressor_train /\
     target_approximator s0 =
       Single (set_weights tm (get_weights regressor_train)) /\
     _n_updates s0 = 0 /\ _episode_steps s0 = 0 /\ _no_op_actions s0 = None).
Proof.
  intros HN Hreg. unfold init. rewrite HN, Hreg. simpl Z.eqb. cbv iota.
  split; intros Hc; destruct c; try discriminate Hc; simpl; try reflexivity;
    eexists; (split; [reflexivity|]); simpl; now repeat split.
Qed.

(** ** The no-op phase of an episode *)

Lemma iter_policy_update_succ (k : nat) (p : Policy) :
  Nat.iter k policy_update (policy_update p) = Nat.iter (S k) policy_update p.
Proof.
  induction k as [|k IH]; [reflexivity|]. simpl in *. now rewrite IH.
Qed.

Lemma draw_actions_no_op (fs : list Frame) (s : dqn) (n : Z) :
  _no_op_actions s = Some n ->
  _episode_steps s + Z.of_nat (length fs) <= n ->
  let s' := snd (draw_actions fs s) in
  fst (draw_actions fs s) = map (fun _ => Ok [no_op_action_value (_params s)]) fs /\
  _episode_steps s' = _episode_steps s + Z.of_nat (length fs) /\
  _no_op_actions s' = Some n /\
  policy s' = Nat.iter (length fs) policy_update (policy s) /\
  _buffer s' = Buffer_add_all (_buffer s) fs /\
  calls s' = calls s ++ flat_map (fun f => [BufferAdd f; PolicyUpdate]) fs.
Proof.
  revert s. induction fs as [|f fs IH]; intros s Hn Hle; cbv zeta.
  - simpl. repeat split; try lia; try assumption. now rewrite app_nil_r.
  - simpl length in Hle. simpl draw_actions.
    rewrite (run_draw_action_no_op f s n Hn ltac:(lia)).
    set (s1 := set_episode_steps _ _).
    specialize (IH s1 Hn). cbv zeta in IH.
    assert (Hle1 : _episode_steps s1 + Z.of_nat (length fs) <= n)
      by (unfold s1; simpl; lia).
    destruct (IH Hle1) as (h1 & h2 & h3 & h4 & h5 & h6).
    destruct (draw_actions fs s1) as [rest s2]. simpl in *.
    rewrite h1, h2, h3, h4, h5, h6. repeat split.
    + lia.
    + now rewrite iter_policy_update_succ.
    + now rewrite <- !app_assoc.
Qed.

Lemma episode_start_ok (s0 s : dqn) :
  episode_start s0 = (Ok tt, s) ->
  exists n,
    size (_buffer s0) <= n <= max_no_op_actions (_params s0) /\
    _no_op_actions s = Some n /\ _episode_steps s = 0 /\
    _params s = _params s0 /\ policy s = policy s0 /\ _buffer s = _buffer s0.
Proof.
  intros H. unfold episode_start, np_random_randint in H.
  cbv [bind gets modify lift ret raise] in H. cbn [_buffer _params log] in H.
  destruct (Z.ltb_spec (size (_buffer s0)) int64_lowbnd) as [|Hlo]; [discriminate H|].
  destruct (Z.ltb_spec int64_highbnd (max_no_op_actions (_params s0) + 1)) as [|Hhi];
    [discriminate H|].
  destruct (Z.leb_spec (max_no_op_actions (_params s0) + 1) (size (_buffer s0))) as [|Hlt];
    [discriminate H|].
  injection H as <-.
  eexists. split; [|now repeat split].
  pose proof (rng_randint_range (np_random s0) (size (_buffer s0))
                (max_no_op_actions (_params s0) + 1)) as B.
  unfold int64_lowbnd, int64_highbnd in Hlo, Hhi. cbn [np_random]. lia.
Qed.

(** X8. After [episode_start] has returned, with [n] the number it drew
    ([buffer.size <= n <= max_no_op_actions]): each of the next [k <= n]
    calls of [draw_action] returns the no-op action
    [[no_op_action_value]]; together they push their [k] frames into the
    frame buffer, call [policy.update()] exactly [k] times, make no other
    call, and leave [episode_steps = k]; and after exactly [n] of them the
    no-op test of the next call fails, so that call goes to the policy. *)
Theorem no_op_phase (s0 s : dqn) (fs : list Frame) :
  episode_start s0 = (Ok tt, s) ->
  exists n,
    _no_op_actions s = Some n /\
    size (_buffer s0) <= n <= max_no_op_actions (_params s0) /\
    (Z.of_nat (length fs) <= n ->
     let s' := snd (draw_actions fs s) in
     fst (draw_actions fs s) = map (fun _ => Ok [no_op_action_value (_params s0)]) fs /\
     _episode_steps s' = Z.of_nat (length fs) /\
     policy s' = Nat.iter (length fs) policy_update (policy s0) /\
     _buffer s' = Buffer_add_all (_buffer s0) fs /\
     calls s' = calls s ++ flat_map (fun f => [BufferAdd f; PolicyUpdate]) fs /\
     (Z.of_nat (length fs) = n ->
      py2_lt_opt (_episode_steps s') (_no_op_actions s') = false)).
Proof.
  intros H. destruct (episode_start_ok s0 s H) as (n & Hn & Hno & Hst & Hp & Hpol & Hb).
  exists n. split; [exact Hno|]. split; [exact Hn|].
  intros Hle. cbv zeta.
  destruct (draw_actions_no_op fs s n Hno ltac:(lia)) as (h1 & h2 & h3 & h4 & h5 & h6).
  rewrite h1, h2, h3, h4, h5, h6, Hst, Hp, Hpol, Hb.
  repeat split. intros E. simpl. apply Z.ltb_ge. lia.
Qed.

(** ** The frame buffer is full when the policy is first consulted *)

Lemma Buffer_add_ok (b : Buffer) (f : Frame) :
  buffer_ok b ->
  buffer_ok (Buffer_add b f) /\
  size (Buffer_add b f) = size b /\
  Z.of_nat (length (frames (Buffer_add b f))) =
    Z.min (Z.of_nat (length (frames b)) + 1) (size b).
Proof.
  intros [H0 Hl]. unfold buffer_ok, Buffer_add. cbn [size frames].
  rewrite length_skipn, length_app. cbn [length]. lia.
Qed.

Lemma Buffer_add_all_ok (fs : list Frame) (b : Buffer) :
  buffer_ok b ->
  buffer_ok (Buffer_add_all b fs) /\
  size (Buffer_add_all b fs) = size b /\
  Z.of_nat (length (frames (Buffer_add_all b fs))) =
    Z.min (Z.of_nat (length (frames b)) + Z.of_nat (length fs)) (size b).
Proof.
  revert b. induction fs as [|f fs IH]; intros b Hb.
  - simpl. destruct Hb. repeat split; try assumption. lia.
  - simpl. destruct (Buffer_add_ok b f Hb) as (h1 & h2 & h3).
    destruct (IH _ h1) as (i1 & i2 & i3).
    unfold Buffer_add_all in *. split; [exact i1|]. split; [congruence|].
    rewrite i3, h2, h3. destruct Hb. lia.
Qed.

Lemma episode_start_buffer (s : dqn) :
  _buffer (snd (episode_start s)) = _buffer s.
Proof.
  unfold episode_start, np_random_randint. cbv [bind gets modify lift ret raise].
  cbn [_buffer _params log].
  destruct (_ <? _); [reflexivity|].
  destruct (_ <? _); [reflexivity|].
  destruct (_ <=? _); reflexivity.
Qed.

Lemma run_methods_buffer_ok (l : list method) (s : dqn) :
  buffer_ok (_buffer s) -> buffer_ok (_buffer (run_methods l s)).
Proof.
  revert s. induction l as [|m l IH]; intros s H; simpl; [exact H|].
  apply IH. destruct m as [d n|f|]; simpl.
  - now rewrite (ke_buffer _ _ (fit_preserves_episode d n s)).
  - destruct (draw_action_first_call f s) as (rest & _ & ->).
    exact (proj1 (Buffer_add_ok _ f H)).
  - now rewrite episode_start_buffer.
Qed.

(** X9. On an instance with [history_length >= 0], in any state reached
    after construction: once [episode_start] has returned and
    [draw_action] has been called for the whole no-op phase, the next
    [draw_action] finds the frame buffer full. Its [buffer.get()] returns
    an extended state of [history_length] frames, the policy is asked for
    that state, and the call returns the policy's action whenever the
    policy returns one. *)
Theorem first_policy_action_finds_buffer_full
    (c : variant) (pol : Policy) (gamma : Qc) (p : alg_params)
    (nact : nat) (g : Rng) (s0 s : dqn) (l : list method)
    (fs : list Frame) (f : Frame) :
  init c pol gamma p nact g = Ok s0 ->
  0 <= history_length p ->
  episode_start (run_methods l s0) = (Ok tt, s) ->
  _no_op_actions s = Some (Z.of_nat (length fs)) ->
  let s' := snd (draw_actions fs s) in
  exists ext,
    Buffer_get (Buffer_add (_buffer s') f) = Ok ext /\
    Z.of_nat (length ext) = history_length p /\
    calls (snd (draw_action f s')) =
      calls s' ++ [BufferAdd f; BufferGet; PolicyDrawAction ext] /\
    (forall a p' g',
       agent_draw_action (policy s') (approximator s') ext (np_random s') = (Ok a, p', g') ->
       fst (draw_action f s') = Ok a).
Proof.
  intros Hi Hh He Hno. cbv zeta.
  destruct (init_fields _ _ _ _ _ _ _ Hi) as (_ & _ & _ & _ & _ & _ & _ & _ & Hsz0 & _).
  assert (Hb0 : buffer_ok (_buffer s0)).
  { unfold init in Hi.
    destruct (if n_approximators p =? 1 then _ else _) as [t|e]; [|discriminate Hi].
    destruct c; simpl in Hi;
      try (destruct (is_ensemble t); [|discriminate Hi]);
      injection Hi as <-; split; simpl; lia. }
  destruct (run_methods_params_size l s0) as (_ & Hsz).
  pose proof (run_methods_buffer_ok l s0 Hb0) as Hb1.
  destruct (episode_start_ok _ _ He) as (n & Hn & Hno' & Hst & _ & _ & Hbuf).
  rewrite Hno in Hno'. injection Hno' as Hlen.
  destruct (draw_actions_no_op fs s _ Hno ltac:(lia)) as (_ & h2 & h3 & _ & h5 & _).
  set (s' := snd (draw_actions fs s)) in *.
  assert (Hbs : buffer_ok (_buffer s)) by (rewrite Hbuf; exact Hb1).
  destruct (Buffer_add_all_ok fs _ Hbs) as (a1 & a2 & a3).
  rewrite <- h5 in a1, a2, a3.
  destruct (Buffer_add_ok (_buffer s') f a1) as (b1 & b2 & b3).
  assert (Hsize : size (_buffer s') = history_length p).
  { rewrite a2, Hbuf, Hsz. exact Hsz0. }
  assert (Hfull : Z.of_nat (length (frames (Buffer_add (_buffer s') f))) =
                  size (Buffer_add (_buffer s') f)).
  { rewrite b3, b2, a3. rewrite a2. destruct Hbs as [Hs0 Hs1].
    rewrite Hbuf in *. lia. }
  exists (frames (Buffer_add (_buffer s') f)).
  assert (Hget : Buffer_get (Buffer_add (_buffer s') f) =
                 Ok (frames (Buffer_add (_buffer s') f))).
  { unfold Buffer_get. rewrite Hfull, Z.eqb_refl. reflexivity. }
  assert (Hlt : py2_lt_opt (_episode_steps s') (_no_op_actions s') = false).
  { rewrite h2, h3, Hst. simpl. apply Z.ltb_ge. lia. }
  split; [exact Hget|]. split; [rewrite Hfull, b2; exact Hsize|]. split.
  - unfold draw_action, buffer_add, buffer_get, Agent_draw_action.
    cbv [bind gets modify lift ret]. simpl. rewrite Hlt.
    unfold Buffer_get, Buffer_add in Hget |- *. simpl in Hget |- *.
    rewrite Hget. simpl.
    destruct (agent_draw_action _ _ _ _) as [[[a|e] p'] g']; simpl;
      now rewrite <- !app_assoc.
  - intros a p' g' Hd.
    now rewrite (run_draw_action_policy f s' _ a p' g' Hlt Hget Hd).
Qed.

(** ** Acting before any [episode_start] *)

Lemma draw_action_keeps_no_op (f : Frame) (s : dqn) :
  _no_op_actions (snd (draw_action f s)) = _no_op_actions s.
Proof.
  unfold draw_action, buffer_add, buffer_get, policy_do_update, Agent_draw_action.
  cbv [bind gets modify lift ret].
  destruct (py2_lt_opt _ _); [reflexivity|].
  destruct (Buffer_get _) as [ext|e]; [|reflexivity].
  destruct (agent_draw_action _ _ _ _) as [[[a|e] p'] g']; reflexivity.
Qed.

Lemma run_methods_no_op_none (l : list method) (s : dqn) :
  no_episode_start l = true ->
  _no_op_actions (run_methods l s) = _no_op_actions s.
Proof.
  revert s. induction l as [|m l IH]; intros s H; simpl; [reflexivity|].
  simpl in H. apply andb_prop in H as [Hm Hl]. rewrite (IH _ Hl).
  destruct m as [d n|f|]; simpl.
  - exact (ke_no_op _ _ (fit_preserves_episode d n s)).
  - apply draw_action_keeps_no_op.
  - discriminate Hm.
Qed.

(** X10. [__init__] leaves [_no_op_actions] at [None], and only
    [episode_start] assigns it. As long as [episode_start] has not been
    called, the test [self._episode_steps < self._no_op_actions] of
    [draw_action] compares an integer with [None] and is false, so
    [draw_action] never plays the no-op action and never calls
    [policy.update()]: it asks the buffer for the extended state and
    returns what the policy draws, or fails with the buffer's error
    before the step counter is incremented. *)
Theorem draw_action_before_episode_start
    (c : variant) (pol : Policy) (gamma : Qc) (p : alg_params)
    (nact : nat) (g : Rng) (s0 : dqn) (l : list method) (f : Frame) :
  init c pol gamma p nact g = Ok s0 ->
  no_episode_start l = true ->
  let s := run_methods l s0 in
  _no_op_actions s = None /\
  match Buffer_get (Buffer_add (_buffer s) f) with
  | Ok ext =>
      fst (draw_action f s) =
        fst (fst (agent_draw_action (policy s) (approximator s) ext (np_random s))) /\
      calls (snd (draw_action f s)) =
        calls s ++ [BufferAdd f; BufferGet; PolicyDrawAction ext]
  | Raise e =>
      fst (draw_action f s) = Raise e /\
      calls (snd (draw_action f s)) = calls s ++ [BufferAdd f; BufferGet] /\
      _episode_steps (snd (draw_action f s)) = _episode_steps s
  end.
Proof.
  intros Hi Hl. cbv zeta.
  assert (Hn : _no_op_actions (run_methods l s0) = None).
  { rewrite (run_methods_no_op_none l s0 Hl).
    now destruct (init_fields _ _ _ _ _ _ _ Hi) as (_ & _ & _ & _ & _ & _ & ? & _). }
  split; [exact Hn|].
  set (s := run_methods l s0) in *.
  unfold draw_action, buffer_add, buffer_get, Agent_draw_action.
  cbv [bind gets modify lift ret]. simpl. rewrite Hn. simpl.
  destruct (Buffer_get _) as [ext|e]; simpl.
  - destruct (agent_draw_action _ _ _ _) as [[[a|e] p'] g']; simpl;
      now rewrite <- !app_assoc.
  - now rewrite <- !app_assoc.
Qed.

(** ** [DoubleDQN._next_q] against [DQN._next_q] *)

Lemma Qcltb_true (x y : Qc) : Qcltb x y = true -> (x < y)%Qc.
Proof.
  unfold Qcltb, Qcleb. intros H. apply negb_true_iff in H.
  apply Qcnot_le_lt. intros Hle. apply Qle_bool_iff in Hle. congruence.
Qed.

Lemma Qcltb_false (x y : Qc) : Qcltb x y = false -> (y <= x)%Qc.
Proof.
  unfold Qcltb, Qcleb. intros H. apply negb_false_iff in H.
  now apply Qle_bool_iff in H.
Qed.

Lemma Qcmax_l (x y : Qc) : (x <= Qcmax x y)%Qc.
Proof.
  unfold Qcmax. destruct (Qcltb x y) eqn:E.
  - apply Qclt_le_weak. now apply Qcltb_true.
  - apply Qcle_refl.
Qed.

Lemma Qcmax_r (x y : Qc) : (y <= Qcmax x y)%Qc.
Proof.
  unfold Qcmax. destruct (Qcltb x y) eqn:E.
  - apply Qcle_refl.
  - now apply Qcltb_false.
Qed.

Lemma fold_Qcmax_ge (l : list Qc) (b : Qc) :
  (b <= fold_left Qcmax l b)%Qc /\
  forall x, In x l -> (x <= fold_left Qcmax l b)%Qc.
Proof.
  revert b. induction l as [|y l IH]; intros b; simpl.
  - split; [apply Qcle_refl|contradiction].
  - destruct (IH (Qcmax b y)) as [H1 H2]. split.
    + eapply Qcle_trans; [apply Qcmax_l|exact H1].
    + intros x [<-|Hx]; [|now apply H2].
      eapply Qcle_trans; [apply Qcmax_r|exact H1].
Qed.

Lemma row_max_ge (row : list Qc) (x : Qc) :
  In x row -> (x <= row_max row)%Qc.
Proof.
  destruct row as [|y r]; [contradiction|]. simpl.
  destruct (fold_Qcmax_ge r y) as [H1 H2].
  intros [<-|Hx]; [exact H1|now apply H2].
Qed.

Lemma argmax_from_max (l pre : list Qc) (best : Qc) (besti : nat) :
  nth besti (pre ++ l) 0%Qc = best ->
  nth (argmax_from best besti (length pre) l) (pre ++ l) 0%Qc =
  fold_left Qcmax l best.
Proof.
  revert pre best besti. induction l as [|x l IH]; intros pre best besti H; simpl.
  - exact H.
  - replace (pre ++ x :: l) with ((pre ++ [x]) ++ l) in * by now rewrite <- app_assoc.
    replace (S (length pre)) with (length (pre ++ [x]))
      by (rewrite length_app; simpl; lia).
    change (Qcmax best x) with (if Qcltb best x then x else best).
    destruct (Qcltb best x).
    + apply IH. rewrite app_nth1 by (rewrite length_app; simpl; lia).
      now rewrite nth_middle.
    + now apply IH.
Qed.

Lemma row_argmax_max (row : list Qc) :
  nth (row_argmax row) row 0%Qc = row_max row.
Proof.
  destruct row as [|x r]; [reflexivity|].
  exact (argmax_from_max r [x] x 0 eq_refl).
Qed.

(** X11. For a sample that is not absorbing, [DoubleDQN._next_q] returns
    the target's value of the action that maximises the train
    approximator's values in the next state, where [DQN._next_q] on the
    same agent returns the maximum of the target's values. The former
    never exceeds the latter, and the two are equal when the two
    approximators give the same values in that state. *)
Theorem double_q_at_most_max_q (ns : list State) (ab : list bool) (s : dqn)
    (i : nat) (x : State) :
  length ab = length ns ->
  n_actions s <> O ->
  nth_error ns i = Some x ->
  nth_error ab i = Some false ->
  exists r r' v',
    fst (DoubleDQN_next_q ns ab s) = Ok r /\
    fst (DQN_next_q ns ab s) = Ok r' /\
    let a := row_argmax (map (predict (approximator s) x) (seq 0 (n_actions s))) in
    (a < n_actions s)%nat /\
    nth_error r i = Some (target_q (target_approximator s) x a) /\
    nth_error r' i = Some v' /\
    v' = row_max (map (target_q (target_approximator s) x) (seq 0 (n_actions s))) /\
    (target_q (target_approximator s) x a <= v')%Qc /\
    ((forall b, (b < n_actions s)%nat ->
        target_q (target_approximator s) x b = predict (approximator s) x b) ->
     target_q (target_approximator s) x a = v').
Proof.
  intros Hlen Hn Hx Hi.
  rewrite run_DoubleDQN_next_q, run_DQN_next_q by assumption.
  eexists _, _,
    (row_max (map (target_q (target_approximator s) x) (seq 0 (n_actions s)))).
  split; [reflexivity|]. split; [reflexivity|]. cbv zeta.
  set (n := n_actions s) in *. set (t := target_q (target_approximator s)).
  assert (Ha : (row_argmax (map (predict (approximator s) x) (seq 0 n)) < n)%nat).
  { pose proof (row_argmax_bound (map (predict (approximator s) x) (seq 0 n))) as H.
    rewrite length_map, length_seq in H. apply H.
    destruct n; [contradiction|discriminate]. }
  split; [exact Ha|]. split.
  { rewrite (map_nth_error _ _ _ (nth_error_combine _ _ _ _ _ Hx Hi)).
    simpl. now rewrite masked_row_false. }
  split.
  { unfold max_values.
    rewrite (map_nth_error _ _ _ (nth_error_combine _ _ _ _ _ Hx Hi)).
    simpl. rewrite masked_row_false. reflexivity. }
  split; [reflexivity|]. split.
  - apply row_max_ge. apply in_map_iff. eexists. split; [reflexivity|].
    apply in_seq. lia.
  - intros Heq.
    assert (Hm : map (t x) (seq 0 n) = map (predict (approximator s) x) (seq 0 n)).
    { apply map_ext_in. intros b Hb. apply in_seq in Hb. apply Heq. lia. }
    rewrite Hm, <- row_argmax_max.
    set (a := row_argmax _) in *.
    rewrite (nth_indep _ 0%Qc (predict (approximator s) x 0%nat))
      by (rewrite length_map, length_seq; exact Ha).
    rewrite (map_nth (predict (approximator s) x)), seq_nth by exact Ha.
    simpl. apply Heq. exact Ha.
Qed.

(** ** One fitted slot *)

Lemma avg_q_single (m : Model) (x : State) (a : nat) :
  avg_q [m] x a = predict m x a.
Proof.
  unfold avg_q. simpl. change (of_Z 1) with 1%Qc. field. discriminate.
Qed.

(** X13. While a single slot of the ensemble is fitted
    ([_n_fitted_target_models = 1], as after construction and until the
    second synchronisation), [AveragedDQN._next_q] and
    [WeightedDQN._next_q] return the same values: per sample the maximum
    over the actions of [(1 - absorbing)] times the predictions of slot 0,
    which is what [DQN._next_q] computes from a single target model. *)
Theorem one_fitted_slot_is_max_q (ns : list State) (ab : list bool)
    (m : Model) (ms : list Model) (s : dqn) :
  target_approximator s = Ensemble (m :: ms) ->
  _n_fitted_target_models s = 1 ->
  length ab = length ns ->
  n_actions s <> O ->
  fst (AveragedDQN_next_q ns ab s) =
    Ok (max_values (n_actions s) (predict m) ns ab) /\
  fst (WeightedDQN_next_q ns ab s) =
    Ok (max_values (n_actions s) (predict m) ns ab).
Proof.
  intros Ht Hk Hlen Hn.
  assert (Hr : 0 <= _n_fitted_target_models s <= Z.of_nat (length (m :: ms)))
    by (rewrite Hk; simpl; lia).
  rewrite (run_AveragedDQN_next_q ns ab _ s Ht Hr Hlen Hn).
  rewrite (run_WeightedDQN_next_q ns ab _ s Ht Hr Hlen Hn).
  rewrite Hk. change (firstn (Z.to_nat 1) (m :: ms)) with [m]. cbn [fst].
  split; f_equal.
  - unfold max_values. apply map_ext. intros [x b]. cbn [fst snd].
    f_equal. unfold masked_row. apply map_ext. intros a.
    now rewrite avg_q_single.
  - unfold weighted_values, max_values. apply map_ext. intros [x b]. cbn [fst snd].
    destruct b.
    + rewrite (row_max_zeros _ (masked_row_true _ _)). simpl. ring.
    + rewrite masked_row_false. simpl. rewrite Qcmult_1_r.
      set (a := row_argmax (map (predict m x) (seq 0 (n_actions s)))).
      assert (Ha : (a < n_actions s)%nat).
      { pose proof (row_argmax_bound (map (predict m x) (seq 0 (n_actions s)))) as H.
        rewrite length_map, length_seq in H. apply H.
        destruct (n_actions s); [contradiction|discriminate]. }
      destruct (weighted_q_unanimous (n_actions s) [m] x a Hn ltac:(discriminate))
        as [_ ->].
      * unfold slot_argmax. simpl. constructor; [reflexivity|constructor].
      * rewrite avg_q_single, <- row_argmax_max. fold a.
        symmetry. now apply nth_map_seq.
Qed.

(** ** Regression targets of absorbing samples *)

Lemma next_q_masked (ns : list State) (ab : list bool) (s : dqn) :
  cls s <> DoubleDQN ->
  (cls s = DQN \/
   exists ms, target_approximator s = Ensemble ms /\
              1 <= _n_fitted_target_models s <= Z.of_nat (length ms)) ->
  length ab = length ns ->
  n_actions s <> O ->
  exists r s', _next_q ns ab s = (Ok r, s') /\
    length r = length ns /\
    forall i, nth_error ab i = Some true -> nth_error r i = Some 0%Qc.
Proof.
  intros Hnd Hpre Hlen Hn.
  destruct (cls s) eqn:Hc; [| contradiction | |].
  - rewrite next_q_base by exact Hc. rewrite run_DQN_next_q by assumption.
    eexists _, _. split; [reflexivity|]. split; [now apply max_values_length|].
    intros i Hi. now apply max_values_absorbing.
  - destruct Hpre as [Hd|(ms & Ht & Hk)]; [discriminate Hd|].
    rewrite next_q_averaged by exact Hc.
    rewrite (run_AveragedDQN_next_q ns ab ms s Ht ltac:(lia) Hlen Hn).
    eexists _, _. split; [reflexivity|]. split; [now apply max_values_length|].
    intros i Hi. now apply max_values_absorbing.
  - destruct Hpre as [Hd|(ms & Ht & Hk)]; [discriminate Hd|].
    rewrite next_q_weighted by exact Hc.
    rewrite (run_WeightedDQN_next_q ns ab ms s Ht ltac:(lia) Hlen Hn).
    eexists _, _. split; [reflexivity|]. split.
    + unfold weighted_values. rewrite length_map, length_combine. lia.
    + intros i Hi. now apply weighted_values_absorbing.
Qed.

(** X14. On [DQN], [AveragedDQN] and [WeightedDQN] (the latter two with an
    ensemble target and [1 <= n_fitted_target_models <=] number of slots),
    a call [fit(dataset, 1)] whose replay memory returns an aligned
    minibatch fits the train approximator exactly once, on the sampled
    states and actions and on a target vector of the batch's length in
    which the entry of every absorbing sample is the reward alone (the
    clipped reward when [clip_reward] is set, which then lies in
    [-1, 1]): nothing is bootstrapped from a terminal transition. *)
Theorem absorbing_target_is_reward (s : dqn) (d : Dataset) (rm1 : ReplayMemory)
    (b : minibatch State Action) (g' : Rng) :
  cls s <> DoubleDQN ->
  (cls s = DQN \/
   exists ms, target_approximator s = Ensemble ms /\
              1 <= _n_fitted_target_models s <= Z.of_nat (length ms)) ->
  rm_add (_replay_memory s) d = Ok rm1 ->
  rm_get rm1 (batch_size (_params s)) (np_random s) = (Ok b, g') ->
  length (mb_absorbing b) = length (mb_next_state b) ->
  length (mb_reward b) = length (mb_next_state b) ->
  n_actions s <> O ->
  let reward := if clip_reward (_params s)
                then map (clip1 (of_Z (-1)) (of_Z 1)) (mb_reward b)
                else mb_reward b in
  exists y pre post,
    calls (snd (fit d 1 s)) =
      calls s ++ [ReplayAdd d; ReplayGet (batch_size (_params s))] ++ pre ++
      TrainFit (mb_state b) (mb_action b) y :: post /\
    train_fits pre = O /\ train_fits post = O /\
    length y = length (mb_reward b) /\
    forall i, nth_error (mb_absorbing b) i = Some true ->
      nth_error y i = nth_error reward i /\
      (clip_reward (_params s) = true ->
       exists v, nth_error y i = Some v /\ (of_Z (-1) <= v <= of_Z 1)%Qc).
Proof.
  intros Hnd Hpre Hadd Hget Hab Hrw Hn. cbv zeta.
  set (s0 := set_replay_memory rm1 (log (ReplayAdd d) s)).
  set (s1 := set_np_random g' (log (ReplayGet (batch_size (_params s))) s0)).
  destruct (next_q_masked (mb_next_state b) (mb_absorbing b) s1 Hnd Hpre Hab Hn)
    as (r & s2 & Hq & Hlr & Hz).
  pose proof (quiet_next_q (mb_next_state b) (mb_absorbing b) s1) as Q2.
  pose proof (frame_next_q (mb_next_state b) (mb_absorbing b) s1) as F2.
  rewrite Hq in Q2, F2. cbn [snd] in Q2, F2.
  destruct Q2 as [_ (pre & Hpre2 & Hpre0)].
  set (reward := if clip_reward (_params s)
                 then map (clip1 (of_Z (-1)) (of_Z 1)) (mb_reward b)
                 else mb_reward b).
  assert (Hlrw : length reward = length (mb_reward b)).
  { unfold reward. destruct (clip_reward (_params s)); now rewrite ?length_map. }
  set (y := map (fun p => (fst p + _gamma s * snd p)%Qc) (combine reward r)).
  set (s3 := set_approximator (model_fit (approximator s2) (mb_state b) (mb_action b) y)
               (log (TrainFit (mb_state b) (mb_action b) y) s2)).
  assert (Hfit : fit d 1 s = _update_target (set_n_updates (_n_updates s3 + 1) s3)).
  { rewrite fit_unfold. rewrite (run_replay_memory_add d s rm1 Hadd). fold s0.
    simpl Z.eqb. cbv iota. unfold fit_head. simpl py_assert.
    cbv [bind gets ret]. fold (bind (A := list Qc) (B := unit)).
    assert (Hget' : rm_get (_replay_memory s0) (batch_size (_params s0)) (np_random s0)
                    = (Ok b, g')) by exact Hget.
    rewrite (run_replay_memory_get _ s0 _ _ Hget').
    change (set_np_random g' (log (ReplayGet (batch_size (_params s0))) s0)) with s1.
    rewrite Hq.
    change (clip_reward (_params s1)) with (clip_reward (_params s)).
    rewrite (frame_gamma _ _ F2). change (_gamma s1) with (_gamma s).
    unfold lift. fold reward. unfold np_clip. fold reward.
    rewrite broadcast2_same by (rewrite length_map; congruence).
    rewrite combine_map_r, map_map. simpl. fold y.
    unfold approximator_fit. cbv [bind gets modify]. simpl.
    reflexivity. }
  pose proof (quiet_update_target (set_n_updates (_n_updates s3 + 1) s3)) as Q3.
  rewrite <- Hfit in Q3. destruct Q3 as [_ (post & Hpost & Hpost0)].
  exists y, pre, post. split; [|split; [exact Hpre0|split; [exact Hpost0|split]]].
  - rewrite Hpost. simpl calls at 1. rewrite Hpre2. simpl.
    rewrite <- !app_assoc. reflexivity.
  - unfold y. rewrite length_map, length_combine. lia.
  - intros i Hi.
    destruct (nth_error_in_range reward i) as (v & Hv).
    { rewrite Hlrw, Hrw, <- Hab. apply nth_error_Some. congruence. }
    assert (Hy : nth_error y i = Some v).
    { unfold y. rewrite (map_nth_error _ _ _ (nth_error_combine _ _ _ _ _ Hv (Hz i Hi))).
      simpl. f_equal. ring. }
    split; [now rewrite Hy, Hv|].
    intros Hclip. exists v. split; [exact Hy|].
    unfold reward in Hv. rewrite Hclip in Hv.
    apply nth_error_In, in_map_iff in Hv. destruct Hv as (x & <- & _).
    apply clip1_spec. unfold Qcle. simpl. discriminate.
Qed.

End Coverage.

(** * Concrete runs for the further properties *)

(** Witness of X3: two fits and an action on a fresh single-target agent. *)
Lemma n_updates_counts_train_fits_witness :
  let s0 := Toy.start DQN Toy.p_single in
  let l := [CallFit (C := Toy.world) Toy.d_live 1; CallDrawAction (C := Toy.world) 4;
            CallFit (C := Toy.world) Toy.d_live 1] in
  init (C := Toy.world) DQN O (of_Z 1) Toy.p_single 2%nat 0 = Ok s0 /\
  _n_updates (run_methods l s0) = Z.of_nat (train_fits (calls (run_methods l s0))) /\
  _n_updates (run_methods l s0) = 2.
Proof.
  cbv zeta. split; [reflexivity|]. split.
  - apply (n_updates_counts_train_fits (C := Toy.world) DQN O (of_Z 1) Toy.p_single 2%nat 0).
    reflexivity.
  - vm_compute. reflexivity.
Defined.

(** Witness of X4: an empty dataset on an empty memory, from which no
    minibatch of one transition can be sampled. *)
Lemma fit_failed_sampling_witness :
  let s := Toy.start DQN Toy.p_single in
  let d : Toy.batch := Minibatch [] [] [] [] [] in
  rm_add (Collaborators := Toy.world) (_replay_memory s) d = Ok d /\
  rm_get (Collaborators := Toy.world) d (batch_size (_params s)) (np_random s) =
    (Raise InvalidState, 0) /\
  let s' := set_np_random (C := Toy.world) 0
              (log (C := Toy.world) (ReplayGet (C := Toy.world) (batch_size (_params s)))
                 (set_replay_memory (C := Toy.world) d
                    (log (C := Toy.world) (ReplayAdd (C := Toy.world) d) s))) in
  fit (C := Toy.world) d 1 s = (Raise InvalidState, s') /\
  _replay_memory s' = d /\
  _n_updates s' = _n_updates s /\
  approximator s' = approximator s /\
  target_approximator s' = target_approximator s /\
  calls s' = calls s ++ [ReplayAdd (C := Toy.world) d;
                         ReplayGet (C := Toy.world) (batch_size (_params s))].
Proof.
  cbv zeta. split; [reflexivity|]. split; [reflexivity|].
  apply (fit_failed_sampling (C := Toy.world) (Toy.start DQN Toy.p_single)
           (Minibatch [] [] [] [] [])); reflexivity.
Defined.

(** Witness of X5: an agent built with [target_update_frequency = 0]. *)
Lemma fit_zero_frequency_witness :
  let s := Toy.start DQN (Toy.params 1 0 3 1) in
  let d := Toy.d_live in
  target_update_frequency (_params s) = 0 /\
  let r := fst (fit (C := Toy.world) d 1 s) in
  let s' := snd (fit (C := Toy.world) d 1 s) in
  (exists e, r = Raise e) /\
  ((_n_updates s' = _n_updates s /\ train_fits (new_calls s s') = O) \/
   (r = Raise ZeroDivisionError /\ _n_updates s' = _n_updates s + 1 /\
    train_fits (new_calls s s') = 1%nat)).
Proof.
  cbv zeta. split; [reflexivity|].
  apply (fit_zero_frequency (C := Toy.world) (Toy.start DQN (Toy.params 1 0 3 1)) Toy.d_live).
  reflexivity.
Defined.

(** Witness of X6: the construction of a three-slot averaging agent. *)
Lemma init_ensemble_copies_train_witness :
  let p := Toy.p_ensemble in
  let ms : list (@Model Toy.world) := repeat [0%Qc; 0%Qc] 3 in
  n_approximators p <> 1 /\
  regressor_target (Collaborators := Toy.world) (n_approximators p) = Ensemble ms /\
  Z.of_nat (length ms) = n_approximators p /\
  exists s0,
    init (C := Toy.world) AveragedDQN O (of_Z 1) p 2%nat 0 = Ok s0 /\
    approximator s0 = regressor_train (Collaborators := Toy.world) /\
    target_approximator s0 =
      Ensemble (map (fun m => set_weights (Collaborators := Toy.world) m
                                (get_weights (Collaborators := Toy.world)
                                   (regressor_train (Collaborators := Toy.world)))) ms) /\
    _n_updates s0 = 0 /\ _episode_steps s0 = 0 /\ _no_op_actions s0 = None /\
    policy s0 = O.
Proof.
  cbv zeta. split; [vm_compute; discriminate|]. split; [reflexivity|].
  split; [reflexivity|].
  apply (init_ensemble_copies_train (C := Toy.world) AveragedDQN O (of_Z 1)
           Toy.p_ensemble 2%nat 0 (repeat [0%Qc; 0%Qc] 3)).
  - vm_compute. discriminate.
  - reflexivity.
  - reflexivity.
Defined.

(** Witness of X7: the construction of an agent with a single target
    model. *)
Lemma init_single_model_witness :
  let p := Toy.p_single in
  let tm : @Model Toy.world := [0%Qc; 0%Qc] in
  n_approximators p = 1 /\
  regressor_target (Collaborators := Toy.world) 1 = Single tm /\
  init (C := Toy.world) WeightedDQN O (of_Z 1) p 2%nat 0 = Raise AssertionError /\
  exists s0,
    init (C := Toy.world) DoubleDQN O (of_Z 1) p 2%nat 0 = Ok s0 /\
    approximator s0 = regressor_train (Collaborators := Toy.world) /\
    target_approximator s0 =
      Single (set_weights (Collaborators := Toy.world) tm
                (get_weights (Collaborators := Toy.world)
                   (regressor_train (Collaborators := Toy.world)))) /\
    _n_updates s0 = 0 /\ _episode_steps s0 = 0 /\ _no_op_actions s0 = None.
Proof.
  cbv zeta. split; [reflexivity|]. split; [reflexivity|]. split.
  - apply (init_single_model (C := Toy.world) WeightedDQN O (of_Z 1) Toy.p_single 2%nat 0
             [0%Qc; 0%Qc]); reflexivity.
  - apply (init_single_model (C := Toy.world) DoubleDQN O (of_Z 1) Toy.p_single 2%nat 0
             [0%Qc; 0%Qc]); reflexivity.
Defined.

(** Witness of X8: the first episode of a fresh agent, whose no-op phase
    lasts one step. *)
Lemma no_op_phase_witness :
  let s0 := Toy.start DQN Toy.p_single in
  let s := snd (episode_start (C := Toy.world) s0) in
  let fs : list (@Frame Toy.world) := [7] in
  episode_start (C := Toy.world) s0 = (Ok tt, s) /\
  exists n,
    _no_op_actions s = Some n /\
    size (_buffer s0) <= n <= max_no_op_actions (_params s0) /\
    (Z.of_nat (length fs) <= n ->
     let s' := snd (draw_actions (C := Toy.world) fs s) in
     fst (draw_actions (C := Toy.world) fs s) =
       map (fun _ => Ok [no_op_action_value (_params s0)]) fs /\
     _episode_steps s' = Z.of_nat (length fs) /\
     policy s' = Nat.iter (length fs) (policy_update (Collaborators := Toy.world)) (policy s0) /\
     _buffer s' = Buffer_add_all (C := Toy.world) (_buffer s0) fs /\
     calls s' = calls s ++ flat_map (fun f => [BufferAdd (C := Toy.world) f;
                                               PolicyUpdate (C := Toy.world)]) fs /\
     (Z.of_nat (length fs) = n ->
      py2_lt_opt (_episode_steps s') (_no_op_actions s') = false)).
Proof.
  cbv zeta. split; [reflexivity|].
  apply (no_op_phase (C := Toy.world) (Toy.start DQN Toy.p_single)). reflexivity.
Defined.

(** Witness of X9: the step after the one-step no-op phase of a fresh
    agent with [history_length = 1]. *)
Lemma first_policy_action_finds_buffer_full_witness :
  let p := Toy.p_single in
  let s0 := Toy.start DQN p in
  let s := snd (episode_start (C := Toy.world) s0) in
  let fs : list (@Frame Toy.world) := [7] in
  let f : @Frame Toy.world := 8 in
  init (C := Toy.world) DQN O (of_Z 1) p 2%nat 0 = Ok s0 /\
  0 <= history_length p /\
  episode_start (C := Toy.world) (run_methods (C := Toy.world) [] s0) = (Ok tt, s) /\
  _no_op_actions s = Some (Z.of_nat (length fs)) /\
  let s' := snd (draw_actions (C := Toy.world) fs s) in
  exists ext,
    Buffer_get (C := Toy.world) (Buffer_add (C := Toy.world) (_buffer s') f) = Ok ext /\
    Z.of_nat (length ext) = history_length p /\
    calls (snd (draw_action (C := Toy.world) f s')) =
      calls s' ++ [BufferAdd (C := Toy.world) f; BufferGet (C := Toy.world);
                   PolicyDrawAction (C := Toy.world) ext] /\
    (forall a p' g',
       agent_draw_action (Collaborators := Toy.world)
         (policy s') (approximator s') ext (np_random s') = (Ok a, p', g') ->
       fst (draw_action (C := Toy.world) f s') = Ok a).
Proof.
  cbv zeta. split; [reflexivity|]. split; [vm_compute; discriminate|].
  split; [reflexivity|]. split; [reflexivity|].
  apply (first_policy_action_finds_buffer_full (C := Toy.world)
           DQN O (of_Z 1) Toy.p_single 2%nat 0 (Toy.start DQN Toy.p_single)
           (snd (episode_start (C := Toy.world) (Toy.start DQN Toy.p_single)))
           [] [7] 8).
  - reflexivity.
  - vm_compute. discriminate.
  - reflexivity.
  - reflexivity.
Defined.

(** Witness of X10: an agent that has been fitted once and is asked for
    an action without [episode_start]. *)
Lemma draw_action_before_episode_start_witness :
  let p := Toy.p_single in
  let s0 := Toy.start DQN p in
  let l := [CallFit (C := Toy.world) Toy.d_live 1] in
  let f : @Frame Toy.world := 7 in
  init (C := Toy.world) DQN O (of_Z 1) p 2%nat 0 = Ok s0 /\
  no_episode_start l = true /\
  let s := run_methods l s0 in
  _no_op_actions s = None /\
  match Buffer_get (C := Toy.world) (Buffer_add (C := Toy.world) (_buffer s) f) with
  | Ok ext =>
      fst (draw_action (C := Toy.world) f s) =
        fst (fst (agent_draw_action (Collaborators := Toy.world)
                    (policy s) (approximator s) ext (np_random s))) /\
      calls (snd (draw_action (C := Toy.world) f s)) =
        calls s ++ [BufferAdd (C := Toy.world) f; BufferGet (C := Toy.world);
                    PolicyDrawAction (C := Toy.world) ext]
  | Raise e =>
      fst (draw_action (C := Toy.world) f s) = Raise e /\
      calls (snd (draw_action (C := Toy.world) f s)) =
        calls s ++ [BufferAdd (C := Toy.world) f; BufferGet (C := Toy.world)] /\
      _episode_steps (snd (draw_action (C := Toy.world) f s)) = _episode_steps s
  end.
Proof.
  cbv zeta. split; [reflexivity|]. split; [reflexivity|].
  apply (draw_action_before_episode_start (C := Toy.world)
           DQN O (of_Z 1) Toy.p_single 2%nat 0 (Toy.start DQN Toy.p_single)
           [CallFit (C := Toy.world) Toy.d_live 1] 7); reflexivity.
Defined.

(** Witness of X11: the live sample of a batch of two on a fresh
    [DoubleDQN] agent. *)
Lemma double_q_at_most_max_q_witness :
  let s := Toy.start DoubleDQN Toy.p_single in
  let ns : list (@State Toy.world) := [[7]; [8]] in
  let ab := [true; false] in
  let x : @State Toy.world := [8] in
  length ab = length ns /\
  n_actions s <> O /\
  nth_error ns 1 = Some x /\
  nth_error ab 1 = Some false /\
  exists r r' v',
    fst (DoubleDQN_next_q (C := Toy.world) ns ab s) = Ok r /\
    fst (DQN_next_q (C := Toy.world) ns ab s) = Ok r' /\
    let a := row_argmax (map (predict (Collaborators := Toy.world) (approximator s) x)
                             (seq 0 (n_actions s))) in
    (a < n_actions s)%nat /\
    nth_error r 1 = Some (target_q (C := Toy.world) (target_approximator s) x a) /\
    nth_error r' 1 = Some v' /\
    v' = row_max (map (target_q (C := Toy.world) (target_approximator s) x)
                      (seq 0 (n_actions s))) /\
    (target_q (C := Toy.world) (target_approximator s) x a <= v')%Qc /\
    ((forall b, (b < n_actions s)%nat ->
        target_q (C := Toy.world) (target_approximator s) x b =
        predict (Collaborators := Toy.world) (approximator s) x b) ->
     target_q (C := Toy.world) (target_approximator s) x a = v').
Proof.
  cbv zeta. split; [reflexivity|]. split; [vm_compute; discriminate|].
  split; [reflexivity|]. split; [reflexivity|].
  apply (double_q_at_most_max_q (C := Toy.world) [[7]; [8]] [true; false]
           (Toy.start DoubleDQN Toy.p_single) 1 [8]);
    first [reflexivity | vm_compute; discriminate].
Defined.

(** Witness of X13: a fresh three-slot agent, on which one slot is
    fitted. *)
Lemma one_fitted_slot_is_max_q_witness :
  let s := Toy.start AveragedDQN Toy.p_ensemble in
  let ns : list (@State Toy.world) := [[7]; [8]] in
  let ab := [true; false] in
  let m : @Model Toy.world := Toy.q0 in
  target_approximator s = Ensemble (m :: [Toy.q0; Toy.q0]) /\
  _n_fitted_target_models s = 1 /\
  length ab = length ns /\
  n_actions s <> O /\
  fst (AveragedDQN_next_q (C := Toy.world) ns ab s) =
    Ok (max_values (C := Toy.world) (n_actions s)
          (predict (Collaborators := Toy.world) m) ns ab) /\
  fst (WeightedDQN_next_q (C := Toy.world) ns ab s) =
    Ok (max_values (C := Toy.world) (n_actions s)
          (predict (Collaborators := Toy.world) m) ns ab).
Proof.
  cbv zeta. split; [reflexivity|]. split; [reflexivity|].
  split; [reflexivity|]. split; [vm_compute; discriminate|].
  apply (one_fitted_slot_is_max_q (C := Toy.world) [[7]; [8]] [true; false]
           Toy.q0 [Toy.q0; Toy.q0] (Toy.start AveragedDQN Toy.p_ensemble));
    first [reflexivity | vm_compute; discriminate].
Defined.

(** Witness of X14: the first [fit] of a fresh single-target agent, on a
    transition into an absorbing state. *)
Lemma absorbing_target_is_reward_witness :
  let s := Toy.start DQN Toy.p_single in
  let d := Toy.d_absorbing in
  cls s <> DoubleDQN /\
  (cls s = DQN \/
   exists ms, target_approximator s = Ensemble ms /\
              1 <= _n_fitted_target_models s <= Z.of_nat (length ms)) /\
  rm_add (Collaborators := Toy.world) (_replay_memory s) d = Ok d /\
  rm_get (Collaborators := Toy.world) d (batch_size (_params s)) (np_random s) = (Ok d, 0) /\
  length (mb_absorbing d) = length (mb_next_state d) /\
  length (mb_reward d) = length (mb_next_state d) /\
  n_actions s <> O /\
  let reward := if clip_reward (_params s)
                then map (clip1 (of_Z (-1)) (of_Z 1)) (mb_reward d)
                else mb_reward d in
  exists y pre post,
    calls (snd (fit (C := Toy.world) d 1 s)) =
      calls s ++ [ReplayAdd (C := Toy.world) d;
                  ReplayGet (C := Toy.world) (batch_size (_params s))] ++ pre ++
      TrainFit (C := Toy.world) (mb_state d) (mb_action d) y :: post /\
    train_fits pre = O /\ train_fits post = O /\
    length y = length (mb_reward d) /\
    forall i, nth_error (mb_absorbing d) i = Some true ->
      nth_error y i = nth_error reward i /\
      (clip_reward (_params s) = true ->
       exists v, nth_error y i = Some v /\ (of_Z (-1) <= v <= of_Z 1)%Qc).
Proof.
  cbv zeta. split; [vm_compute; discriminate|]. split; [left; reflexivity|].
  split; [reflexivity|]. split; [reflexivity|]. split; [reflexivity|].
  split; [reflexivity|]. split; [vm_compute; discriminate|].
  apply (absorbing_target_is_reward (C := Toy.world) (Toy.start DQN Toy.p_single)
           Toy.d_absorbing Toy.d_absorbing Toy.d_absorbing 0);
    first [reflexivity | vm_compute; discriminate | left; reflexivity].
Defined.
